(** * Payslip automation: the PDF exporter, asset validation and batch driver

    A shallow embedding of
      - [src/pdf/reportlab_payslip_exporter.py] (currency formatting, the
        layout cursor and the fixed section sequence of [render_pdf]),
      - [src/utils/asset_validation.py] (branding asset validation),
      - [src/main.py] (filename sanitising, line items, the per-employee
        batch loop and its manifest),
    followed by the properties of the specification that concern them.

    Python [float] is IEEE-754 binary64: amounts and page coordinates are
    [spec_float] values with the operations of the Standard Library's
    [SpecFloat] at precision 53 and maximal exponent 1024, so every rounding
    the program performs is performed here as well.  Python [str] is a
    sequence of Unicode code points. *)

From Stdlib Require Import ZArith NArith List Bool String Ascii Lia.
From Stdlib Require Import SpecFloat.
Import ListNotations.
Local Open Scope Z_scope.

(* ================================================================== *)
(** * Python strings *)
(* ================================================================== *)

Module PyStr.

(** A code point; a [str] is a list of them. *)
Definition codepoint := N.
Definition pystr := list codepoint.

(** ASCII literals. *)
Definition lit (s : string) : pystr :=
  map N_of_ascii (list_ascii_of_string s).

Definition eqb (a b : pystr) : bool :=
  if list_eq_dec N.eq_dec a b then true else false.

(** [str.isspace] for one character: the white space that [str.strip()]
    and [str.split()] remove (CPython's [Py_UNICODE_ISSPACE]). *)
Definition is_space (c : codepoint) : bool :=
  (((9 <=? c) && (c <=? 13)) || ((28 <=? c) && (c <=? 32))
   || (c =? 133) || (c =? 160) || (c =? 5760)
   || ((8192 <=? c) && (c <=? 8202))
   || (c =? 8232) || (c =? 8233) || (c =? 8239) || (c =? 8287)
   || (c =? 12288))%N.

Fixpoint lstrip (s : pystr) : pystr :=
  match s with
  | [] => []
  | c :: r => if is_space c then lstrip r else s
  end.

Definition rstrip (s : pystr) : pystr := rev (lstrip (rev s)).

(** [s.strip()] *)
Definition strip (s : pystr) : pystr := rstrip (lstrip s).

(** [s.replace(ch, rep)] for a one-character [ch]. *)
Definition replace (ch : codepoint) (rep : pystr) (s : pystr) : pystr :=
  flat_map (fun c => if (c =? ch)%N then rep else [c]) s.

(** [s.split()]: the maximal runs of non-space characters, in order.
    [cur] is the run being read. *)
Fixpoint split_from (cur : pystr) (s : pystr) : list pystr :=
  match s with
  | [] => match cur with [] => [] | _ => [cur] end
  | c :: r =>
      if is_space c then
        match cur with
        | [] => split_from [] r
        | _ => cur :: split_from [] r
        end
      else split_from (cur ++ [c]) r
  end.

Definition split (s : pystr) : list pystr := split_from [] s.

(** [sep.join(words)] *)
Fixpoint join (sep : pystr) (words : list pystr) : pystr :=
  match words with
  | [] => []
  | [w] => w
  | w :: ws => w ++ sep ++ join sep ws
  end.

(** [needle in s] for strings. *)
Fixpoint is_prefix (p s : pystr) : bool :=
  match p, s with
  | [], _ => true
  | _ :: _, [] => false
  | a :: p', b :: s' => (a =? b)%N && is_prefix p' s'
  end.

Fixpoint contains (needle s : pystr) : bool :=
  is_prefix needle s ||
  match s with
  | [] => false
  | _ :: r => contains needle r
  end.

(** A word of [split]: not empty, no white space. *)
Definition is_word (w : pystr) : Prop :=
  w <> [] /\ Forall (fun c => is_space c = false) w.

(** Two spaces in a row. *)
Fixpoint has_double_space (s : pystr) : bool :=
  match s with
  | a :: (b :: _) as r => ((a =? 32)%N && (b =? 32)%N) || has_double_space r
  | _ => false
  end.

End PyStr.

Import PyStr.

(* ================================================================== *)
(** * Python floats: IEEE-754 binary64 *)
(* ================================================================== *)

Module F64.

Definition prec : Z := 53.
Definition emax : Z := 1024.

Definition float := spec_float.

Definition add : float -> float -> float := SFadd prec emax.
Definition sub : float -> float -> float := SFsub prec emax.
Definition mul : float -> float -> float := SFmul prec emax.
Definition div : float -> float -> float := SFdiv prec emax.
Definition leb : float -> float -> bool := SFleb.
Definition ltb : float -> float -> bool := SFltb.

(** A value of the type: a canonical mantissa and exponent. *)
Definition valid (x : float) : bool := valid_binary prec emax x.

Definition is_finite (x : float) : bool :=
  match x with
  | S754_zero _ | S754_finite _ _ _ => true
  | _ => false
  end.

Definition is_nan (x : float) : bool :=
  match x with S754_nan => true | _ => false end.

(** [float(n)] for an [int] within range, and the literal [n.0]. *)
Definition of_int (n : Z) : float := binary_normalize prec emax n 0 false.

(** The decimal literal [n / 10^k] written in the source (the nearest
    double, as both operands are exact and the quotient is correctly
    rounded). *)
Definition dec_lit (n : Z) (pow10 : Z) : float := div (of_int n) (of_int pow10).

Definition zero : float := S754_zero false.

(** The sign bit of a number. *)
Definition sign_bit (x : float) : bool :=
  match x with
  | S754_zero s | S754_infinity s | S754_finite s _ _ => s
  | S754_nan => false
  end.

(** [0 <= x] and [0 < x] as Python evaluates them. *)
Definition nonneg (x : float) : bool := leb zero x.
Definition is_positive (x : float) : bool := ltb zero x.

(** A gap the cursor is lowered by: a number of the format with [0 <= d]. *)
Definition is_gap (d : float) : bool := valid d && nonneg d.

(** A position of the cursor: a number of the format, finite or minus
    infinity. *)
Definition is_cursor (y : float) : bool :=
  valid y && match y with
             | S754_nan => false
             | S754_infinity s => s
             | _ => true
             end.

(** What [n] right shifts of [shr_1] keep of a mantissa [m0]: the
    quotient by [2^n], and no memory of the bits shifted out when the
    division is exact. *)
Definition shr_inv (m0 k : Z) (mrs : shr_record) : Prop :=
  shr_m mrs = m0 / 2 ^ k
  /\ (m0 mod 2 ^ k = 0 -> shr_r mrs = false /\ shr_s mrs = false).

(** The place of a number in the order of the floats: the class first
    (minus infinity, negative, zero, positive, plus infinity), then the
    exponent and the mantissa. *)
Definition rank (x : float) : Z * Z * Z :=
  match x with
  | S754_nan => (0, 0, 0)
  | S754_infinity true => (-2, 0, 0)
  | S754_finite true m e => (-1, - e, - Zpos m)
  | S754_zero _ => (0, 0, 0)
  | S754_finite false m e => (1, e, Zpos m)
  | S754_infinity false => (2, 0, 0)
  end.

Definition rank_le (a b : Z * Z * Z) : Prop :=
  let '(a1, a2, a3) := a in
  let '(b1, b2, b3) := b in
  a1 < b1 \/ (a1 = b1 /\ (a2 < b2 \/ (a2 = b2 /\ a3 <= b3))).

End F64.

Import F64.

(* ================================================================== *)
(** * Fixed-point formatting: the format specs [",.2f"] and [".2f"] *)
(* ================================================================== *)

Module PyFormat.

Definition digit (d : Z) : codepoint := (48 + Z.to_N d)%N.

Definition comma : codepoint := 44%N.
Definition dot : codepoint := 46%N.
Definition minus : codepoint := 45%N.

(** The absolute value of [m * 2^e] in hundredths, correctly rounded:
    to the nearest integer, an exact tie going to the even one. *)
Definition cents_of (m : positive) (e : Z) : Z :=
  let n := 100 * Zpos m in
  match e with
  | Zneg p =>
      let d := 2 ^ Zpos p in
      let q := n / d in
      let r := n mod d in
      match 2 * r ?= d with
      | Lt => q
      | Gt => q + 1
      | Eq => if Z.even q then q else q + 1
      end
  | _ => n * 2 ^ e
  end.

(** Base-1000 limbs of a natural number, most significant first. *)
Fixpoint limbs (fuel : nat) (n : Z) : list Z :=
  match fuel with
  | O => [n]
  | S k => if n <? 1000 then [n] else limbs k (n / 1000) ++ [n mod 1000]
  end.

Definition limbs_of (n : Z) : list Z := limbs (Z.to_nat (Z.log2 n)) n.

(** A leading limb, without padding. *)
Definition lead_digits (h : Z) : pystr :=
  if h <? 10 then [digit h]
  else if h <? 100 then [digit (h / 10); digit (h mod 10)]
  else [digit (h / 100); digit (h / 10 mod 10); digit (h mod 10)].

(** A following limb: three digits. *)
Definition pad3 (l : Z) : pystr :=
  [digit (l / 100); digit (l / 10 mod 10); digit (l mod 10)].

(** The integer part, with [","] between groups of three digits when
    [grouping] is set. *)
Definition int_text (grouping : bool) (n : Z) : pystr :=
  match limbs_of n with
  | [] => [digit 0]
  | h :: t =>
      lead_digits h ++
      flat_map (fun l => (if grouping then [comma] else []) ++ pad3 l) t
  end.

Definition sign_text (s : bool) : pystr := if s then [minus] else [].

(** [format(x, ",.2f")] when [grouping], [format(x, ".2f")] otherwise. *)
Definition format_fixed2 (grouping : bool) (x : float) : pystr :=
  match x with
  | S754_nan => lit "nan"
  | S754_infinity s => sign_text s ++ lit "inf"
  | S754_zero s => sign_text s ++ lit "0.00"
  | S754_finite s m e =>
      let c := cents_of m e in
      sign_text s ++ int_text grouping (c / 100) ++ [dot]
        ++ [digit (c mod 100 / 10); digit (c mod 10)]
  end.

(** ** Reading a formatted amount back

    [parse_money] accepts exactly an optional minus sign, a first group of
    one to three digits, any number of groups made of a comma and three
    digits, a dot and two digits; it returns the sign and the amount in
    hundredths. *)

Definition is_digit (c : codepoint) : bool := ((48 <=? c) && (c <=? 57))%N.

Definition digit_value (c : codepoint) : Z := Z.of_N c - 48.

Definition group_complete (first : bool) (cnt : nat) : bool :=
  if first then Nat.leb 1 cnt else Nat.eqb cnt 3.

Definition parse_frac (acc : Z) (s : pystr) : option Z :=
  match s with
  | [d1; d2] =>
      if is_digit d1 && is_digit d2
      then Some (acc * 100 + digit_value d1 * 10 + digit_value d2)
      else None
  | _ => None
  end.

Fixpoint parse_int (first : bool) (cnt : nat) (acc : Z) (s : pystr) : option Z :=
  match s with
  | [] => None
  | c :: r =>
      if is_digit c then
        if Nat.ltb cnt 3 then parse_int first (S cnt) (acc * 10 + digit_value c) r
        else None
      else if (c =? comma)%N then
        if group_complete first cnt then parse_int false 0 acc r else None
      else if (c =? dot)%N then
        if group_complete first cnt then parse_frac acc r else None
      else None
  end.

Definition parse_money (s : pystr) : option (bool * Z) :=
  match s with
  | c :: r =>
      if (c =? minus)%N
      then option_map (pair true) (parse_int true 0 0 r)
      else option_map (pair false) (parse_int true 0 0 s)
  | [] => None
  end.

(** The rounding the specification names: the absolute value of
    [m * 2^e] in hundredths, rounded to the nearest integer, an exact tie
    going away from zero. *)
Definition half_away_cents (m : positive) (e : Z) : Z :=
  let n := 100 * Zpos m in
  match e with
  | Zneg p =>
      let d := 2 ^ Zpos p in
      if d <=? 2 * (n mod d) then n / d + 1 else n / d
  | _ => n * 2 ^ e
  end.

End PyFormat.

Import PyFormat.

(* ================================================================== *)
(** * [src/pdf/reportlab_payslip_exporter.py] *)
(* ================================================================== *)

(** [fmt_currency(amount, symbol)]: [symbol] may be [None]. *)
Definition fmt_currency (amount : float) (symbol : option pystr) : pystr :=
  let sym := match symbol with None => [] | Some s => s end in
  sym ++ format_fixed2 true amount.


Module Exporter.

(** reportlab.lib.units and reportlab.lib.pagesizes *)
Definition inch : float := of_int 72.
Definition cm : float := div inch (dec_lit 254 100).
Definition mm : float := mul cm (dec_lit 1 10).
Definition A4 : float * float := (mul (of_int 210) mm, mul (of_int 297) mm).

Record LineItem := { label : pystr; amount : float }.

(** [sum(...)] of floats: a left fold from [0]; the [int] zero it starts
    from adds, subtracts and prints as [0.0] does. This is how CPython adds
    up to version 3.11; from 3.12 [sum] also carries a correction for the
    rounding of each step, which leaves the result as it is whenever no
    step rounds, as with whole numbers below [2^53]. *)
Definition py_sum (l : list float) : float := fold_left add l zero.

(** The canvas calls the exporter makes, as a recording canvas sees them. *)
Inductive cmd :=
| SetFont (name : pystr) (size : Z)
| DrawString (x y : float) (text : pystr)
| DrawCentredString (x y : float) (text : pystr)
| DrawRightString (x y : float) (text : pystr)
| DrawImage (path : pystr) (x y width height : float)
    (preserveAspectRatio : bool) (anchor : option pystr) (mask : pystr)
| SetLineWidth (w : Z)
| Line (x1 y1 x2 y2 : float)
| ShowPage
| Save.

Inductive exn :=
| KeyError (key : pystr)
| ImageError (path : pystr)
| OSError (msg : pystr).

(** [str(e)] *)
Definition exn_str (e : exn) : pystr :=
  match e with
  | KeyError k => lit "'" ++ k ++ lit "'"
  | ImageError p => lit "Cannot open resource " ++ p
  | OSError m => m
  end.

Inductive result (A : Type) :=
| Ok (a : A)
| Raise (e : exn).
Arguments Ok {A} a.
Arguments Raise {A} e.

(** What a render has done so far: the canvas calls, and every value the
    cursor [y] has been given, oldest first. *)
Record rstate := { canvas : list cmd; trail : list float }.

Definition R (A : Type) : Type := rstate -> result (A * rstate).

Definition ret {A} (a : A) : R A := fun st => Ok (a, st).
Definition bind {A B} (m : R A) (k : A -> R B) : R B :=
  fun st => match m st with
            | Ok (a, st') => k a st'
            | Raise e => Raise e
            end.
Definition raise {A} (e : exn) : R A := fun _ => Raise e.

(** [try: m  except Exception: h] *)
Definition try_except {A} (m : R A) (h : R A) : R A :=
  fun st => match m st with
            | Ok r => Ok r
            | Raise _ => h st
            end.

Declare Scope render_scope.
Delimit Scope render_scope with render.
Notation "x <- m ;; k" := (bind m (fun x => k))
  (at level 61, m at next level, right associativity) : render_scope.
Notation "m ;; k" := (bind m (fun _ => k))
  (at level 61, right associativity) : render_scope.
Local Open Scope render_scope.

(** A call on the recording canvas, which takes every call. reportlab
    itself refuses a coordinate that is NaN or infinite; what is recorded
    is what it draws on a page whose coordinates are finite numbers. *)
Definition emit (c : cmd) : R unit :=
  fun st => Ok (tt, {| canvas := canvas st ++ [c]; trail := trail st |}).

(** An assignment to the cursor. *)
Definition set_y (y : float) : R float :=
  fun st => Ok (y, {| canvas := canvas st; trail := trail st ++ [y] |}).

(** [y -= d] *)
Definition down (y d : float) : R float := set_y (sub y d).

(** What the render reads from outside: whether reportlab can load an
    image, the wall clock, and the file system under the output path. *)
Record World := {
  image_loads : pystr -> bool;
  clock : pystr;
  resolve : pystr -> pystr;
  mkdir_error : pystr -> option pystr;
  save_error : pystr -> option pystr
}.

(** [c.drawImage(...)]: raises when the image cannot be read. *)
Definition drawImage (w : World) (path : pystr) (x y width height : float)
    (preserve : bool) (anchor : option pystr) (mask : pystr) : R unit :=
  if image_loads w path
  then emit (DrawImage path x y width height preserve anchor mask)
  else raise (ImageError path).

(** [d[key]] and [d.get(key, default)] on a [dict] with [str] keys. *)
Fixpoint dict_get {V} (d : list (pystr * V)) (key : pystr) : option V :=
  match d with
  | [] => None
  | (k, v) :: r => if PyStr.eqb k key then Some v else dict_get r key
  end.

Definition dict_index (d : list (pystr * pystr)) (key : pystr) : R pystr :=
  match dict_get d key with
  | Some v => ret v
  | None => raise (KeyError key)
  end.

Definition get_or {V} (d : list (pystr * V)) (key : pystr) (default : V) : V :=
  match dict_get d key with Some v => v | None => default end.

Record Exporter := {
  page_size : float * float;
  margin : float;
  line_gap : float
}.

(** [ReportLabPayslipExporter(margin_mm, line_gap)] *)
Definition new_exporter (margin_mm line_gap : float) : Exporter :=
  {| page_size := A4; margin := mul margin_mm mm; line_gap := line_gap |}.

(** [ReportLabPayslipExporter()] *)
Definition default_exporter : Exporter := new_exporter (of_int 14) (of_int 14).

Record FooterCfg := {
  approved_by_label : option pystr;
  approved_by_name : option pystr;
  signature_gap_mm : option float;
  name_gap_mm : option float
}.

Definition empty_footer_cfg : FooterCfg :=
  {| approved_by_label := None; approved_by_name := None;
     signature_gap_mm := None; name_gap_mm := None |}.

Definition or_default {A} (o : option A) (d : A) : A :=
  match o with Some a => a | None => d end.

Record Totals := { gross : float; total_deduction : float; net_pay : float }.

(** Lines 62-64 of [render_pdf]. *)
Definition compute_totals (earnings deductions : list LineItem) : Totals :=
  let gross := py_sum (map amount earnings) in
  let total_deduction := py_sum (map amount deductions) in
  let net_pay := sub gross total_deduction in
  {| gross := gross; total_deduction := total_deduction; net_pay := net_pay |}.

Section Render.
Variable self : Exporter.
Variable w : World.

Definition _sep (x0 x1 y : float) : R unit :=
  emit (SetLineWidth 4) ;;
  emit (Line x0 y x1 y).

Definition _section_title (x0 y : float) (title : pystr) : R float :=
  emit (SetFont (lit "Helvetica-Bold") 12) ;;
  emit (DrawString x0 y title) ;;
  emit (SetLineWidth 1) ;;
  emit (Line x0 (sub y (of_int 2)) (add x0 (mul (of_int 30) mm)) (sub y (of_int 2))) ;;
  down y (of_int 20).

(** The loop of [_line_items]. *)
Fixpoint line_items_loop (x0 x1 y : float) (items : list LineItem)
    (currency_symbol : option pystr) : R float :=
  match items with
  | [] => ret y
  | it :: rest =>
      emit (DrawString x0 y (label it)) ;;
      emit (DrawRightString x1 y (fmt_currency (amount it) currency_symbol)) ;;
      y <- down y (line_gap self) ;;
      line_items_loop x0 x1 y rest currency_symbol
  end.

Definition _line_items (x0 x1 y : float) (items : list LineItem)
    (currency_symbol : option pystr) : R float :=
  emit (SetFont (lit "Helvetica") 11) ;;
  line_items_loop x0 x1 y items currency_symbol.

(** Lines 82-119: the logo in its fixed box, the three titles, and the
    cursor set below the header. *)
Definition header_block (x0 x1 y width height : float)
    (company_line1 company_line2 period_display : pystr)
    (logo_path : option pystr) : R float :=
  let logo_box_w := mul (of_int 60) mm in
  let logo_box_h := mul (of_int 32) mm in
  let logo_right_pad := mul (of_int 0) mm in
  let logo_top_pad := mul (of_int 2) mm in
  let box_x := sub (sub width logo_right_pad) logo_box_w in
  let box_y := sub (sub height logo_top_pad) logo_box_h in
  match logo_path with
  | Some p =>
      try_except
        (drawImage w p box_x box_y logo_box_w logo_box_h true
           (Some (lit "c")) (lit "auto"))
        (ret tt)
  | None => ret tt
  end ;;
  let mid := div (add x0 x1) (of_int 2) in
  emit (SetFont (lit "Helvetica-Bold") 14) ;;
  emit (DrawCentredString mid (sub y (mul (of_int 2) mm)) company_line1) ;;
  emit (SetFont (lit "Helvetica-Bold") 13) ;;
  emit (DrawCentredString mid (sub y (mul (of_int 9) mm)) company_line2) ;;
  emit (SetFont (lit "Helvetica-Bold") 12) ;;
  emit (DrawCentredString mid (sub y (mul (of_int 16) mm)) period_display) ;;
  y <- down y (mul (of_int 22) mm) ;;
  _sep x0 x1 y ;;
  down y (mul (of_int 10) mm).

(** The loop over [info_rows]. *)
Fixpoint info_rows_loop (label_x value_x y : float)
    (rows : list (pystr * pystr)) : R float :=
  match rows with
  | [] => ret y
  | (k, v) :: rest =>
      emit (DrawString label_x y k) ;;
      emit (SetFont (lit "Helvetica") 11) ;;
      emit (DrawString value_x y v) ;;
      emit (SetFont (lit "Helvetica-Bold") 11) ;;
      y <- down y (line_gap self) ;;
      info_rows_loop label_x value_x y rest
  end.

(** Lines 121-143. *)
Definition employee_info_block (x0 x1 y : float)
    (employee : list (pystr * pystr)) (period_display : pystr) : R float :=
  let label_x := x0 in
  let value_x := add x0 (mul (of_int 70) mm) in
  let info_rows :=
    [ (lit "EMPLOYEE REFERENCE NO", get_or employee (lit "ref") []);
      (lit "NAME", get_or employee (lit "name") []);
      (lit "DESIGNATION", get_or employee (lit "designation") []);
      (lit "DEPARTMENT", get_or employee (lit "department") []);
      (lit "MONTH", period_display) ] in
  emit (SetFont (lit "Helvetica-Bold") 11) ;;
  y <- info_rows_loop label_x value_x y info_rows ;;
  y <- down y (mul (of_int 2) mm) ;;
  _sep x0 x1 y ;;
  down y (mul (of_int 12) mm).

(** A titled list of line items followed by its total row: lines
    145-152 for the earnings, 158-165 for the deductions. *)
Definition items_section (x0 x1 y : float) (title : pystr)
    (items : list LineItem) (currency_symbol : option pystr)
    (totals_labels : list (pystr * pystr)) (total_key : pystr)
    (total : float) : R float :=
  y <- _section_title x0 y title ;;
  y <- _line_items x0 x1 y items currency_symbol ;;
  emit (SetFont (lit "Helvetica-Bold") 11) ;;
  total_label <- dict_index totals_labels total_key ;;
  emit (DrawString x0 y total_label) ;;
  emit (DrawRightString x1 y (fmt_currency total currency_symbol)) ;;
  down y (line_gap self).

(** Lines 154-156. *)
Definition after_earnings (x0 x1 y : float) : R float :=
  y <- down y (mul (of_int 6) mm) ;;
  _sep x0 x1 y ;;
  down y (mul (of_int 12) mm).

(** Lines 171-185. *)
Definition net_pay_block (x0 x1 y : float) (currency_symbol : option pystr)
    (totals_labels : list (pystr * pystr)) (net_pay : float) : R float :=
  let net_pay_pad := mul (of_int 10) mm in
  _sep x0 x1 y ;;
  y <- down y net_pay_pad ;;
  emit (SetFont (lit "Helvetica-Bold") 13) ;;
  net_label <- dict_index totals_labels (lit "net_pay_label") ;;
  emit (DrawString x0 y net_label) ;;
  emit (DrawRightString x1 y (fmt_currency net_pay currency_symbol)) ;;
  y <- down y net_pay_pad ;;
  _sep x0 x1 y ;;
  down y net_pay_pad.

(** Lines 188-233. *)
Definition footer_block (x0 y : float) (footer_cfg : option FooterCfg)
    (signature_path : option pystr) : R float :=
  let footer_cfg := or_default footer_cfg empty_footer_cfg in
  let approved_by_label :=
    or_default (approved_by_label footer_cfg) (lit "Approved By:") in
  let approved_by_name :=
    strip (or_default (approved_by_name footer_cfg) []) in
  let signature_gap_mm := or_default (signature_gap_mm footer_cfg) (of_int 4) in
  let name_gap_mm := or_default (name_gap_mm footer_cfg) (of_int 3) in
  emit (SetFont (lit "Helvetica-Bold") 11) ;;
  emit (DrawString x0 y approved_by_label) ;;
  y <- down y (mul signature_gap_mm mm) ;;
  let sig_w := mul (of_int 45) mm in
  let sig_h := mul (of_int 18) mm in
  sig_drawn <-
    match signature_path with
    | Some p =>
        try_except
          (let sig_x_offset := mul (of_int 9) mm in
           drawImage w p (sub x0 sig_x_offset) (sub y sig_h) sig_w sig_h
             true None (lit "auto") ;;
           ret true)
          (ret false)
    | None => ret false
    end ;;
  y <- (if sig_drawn : bool
        then set_y (sub (sub y sig_h) (mul name_gap_mm mm))
        else down y (mul name_gap_mm mm)) ;;
  match approved_by_name with
  | [] => ret y
  | _ :: _ =>
      emit (SetFont (lit "Helvetica-Bold") 11) ;;
      emit (DrawString x0 y approved_by_name) ;;
      down y (of_int 10)
  end.

(** The page of [render_pdf]: everything drawn between opening the
    canvas and [c.showPage()]. *)
Definition page (company_line1 company_line2 period_display : pystr)
    (employee : list (pystr * pystr))
    (earnings deductions : list LineItem)
    (totals_labels : list (pystr * pystr))
    (logo_path signature_path : option pystr)
    (currency_symbol : option pystr)
    (footer_cfg : option FooterCfg)
    (generated_at : pystr) : R float :=
  let t := compute_totals earnings deductions in
  let '(width, height) := page_size self in
  let x0 := margin self in
  let x1 := sub width (margin self) in
  y <- set_y (sub height (margin self)) ;;
  y <- header_block x0 x1 y width height company_line1 company_line2
         period_display logo_path ;;
  y <- employee_info_block x0 x1 y employee period_display ;;
  y <- items_section x0 x1 y (lit "EARNINGS:") earnings currency_symbol
         totals_labels (lit "gross_income_label") (gross t) ;;
  y <- after_earnings x0 x1 y ;;
  y <- items_section x0 x1 y (lit "DEDUCTIONS:") deductions currency_symbol
         totals_labels (lit "total_deduction_label") (total_deduction t) ;;
  y <- net_pay_block x0 x1 y currency_symbol totals_labels (net_pay t) ;;
  y <- footer_block x0 y footer_cfg signature_path ;;
  emit (SetFont (lit "Helvetica") 9) ;;
  emit (DrawRightString x1 (div (margin self) (of_int 2))
          (lit "Generated: " ++ generated_at)) ;;
  ret y.

Definition io_step (err : option pystr) : R unit :=
  match err with
  | Some msg => raise (OSError msg)
  | None => ret tt
  end.

(** [render_pdf]: the output path it returns and the final cursor. *)
Definition render_pdf_R (output_pdf_path : pystr)
    (company_line1 company_line2 period_display : pystr)
    (employee : list (pystr * pystr))
    (earnings deductions : list LineItem)
    (totals_labels : list (pystr * pystr))
    (logo_path signature_path : option pystr)
    (currency_symbol : option pystr)
    (footer_cfg : option FooterCfg)
    (generated_at : option pystr) : R (pystr * float) :=
  let output_pdf_path := resolve w output_pdf_path in
  io_step (mkdir_error w output_pdf_path) ;;
  let generated_at :=
    match generated_at with
    | Some (c :: s) => c :: s
    | _ => clock w
    end in
  y <- page company_line1 company_line2 period_display employee earnings
         deductions totals_labels logo_path signature_path currency_symbol
         footer_cfg generated_at ;;
  emit ShowPage ;;
  io_step (save_error w output_pdf_path) ;;
  emit Save ;;
  ret (output_pdf_path, y).

Definition empty_state : rstate := {| canvas := []; trail := [] |}.

Definition render_pdf (output_pdf_path : pystr)
    (company_line1 company_line2 period_display : pystr)
    (employee : list (pystr * pystr))
    (earnings deductions : list LineItem)
    (totals_labels : list (pystr * pystr))
    (logo_path signature_path : option pystr)
    (currency_symbol : option pystr)
    (footer_cfg : option FooterCfg)
    (generated_at : option pystr) : result (pystr * float * rstate) :=
  render_pdf_R output_pdf_path company_line1 company_line2 period_display
    employee earnings deductions totals_labels logo_path signature_path
    currency_symbol footer_cfg generated_at empty_state.

End Render.

End Exporter.

Import Exporter.

(** ** Observations on a rendered page *)

Module Layout.

(** The texts drawn right-aligned, in drawing order. *)
Fixpoint right_strings (cs : list cmd) : list pystr :=
  match cs with
  | [] => []
  | DrawRightString _ _ text :: r => text :: right_strings r
  | _ :: r => right_strings r
  end.

(** The images drawn. *)
Fixpoint images (cs : list cmd) : list pystr :=
  match cs with
  | [] => []
  | DrawImage p _ _ _ _ _ _ _ :: r => p :: images r
  | _ :: r => images r
  end.

(** Each value is at most the one before it. *)
Fixpoint non_increasing (ys : list float) : bool :=
  match ys with
  | a :: (b :: _) as r => leb b a && non_increasing r
  | _ => true
  end.

(** [ys] goes down from [y]: each value is a position of the cursor and is
    at most the one before it. *)
Fixpoint descends (y : float) (ys : list float) : bool :=
  match ys with
  | [] => true
  | z :: r => leb z y && is_cursor z && descends z r
  end.

(** The positions of [n] rows below [y], [gap] apart. *)
Fixpoint walk (y gap : float) (n : nat) : list float :=
  match n with
  | O => []
  | S k => sub y gap :: walk (sub y gap) gap k
  end.

(** The values the cursor takes on a page, in closed form: they depend on
    the exporter, the number of earnings and of deductions, the two footer
    gaps, whether the signature was drawn and whether an approver name is
    printed, and on nothing else. *)
Definition cursor_trail (self : Exporter) (n_earnings n_deductions : nat)
    (signature_gap_mm name_gap_mm : float) (sig_drawn has_name : bool)
    : list float :=
  let gap := line_gap self in
  let pad := mul (of_int 10) mm in
  let y0 := sub (snd (page_size self)) (margin self) in
  let y1 := sub y0 (mul (of_int 22) mm) in
  let y2 := sub y1 (mul (of_int 10) mm) in
  let info := walk y2 gap 5 in
  let y3 := sub (last info y2) (mul (of_int 2) mm) in
  let y4 := sub y3 (mul (of_int 12) mm) in
  let y5 := sub y4 (of_int 20) in
  let earn := walk y5 gap n_earnings in
  let y6 := sub (last earn y5) gap in
  let y7 := sub y6 (mul (of_int 6) mm) in
  let y8 := sub y7 (mul (of_int 12) mm) in
  let y9 := sub y8 (of_int 20) in
  let ded := walk y9 gap n_deductions in
  let y10 := sub (last ded y9) gap in
  let y11 := sub y10 pad in
  let y12 := sub y11 pad in
  let y13 := sub y12 pad in
  let y14 := sub y13 (mul signature_gap_mm mm) in
  let y15 :=
    if sig_drawn
    then sub (sub y14 (mul (of_int 18) mm)) (mul name_gap_mm mm)
    else sub y14 (mul name_gap_mm mm) in
  [y0; y1; y2] ++ info ++ [y3; y4; y5] ++ earn ++ [y6; y7; y8; y9] ++ ded
    ++ [y10; y11; y12; y13; y14; y15]
    ++ (if has_name then [sub y15 (of_int 10)] else []).

(** An image is drawn when there is a path and the image loads. *)
Definition drawn (w : World) (path : option pystr) : bool :=
  match path with Some p => image_loads w p | None => false end.

(** An image that does not load, taken for no image. *)
Definition loaded (w : World) (path : option pystr) : option pystr :=
  if drawn w path then path else None.

(** The stamp drawn at the bottom of the page: the one passed to
    [render_pdf] when it is not empty, the clock otherwise. *)
Definition stamp (w : World) (generated_at : option pystr) : pystr :=
  match generated_at with
  | Some (c :: s) => c :: s
  | _ => clock w
  end.

Definition is_empty (s : pystr) : bool :=
  match s with [] => true | _ => false end.

(** The footer settings as [footer_block] reads them. *)
Definition footer_gaps (footer_cfg : option FooterCfg) : float * float :=
  let cfg := or_default footer_cfg empty_footer_cfg in
  (or_default (signature_gap_mm cfg) (of_int 4),
   or_default (name_gap_mm cfg) (of_int 3)).

Definition footer_name (footer_cfg : option FooterCfg) : pystr :=
  strip (or_default (approved_by_name (or_default footer_cfg empty_footer_cfg)) []).

Definition footer_label (footer_cfg : option FooterCfg) : pystr :=
  or_default (approved_by_label (or_default footer_cfg empty_footer_cfg))
    (lit "Approved By:").

(** The three labels [render_pdf] indexes [totals_labels] with. *)
Definition has_labels (totals_labels : list (pystr * pystr))
    (gross_label deduction_label net_label : pystr) : Prop :=
  dict_get totals_labels (lit "gross_income_label") = Some gross_label
  /\ dict_get totals_labels (lit "total_deduction_label") = Some deduction_label
  /\ dict_get totals_labels (lit "net_pay_label") = Some net_label.

Definition option_list {A} (o : option A) : list A :=
  match o with Some a => [a] | None => [] end.

(** [m] returns [a] from any state, having added the calls [cs] to the
    canvas and the values [ys] to the trail of the cursor. *)
Definition yields {A} (m : R A) (a : A) (cs : list cmd) (ys : list float) : Prop :=
  forall st,
    m st = Ok (a, {| canvas := canvas st ++ cs; trail := trail st ++ ys |}).

End Layout.

Import Layout.

(** ** A sample document: the end-to-end scenario of the specification *)

Module Sample.

Definition world : World :=
  {| image_loads := fun _ => true;
     clock := lit "2026-01-31 09:00:00";
     resolve := fun p => p;
     mkdir_error := fun _ => None;
     save_error := fun _ => None |}.

(** The same, where no image can be read. *)
Definition no_images : World :=
  {| image_loads := fun _ => false;
     clock := lit "2026-01-31 09:00:00";
     resolve := fun p => p;
     mkdir_error := fun _ => None;
     save_error := fun _ => None |}.

Definition pound : pystr := [163%N].

Definition labels : list (pystr * pystr) :=
  [ (lit "gross_income_label", lit "GROSS INCOME");
    (lit "total_deduction_label", lit "TOTAL DEDUCTION");
    (lit "net_pay_label", lit "NET PAY") ].

Definition earnings : list LineItem :=
  [ {| label := lit "Basic"; amount := of_int 50000 |};
    {| label := lit "Allowance"; amount := of_int 10000 |} ].

Definition deductions : list LineItem :=
  [ {| label := lit "Tax"; amount := of_int 5000 |} ].

Definition employee : list (pystr * pystr) :=
  [ (lit "ref", lit "E001"); (lit "name", lit "Ada Obi");
    (lit "designation", lit "Engineer"); (lit "department", lit "R&D") ].

Definition footer : FooterCfg :=
  {| approved_by_label := None;
     approved_by_name := Some (lit "A. Manager");
     signature_gap_mm := None;
     name_gap_mm := None |}.

End Sample.

(* ================================================================== *)
(** * [src/utils/asset_validation.py] *)
(* ================================================================== *)

Module AssetValidation.

Record AssetSpec := {
  path : pystr;
  allowed_extensions : list pystr;
  enforce_resolution : bool;
  required_px : option (Z * Z);
  label : pystr
}.

(** What validation reads: [Path.resolve], [Path.exists], [Path.suffix],
    [str.lower] and the size PIL reports for an image file ([None] when
    [Image.open] raises). *)
Record FileSystem := {
  fs_resolve : pystr -> pystr;
  fs_exists : pystr -> bool;
  fs_suffix : pystr -> pystr;
  str_lower : pystr -> pystr;
  image_size : pystr -> option (Z * Z)
}.

Inductive error :=
| FileNotFoundError (msg : pystr)
| InvalidExtension (label ext : pystr) (allowed : list pystr)
| RequiredPxNotSet (label : pystr)
| WrongResolution (label : pystr) (w h w_req h_req : Z)
| CannotOpenImage (p : pystr).

Definition mem (x : pystr) (l : list pystr) : bool :=
  existsb (PyStr.eqb x) l.

(** [validate_asset(spec)]: [None] when the asset passes. *)
Definition validate_asset (fs : FileSystem) (spec : AssetSpec) : option error :=
  let p := fs_resolve fs (path spec) in
  if negb (fs_exists fs p) then
    Some (FileNotFoundError
            (lit "Missing required asset '" ++ label spec ++ lit "': " ++ p))
  else
    let ext := str_lower fs (fs_suffix fs p) in
    if match allowed_extensions spec with [] => false | _ => true end
       && negb (mem ext (map (str_lower fs) (allowed_extensions spec)))
    then Some (InvalidExtension (label spec) ext (allowed_extensions spec))
    else if enforce_resolution spec then
      match required_px spec with
      | None => Some (RequiredPxNotSet (label spec))
      | Some (w_req, h_req) =>
          match image_size fs p with
          | None => Some (CannotOpenImage p)
          | Some (w, h) =>
              if negb ((w =? w_req) && (h =? h_req))
              then Some (WrongResolution (label spec) w h w_req h_req)
              else None
          end
      end
    else None.

(** [validate_branding_assets(...)]: the logo first, then the signature. *)
Definition validate_branding_assets (fs : FileSystem)
    (logo_path signature_path : pystr) (allowed_extensions : list pystr)
    (enforce_resolution : bool)
    (logo_required_px signature_required_px : option (Z * Z)) : option error :=
  match validate_asset fs
          {| path := logo_path; allowed_extensions := allowed_extensions;
             enforce_resolution := enforce_resolution;
             required_px := logo_required_px; label := lit "logo" |} with
  | Some e => Some e
  | None =>
      validate_asset fs
        {| path := signature_path; allowed_extensions := allowed_extensions;
           enforce_resolution := enforce_resolution;
           required_px := signature_required_px; label := lit "signature" |}
  end.

End AssetValidation.

(* ================================================================== *)
(** * [src/main.py] *)
(* ================================================================== *)

Module Main.

(** A spreadsheet cell as [load_employee_payroll_rows] hands it over:
    [None], text, a number, or anything [float()] rejects. *)
Inductive cell :=
| CNone
| CStr (s : pystr)
| CNum (f : float)
| COther.

Record EmployeeRow := {
  ref : pystr;
  name : pystr;
  designation : pystr;
  department : pystr;
  email : pystr;
  raw : list (pystr * cell)
}.

Record Period := { period_id : pystr; display : pystr }.

(** [_safe_float(v)]; [parse] is [float()] on text, [None] when it raises. *)
Definition _safe_float (parse : pystr -> option float) (v : cell) : float :=
  match v with
  | CNone => zero
  | CStr s =>
      match strip s with
      | [] => zero
      | _ => match parse s with Some f => f | None => zero end
      end
  | CNum f => f
  | COther => zero
  end.

(** The characters [_sanitise_filename_part] replaces, as code points:
    slash, backslash, colon, asterisk, question mark, double quote,
    less-than, greater-than, vertical bar, newline, carriage return, tab. *)
Definition unsafe_chars : list codepoint :=
  [47; 92; 58; 42; 63; 34; 60; 62; 124; 10; 13; 9]%N.

Definition _sanitise_filename_part (s : option pystr) : pystr :=
  let s := strip (match s with Some s => s | None => [] end) in
  let s := fold_left (fun s ch => replace ch (lit "-") s) unsafe_chars s in
  join (lit " ") (split s).

Fixpoint _build_line_items (parse : pystr -> option float) (emp : EmployeeRow)
    (fields_cfg : list (list (pystr * pystr))) : list LineItem :=
  match fields_cfg with
  | [] => []
  | f :: rest =>
      let label := strip (get_or f (lit "label") []) in
      let col := strip (get_or f (lit "column") []) in
      match label, col with
      | [], _ | _, [] => _build_line_items parse emp rest
      | _, _ =>
          let amount := _safe_float parse (get_or (raw emp) col CNone) in
          {| label := label; amount := amount |}
            :: _build_line_items parse emp rest
      end
  end.

(** A row of the manifest. *)
Record ManifestRow := {
  row_employee_ref : pystr;
  row_name : pystr;
  row_email : pystr;
  row_period_id : pystr;
  row_period_display : pystr;
  row_pdf_path : pystr;
  row_gross_income : pystr;
  row_total_deductions : pystr;
  row_net_pay : pystr;
  row_status : pystr
}.

(** The values [main] reads from the loaded settings. *)
Record Settings := {
  fail_fast : bool;
  logo_path_cfg : pystr;
  signature_path_cfg : pystr;
  allowed_extensions : list pystr;
  enforce_resolution : bool;
  logo_required_px : option (Z * Z);
  signature_required_px : option (Z * Z);
  earnings_cfg : list (list (pystr * pystr));
  deductions_cfg : list (list (pystr * pystr));
  company_line1 : pystr;
  company_line2 : pystr;
  currency_symbol : pystr;
  footer_cfg : FooterCfg;
  totals_labels_cfg : list (pystr * pystr)
}.

(** What [main] reads from outside the settings. *)
Record Env := {
  project_root : pystr;
  pdf_dir : pystr;
  period : Period;
  path_join : pystr -> pystr -> pystr;
  fs : AssetValidation.FileSystem;
  parse_float : pystr -> option float;
  world : World;
  (** [load_employee_payroll_rows(...)]: the rows, or the message of the
      exception it raises. *)
  load_result : pystr + list EmployeeRow
}.

Inductive failure :=
| ValidationFailed (e : AssetValidation.error)
| LoadFailed (msg : pystr)
| RenderFailed (e : exn).

(** What a run leaves behind. *)
Record Outcome := {
  manifest_rows : list ManifestRow;
  pdf_paths : list pystr;
  (** the files written: path and page content *)
  files : list (pystr * list cmd);
  manifest_written : bool;
  raised : option failure
}.

(** [d.setdefault(k, v)] *)
Definition setdefault (d : list (pystr * pystr)) (k v : pystr)
    : list (pystr * pystr) :=
  match dict_get d k with
  | Some _ => d
  | None => d ++ [(k, v)]
  end.

(** Lines 129-131. *)
Definition with_default_labels (d : list (pystr * pystr)) : list (pystr * pystr) :=
  let d := setdefault d (lit "gross_income_label") (lit "GROSS INCOME LABEL") in
  let d := setdefault d (lit "total_deduction_label") (lit "TOTAL DEDUCTION LABEL") in
  setdefault d (lit "net_pay_label") (lit "NET PAY LABEL").

Section Loop.
Variable env : Env.
Variable settings : Settings.
Variable exporter : Exporter.
Variables logo_path signature_path : pystr.
Variable totals_labels : list (pystr * pystr).

Definition out_pdf_of (emp : EmployeeRow) : pystr :=
  let safe_name :=
    replace 32%N (lit "_") (_sanitise_filename_part (Some (name emp))) in
  let filename :=
    ref emp ++ lit "_" ++ safe_name ++ lit "_" ++ period_id (period env)
      ++ lit ".pdf" in
  path_join env (pdf_dir env) filename.

(** The call of [exporter.render_pdf] at lines 153-171. *)
Definition render_for (emp : EmployeeRow)
    : result (pystr * float * rstate) :=
  let earnings_items := _build_line_items (parse_float env) emp (earnings_cfg settings) in
  let deduction_items := _build_line_items (parse_float env) emp (deductions_cfg settings) in
  render_pdf exporter (world env) (out_pdf_of emp)
    (company_line1 settings) (company_line2 settings)
    (display (period env))
    [ (lit "ref", ref emp); (lit "name", name emp);
      (lit "designation", designation emp);
      (lit "department", department emp) ]
    earnings_items deduction_items totals_labels
    (Some logo_path) (Some signature_path)
    (Some (currency_symbol settings)) (Some (footer_cfg settings)) None.

(** The manifest row appended at lines 178-191. *)
Definition generated_row (emp : EmployeeRow) : ManifestRow :=
  let earnings_items := _build_line_items (parse_float env) emp (earnings_cfg settings) in
  let deduction_items := _build_line_items (parse_float env) emp (deductions_cfg settings) in
  let gross := py_sum (map amount earnings_items) in
  let total_ded := py_sum (map amount deduction_items) in
  let net_pay := sub gross total_ded in
  {| row_employee_ref := ref emp;
     row_name := name emp;
     row_email := email emp;
     row_period_id := period_id (period env);
     row_period_display := display (period env);
     row_pdf_path := resolve (world env) (out_pdf_of emp);
     row_gross_income := format_fixed2 false gross;
     row_total_deductions := format_fixed2 false total_ded;
     row_net_pay := format_fixed2 false net_pay;
     row_status := lit "generated" |}.

(** The manifest row appended at lines 196-209. *)
Definition error_row (emp : EmployeeRow) (e : exn) : ManifestRow :=
  {| row_employee_ref := ref emp;
     row_name := name emp;
     row_email := email emp;
     row_period_id := period_id (period env);
     row_period_display := display (period env);
     row_pdf_path := [];
     row_gross_income := [];
     row_total_deductions := [];
     row_net_pay := [];
     row_status := lit "error: " ++ exn_str e |}.

(** The [for emp in employees] loop, lines 144-211, from the state
    [acc] the earlier iterations left. *)
Fixpoint employees_loop (employees : list EmployeeRow) (acc : Outcome)
    : Outcome :=
  match employees with
  | [] => acc
  | emp :: rest =>
      match render_for emp with
      | Ok (_, _, st) =>
          employees_loop rest
            {| manifest_rows := manifest_rows acc ++ [generated_row emp];
               pdf_paths := pdf_paths acc ++ [out_pdf_of emp];
               files := files acc
                        ++ [(resolve (world env) (out_pdf_of emp), canvas st)];
               manifest_written := manifest_written acc;
               raised := raised acc |}
      | Raise e =>
          let acc' :=
            {| manifest_rows := manifest_rows acc ++ [error_row emp e];
               pdf_paths := pdf_paths acc;
               files := files acc;
               manifest_written := manifest_written acc;
               raised := raised acc |} in
          if fail_fast settings then
            {| manifest_rows := manifest_rows acc';
               pdf_paths := pdf_paths acc';
               files := files acc';
               manifest_written := manifest_written acc';
               raised := Some (RenderFailed e) |}
          else employees_loop rest acc'
      end
  end.

End Loop.

Definition nothing_done : Outcome :=
  {| manifest_rows := []; pdf_paths := []; files := [];
     manifest_written := false; raised := None |}.

Definition aborted (f : failure) : Outcome :=
  {| manifest_rows := []; pdf_paths := []; files := [];
     manifest_written := false; raised := Some f |}.

(** Lines 93-94, 127 and 129-131. *)
Definition logo_path_of (env : Env) (settings : Settings) : pystr :=
  path_join env (project_root env) (logo_path_cfg settings).

Definition signature_path_of (env : Env) (settings : Settings) : pystr :=
  path_join env (project_root env) (signature_path_cfg settings).

(** Lines 96-103. *)
Definition validate (env : Env) (settings : Settings)
    : option AssetValidation.error :=
  AssetValidation.validate_branding_assets (fs env)
    (logo_path_of env settings) (signature_path_of env settings)
    (allowed_extensions settings) (enforce_resolution settings)
    (logo_required_px settings) (signature_required_px settings).

(** The render of one employee as [main] calls it. *)
Definition render_employee (env : Env) (settings : Settings)
    (emp : EmployeeRow) : result (pystr * float * rstate) :=
  render_for env settings default_exporter (logo_path_of env settings)
    (signature_path_of env settings)
    (with_default_labels (totals_labels_cfg settings)) emp.

(** [main()], from the validation of the branding assets (line 91) to the
    end of the employee loop (line 211). Making the summary directory
    (line 136) and writing the manifest file (lines 214-217) are taken to
    succeed: [manifest_written] says that the run came to write the
    manifest, and [raised] is the exception of the validation, of the load
    or of the loop. *)
Definition main (env : Env) (settings : Settings) : Outcome :=
  match validate env settings with
  | Some e => aborted (ValidationFailed e)
  | None =>
      match load_result env with
      | inl msg => aborted (LoadFailed msg)
      | inr employees =>
          let out :=
            employees_loop env settings default_exporter
              (logo_path_of env settings) (signature_path_of env settings)
              (with_default_labels (totals_labels_cfg settings))
              employees nothing_done in
          match raised out with
          | Some _ => out
          | None =>
              {| manifest_rows := manifest_rows out;
                 pdf_paths := pdf_paths out;
                 files := files out;
                 manifest_written := true;
                 raised := None |}
          end
      end
  end.

(** The manifest row of one employee: what the loop appends for it. *)
Definition row_of (env : Env) (settings : Settings) (emp : EmployeeRow)
    : ManifestRow :=
  match render_employee env settings emp with
  | Ok _ => generated_row env settings emp
  | Raise e => error_row env emp e
  end.

End Main.

(** ** A sample run: two employees, the second one's PDF cannot be saved *)

Module SampleRun.

Import Main.

Definition ada : EmployeeRow :=
  {| ref := lit "E001"; name := lit "Ada Obi"; designation := lit "Engineer";
     department := lit "R&D"; email := lit "ada@example.com";
     raw := [ (lit "Basic", CNum (of_int 50000));
              (lit "Allowance", CNum (of_int 10000));
              (lit "Tax", CNum (of_int 5000)) ] |}.

Definition ben : EmployeeRow :=
  {| ref := lit "E002"; name := lit "Ben / Li"; designation := lit "Analyst";
     department := lit "Finance"; email := lit "ben@example.com";
     raw := [ (lit "Basic", CNum (of_int 40000));
              (lit "Allowance", CNone);
              (lit "Tax", CStr (lit "n/a")) ] |}.

Definition settings : Settings :=
  {| fail_fast := false;
     logo_path_cfg := lit "assets/logo.png";
     signature_path_cfg := lit "assets/signature.png";
     allowed_extensions := [lit ".png"; lit ".jpg"; lit ".jpeg"];
     enforce_resolution := false;
     logo_required_px := None;
     signature_required_px := None;
     earnings_cfg :=
       [ [(lit "label", lit "Basic"); (lit "column", lit "Basic")];
         [(lit "label", lit "Allowance"); (lit "column", lit "Allowance")] ];
     deductions_cfg := [ [(lit "label", lit "Tax"); (lit "column", lit "Tax")] ];
     company_line1 := lit "ACME";
     company_line2 := lit "Payslip";
     currency_symbol := Sample.pound;
     footer_cfg := Sample.footer;
     totals_labels_cfg := Sample.labels |}.

Definition fail_fast_settings : Settings :=
  {| fail_fast := true;
     logo_path_cfg := logo_path_cfg settings;
     signature_path_cfg := signature_path_cfg settings;
     allowed_extensions := allowed_extensions settings;
     enforce_resolution := enforce_resolution settings;
     logo_required_px := logo_required_px settings;
     signature_required_px := signature_required_px settings;
     earnings_cfg := earnings_cfg settings;
     deductions_cfg := deductions_cfg settings;
     company_line1 := company_line1 settings;
     company_line2 := company_line2 settings;
     currency_symbol := currency_symbol settings;
     footer_cfg := footer_cfg settings;
     totals_labels_cfg := totals_labels_cfg settings |}.

Definition join_paths (a b : pystr) : pystr := a ++ lit "/" ++ b.

(** Every file is there and is a PNG. *)
Definition all_there : AssetValidation.FileSystem :=
  {| AssetValidation.fs_resolve := fun p => p;
     AssetValidation.fs_exists := fun _ => true;
     AssetValidation.fs_suffix := fun _ => lit ".png";
     AssetValidation.str_lower := fun s => s;
     AssetValidation.image_size := fun _ => Some (600, 320) |}.

(** The logo is missing. *)
Definition no_logo : AssetValidation.FileSystem :=
  {| AssetValidation.fs_resolve := fun p => p;
     AssetValidation.fs_exists :=
       fun p => negb (PyStr.eqb p (lit "/srv/payslips/assets/logo.png"));
     AssetValidation.fs_suffix := fun _ => lit ".png";
     AssetValidation.str_lower := fun s => s;
     AssetValidation.image_size := fun _ => Some (600, 320) |}.

(** Saving the second employee's PDF fails. *)
Definition disk : World :=
  {| image_loads := fun _ => true;
     clock := lit "2026-01-31 09:00:00";
     resolve := fun p => p;
     mkdir_error := fun _ => None;
     save_error :=
       fun p =>
         if PyStr.eqb p (lit "/srv/payslips/output/2026-01/pdf/E002_Ben_-_Li_2026-01.pdf")
         then Some (lit "[Errno 28] No space left on device")
         else None |}.

Definition env_with (files : AssetValidation.FileSystem) : Env :=
  {| project_root := lit "/srv/payslips";
     pdf_dir := lit "/srv/payslips/output/2026-01/pdf";
     period := {| period_id := lit "2026-01"; display := lit "January 2026" |};
     path_join := join_paths;
     fs := files;
     parse_float := fun _ => None;
     world := disk;
     load_result := inr [ada; ben] |}.

Definition env : Env := env_with all_there.
Definition env_no_logo : Env := env_with no_logo.

End SampleRun.


(* ================================================================== *)
(** * Further observations on the render and the batch *)
(* ================================================================== *)

Module Failures.

(** [m] raises [e] from any state. *)
Definition raises {A} (m : R A) (e : exn) : Prop :=
  forall st, m st = Raise e.

(** The first of the three keys [render_pdf] indexes [totals_labels] with,
    in the order it reaches them, that the dictionary does not hold. *)
Definition first_missing_label (totals_labels : list (pystr * pystr))
    : option pystr :=
  match dict_get totals_labels (lit "gross_income_label") with
  | None => Some (lit "gross_income_label")
  | Some _ =>
      match dict_get totals_labels (lit "total_deduction_label") with
      | None => Some (lit "total_deduction_label")
      | Some _ =>
          match dict_get totals_labels (lit "net_pay_label") with
          | None => Some (lit "net_pay_label")
          | Some _ => None
          end
      end
  end.

(** The exception a call of [render_pdf] ends with, if any: the directory
    that cannot be made, then the first label that is missing, then the
    file that cannot be saved. *)
Definition render_failure (w : World) (output_pdf_path : pystr)
    (totals_labels : list (pystr * pystr)) : option exn :=
  match mkdir_error w (resolve w output_pdf_path) with
  | Some msg => Some (OSError msg)
  | None =>
      match first_missing_label totals_labels with
      | Some key => Some (KeyError key)
      | None =>
          match save_error w (resolve w output_pdf_path) with
          | Some msg => Some (OSError msg)
          | None => None
          end
      end
  end.

(** reportlab writes every coordinate it is given with [fp_str], which
    raises [OverflowError] on an infinite number and [ValueError] on NaN,
    and accepts every finite number. The recording canvas takes every
    call; what it records is what reportlab draws when the coordinates of
    the page are finite numbers, and [finite_page] says they are: the two
    margins, the middle of the page and the last position of the cursor.
    A step of the cursor from a position that is not finite never gives a
    finite one, so a finite last position means that every position
    before it was finite. *)
Definition finite_page (self : Exporter) (n_earnings n_deductions : nat)
    (footer_cfg : option FooterCfg) (sig_drawn : bool) : bool :=
  let x0 := margin self in
  let x1 := sub (fst (page_size self)) (margin self) in
  is_finite x0 && is_finite x1 && is_finite (div (add x0 x1) (of_int 2))
  && is_finite
       (last
          (cursor_trail self n_earnings n_deductions
             (fst (footer_gaps footer_cfg)) (snd (footer_gaps footer_cfg))
             sig_drawn (negb (is_empty (footer_name footer_cfg))))
          zero).

(** The exact value of a finite number, as a multiple of [2^-1074]; zero
    for the others. *)
Definition scaled (x : float) : Z :=
  match x with
  | S754_finite s m e => cond_Zopp s (Zpos m) * 2 ^ (e + 1074)
  | _ => 0
  end.

(** Sums of whole numbers: the sum and the sum of the absolute values. *)
Definition whole_sum (l : list Z) : Z := fold_right Z.add 0 l.

Definition whole_size (l : list Z) : Z :=
  fold_right (fun n acc => Z.abs n + acc) 0 l.

(** The calls that end a page. *)
Definition ends_page (c : cmd) : bool :=
  match c with
  | ShowPage | Save => true
  | _ => false
  end.

(** [m], when it returns, has only added calls that satisfy [P] to the
    canvas. *)
Definition draws_only (P : cmd -> bool) {A} (m : R A) : Prop :=
  forall st a st',
    m st = Ok (a, st') ->
    exists cs, canvas st' = canvas st ++ cs /\ forallb P cs = true.

(** A call that does not end the page. *)
Definition on_page (c : cmd) : bool := negb (ends_page c).

(** A text without its grouping commas. *)
Definition without_commas (s : pystr) : pystr :=
  filter (fun c => negb (c =? comma)%N) s.

End Failures.

Import Failures.


Module Batch.

Import Main.

(** The file the render of one employee leaves, if any. *)
Definition file_of (env : Env) (settings : Settings) (emp : EmployeeRow)
    : list (pystr * list cmd) :=
  match render_employee env settings emp with
  | Ok (_, _, st) => [(resolve (world env) (out_pdf_of env emp), canvas st)]
  | Raise _ => []
  end.

(** The output path appended to [pdf_paths] for one employee, if any. *)
Definition pdf_path_of (env : Env) (settings : Settings) (emp : EmployeeRow)
    : list pystr :=
  match render_employee env settings emp with
  | Ok _ => [out_pdf_of env emp]
  | Raise _ => []
  end.

(** The render of the employee returns. *)
Definition rendered (env : Env) (settings : Settings) (emp : EmployeeRow)
    : bool :=
  match render_employee env settings emp with
  | Ok _ => true
  | Raise _ => false
  end.

(** The page of the employee's payslip has finite coordinates: see
    [finite_page]. *)
Definition finite_payslip (env : Env) (settings : Settings)
    (emp : EmployeeRow) : bool :=
  finite_page default_exporter
    (List.length
       (_build_line_items (parse_float env) emp (earnings_cfg settings)))
    (List.length
       (_build_line_items (parse_float env) emp (deductions_cfg settings)))
    (Some (footer_cfg settings))
    (drawn (world env) (Some (signature_path_of env settings))).

(** The manifest row of a payslip that was written. *)
Definition is_generated (r : ManifestRow) : bool :=
  PyStr.eqb (row_status r) (lit "generated").

(** What the employee loop keeps true of its state: the files written are
    those of the rows that say [generated], and there is one output path
    for each. *)
Definition consistent (acc : Outcome) : Prop :=
  map fst (files acc)
  = map row_pdf_path (filter is_generated (manifest_rows acc))
  /\ List.length (pdf_paths acc) = List.length (files acc).

(** The part of the file name made from the employee's name, line 147. *)
Definition safe_name (emp : EmployeeRow) : pystr :=
  replace 32%N (lit "_") (_sanitise_filename_part (Some (name emp))).

(** A field of the configuration that [_build_line_items] keeps: both its
    label and its column are there once stripped. *)
Definition is_kept (f : list (pystr * pystr)) : bool :=
  negb (is_empty (strip (get_or f (lit "label") [])))
  && negb (is_empty (strip (get_or f (lit "column") []))).

(** The item [_build_line_items] makes of a field it keeps. *)
Definition item_of (parse : pystr -> option float) (emp : EmployeeRow)
    (f : list (pystr * pystr)) : LineItem :=
  {| Exporter.label := strip (get_or f (lit "label") []);
     amount :=
       _safe_float parse
         (get_or (raw emp) (strip (get_or f (lit "column") [])) CNone) |}.

(** The labels lines 130-131 fall back to: the key with its underscores
    replaced by spaces, in upper case. *)
Definition default_labels : list (pystr * pystr) :=
  [ (lit "gross_income_label", lit "GROSS INCOME LABEL");
    (lit "total_deduction_label", lit "TOTAL DEDUCTION LABEL");
    (lit "net_pay_label", lit "NET PAY LABEL") ].

(** A run of three employees, the second one's PDF cannot be saved. *)
Definition env_three : Env :=
  {| project_root := project_root SampleRun.env;
     pdf_dir := pdf_dir SampleRun.env;
     period := period SampleRun.env;
     path_join := path_join SampleRun.env;
     fs := fs SampleRun.env;
     parse_float := parse_float SampleRun.env;
     world := world SampleRun.env;
     load_result := inr [SampleRun.ada; SampleRun.ben; SampleRun.ada] |}.

(** The same two employees as in [SampleRun.env], on a disk that takes
    every file. *)
Definition env_all_saved : Env :=
  {| project_root := project_root SampleRun.env;
     pdf_dir := pdf_dir SampleRun.env;
     period := period SampleRun.env;
     path_join := path_join SampleRun.env;
     fs := fs SampleRun.env;
     parse_float := parse_float SampleRun.env;
     world := Sample.world;
     load_result := load_result SampleRun.env |}.

End Batch.

Import Batch.


(* ================================================================== *)
(** * [src/utils/period.py] *)
(* ================================================================== *)

Module Period.

Record PayrollPeriod := { year : Z; month : Z }.

(** [format(n, "0{width}d")] for an [int]: the sign, then zeros up to
    [width] characters in all, then the decimal digits. *)
Definition zero_padded (width : nat) (n : Z) : pystr :=
  let sign := sign_text (n <? 0) in
  let digits := int_text false (Z.abs n) in
  sign ++ repeat (digit 0) (width - List.length sign - List.length digits)
    ++ digits.

(** [PayrollPeriod.period_id] *)
Definition period_id (p : PayrollPeriod) : pystr :=
  zero_padded 4 (year p) ++ lit "-" ++ zero_padded 2 (month p).

(** A [datetime.date]. *)
Record date := { d_year : Z; d_month : Z; d_day : Z }.

(** What [resolve_period] reads from outside: [date.today()],
    [datetime.strptime(s, "%Y-%m-%d").date()] ([None] when it raises
    [ValueError]) and [str.lower]. *)
Record Clock := {
  today : date;
  strptime_ymd : pystr -> option date;
  str_lower : pystr -> pystr
}.

Inductive error :=
| InvalidReferenceDate (reference_date : pystr)
| UnknownMode (period_mode : option pystr).

(** Lines 28-34: the date the automatic modes count from. *)
Definition reference (c : Clock) (reference_date : pystr) : option date :=
  match reference_date with
  | [] => Some (today c)
  | _ :: _ => strptime_ymd c reference_date
  end.

(** Line 36. *)
Definition normal_mode (c : Clock) (period_mode : option pystr) : pystr :=
  str_lower c (strip (or_default period_mode [])).

Definition current_modes : list pystr :=
  [lit "auto_current_month"; lit "current"; lit "auto_current"].

Definition previous_modes : list pystr :=
  [lit "auto_previous_month"; lit "previous"; lit "auto_previous"].

(** [resolve_period(period_mode, manual_year, manual_month, reference_date)] *)
Definition resolve_period (c : Clock) (period_mode : option pystr)
    (manual_year manual_month : Z) (reference_date : pystr)
    : error + PayrollPeriod :=
  match reference c reference_date with
  | None => inl (InvalidReferenceDate reference_date)
  | Some ref =>
      let mode := normal_mode c period_mode in
      if PyStr.eqb mode (lit "manual") then
        inr {| year := manual_year; month := manual_month |}
      else if AssetValidation.mem mode current_modes then
        inr {| year := d_year ref; month := d_month ref |}
      else if AssetValidation.mem mode previous_modes then
        let y := d_year ref in
        let m := d_month ref - 1 in
        if m =? 0 then inr {| year := y - 1; month := 12 |}
        else inr {| year := y; month := m |}
      else inl (UnknownMode period_mode)
  end.

(** [str.lower] on ASCII text. *)
Definition ascii_lower (s : pystr) : pystr :=
  map (fun c => if ((65 <=? c) && (c <=? 90))%N then (c + 32)%N else c) s.

(** A clock for examples: the day is 2026-03-10, and the one reference
    date that parses is [2026-01-15]. *)
Definition sample_clock : Clock :=
  {| today := {| d_year := 2026; d_month := 3; d_day := 10 |};
     strptime_ymd :=
       fun s =>
         if PyStr.eqb s (lit "2026-01-15")
         then Some {| d_year := 2026; d_month := 1; d_day := 15 |}
         else None;
     str_lower := ascii_lower |}.

End Period.


(* ================================================================== *)
(** * [src/utils/logging_utils.py]: [_StreamToLogger] *)
(* ================================================================== *)

Module StreamToLogger.

(** The stream: its level, its buffer, and the calls of [logger.log] it
    has made, oldest first. *)
Record stream := {
  level : Z;
  buffer : pystr;
  records : list (Z * pystr)
}.

(** [_StreamToLogger(logger, level)] *)
Definition new (level : Z) : stream :=
  {| level := level; buffer := []; records := [] |}.

Definition newline : codepoint := 10%N.

(** [s.split("\n", 1)] when ["\n" in s]: the text before the first
    newline and the text after it; [None] when [s] has no newline. *)
Fixpoint split_line (s : pystr) : option (pystr * pystr) :=
  match s with
  | [] => None
  | c :: r =>
      if (c =? newline)%N then Some ([], r)
      else
        match split_line r with
        | Some (line, rest) => Some (c :: line, rest)
        | None => None
        end
  end.

(** [self.logger.log(self.level, line)] when [line] is not empty. *)
Definition log_line (st : stream) (line : pystr) : list (Z * pystr) :=
  match line with
  | [] => records st
  | _ :: _ => records st ++ [(level st, line)]
  end.

(** The [while] loop of [write], for at most [fuel] rounds. *)
Fixpoint drain (fuel : nat) (st : stream) : stream :=
  match fuel with
  | O => st
  | S k =>
      match split_line (buffer st) with
      | None => st
      | Some (line, rest) =>
          drain k {| level := level st; buffer := rest;
                     records := log_line st (rstrip line) |}
      end
  end.

(** [write(message)]. Each round of the loop takes a newline out of the
    buffer, so the length of the buffer bounds the number of rounds. *)
Definition write (message : pystr) (st : stream) : stream :=
  match message with
  | [] => st
  | _ :: _ =>
      let st :=
        {| level := level st; buffer := buffer st ++ message;
           records := records st |} in
      drain (List.length (buffer st)) st
  end.

(** [flush()] *)
Definition flush (st : stream) : stream :=
  {| level := level st; buffer := [];
     records := log_line st (strip (buffer st)) |}.

(** A record as [write] makes it: at the level [lv], not empty, on one
    line, without white space at its end. *)
Definition logged_line (lv : Z) (r : Z * pystr) : Prop :=
  fst r = lv /\ snd r <> [] /\ ~ In newline (snd r) /\ rstrip (snd r) = snd r.

End StreamToLogger.


(* ================================================================== *)
(** * [src/email/outlook_sender.py] and the email step of [main] *)
(* ================================================================== *)

Module Email.

Record EmailRequest := {
  to : pystr;
  subject : pystr;
  body : pystr;
  attachment_path : pystr
}.

(** What the sender reads from outside: whether [win32com.client] could be
    imported, [Path.resolve], [Path.exists] and [str.lower]. Outlook is
    taken to accept every call made to it. *)
Record Outlook := {
  win32com_available : bool;
  resolve : pystr -> pystr;
  path_exists : pystr -> bool;
  str_lower : pystr -> pystr
}.

Inductive error :=
| RuntimeError
| ValueError
| FileNotFoundError
| FormatError.

(** The mail item handed to Outlook, and whether it was sent, by
    [mail.Send()], or shown as a draft, by [mail.Display(True)]. *)
Record Mail := {
  mail_to : pystr;
  mail_subject : pystr;
  mail_body : pystr;
  mail_attachment : pystr;
  was_sent : bool
}.

(** Line 56: [(mode or "display").strip().lower()] *)
Definition normal_mode (o : Outlook) (mode : option pystr) : pystr :=
  str_lower o
    (strip match mode with
           | Some (c :: m) => c :: m
           | _ => lit "display"
           end).

(** [send_or_display_via_outlook(req, mode)] *)
Definition send_or_display_via_outlook (o : Outlook) (req : EmailRequest)
    (mode : option pystr) : error + Mail :=
  if negb (win32com_available o) then inl RuntimeError
  else
    match to req with
    | [] => inl ValueError
    | _ :: _ =>
        let attachment_path := resolve o (attachment_path req) in
        if negb (path_exists o attachment_path) then inl FileNotFoundError
        else
          inr {| mail_to := to req;
                 mail_subject := subject req;
                 mail_body := body req;
                 mail_attachment := attachment_path;
                 was_sent := PyStr.eqb (normal_mode o mode) (lit "send") |}
    end.

(** The settings the email step of [main] reads, lines 222-234. *)
Record EmailCfg := {
  enabled : bool;
  approval_gate_before_email : bool;
  mode : pystr;
  subject_template : pystr;
  body_template : pystr
}.

(** What the email step reads from outside: the answer typed at the
    prompt, and [template.format(name=..., period_display=...,
    period_id=...)], [None] when it raises. *)
Record Desk := {
  answer : pystr;
  format_template : pystr -> pystr -> pystr -> pystr -> option pystr;
  answer_lower : pystr -> pystr
}.

(** Line 227-228. *)
Definition approved (d : Desk) : bool :=
  AssetValidation.mem (answer_lower d (strip (answer d))) [lit "y"; lit "yes"].

Section Step.
Variable cfg : EmailCfg.
Variable d : Desk.
Variable o : Outlook.
Variable period : Main.Period.

(** The request of lines 240-245. *)
Definition request_for (emp : Main.EmployeeRow) (row : Main.ManifestRow)
    : option EmailRequest :=
  match format_template d (subject_template cfg) (Main.name emp)
          (Main.display period) (Main.period_id period) with
  | None => None
  | Some subject =>
      match format_template d (body_template cfg) (Main.name emp)
              (Main.display period) (Main.period_id period) with
      | None => None
      | Some body =>
          Some {| to := Main.email emp; subject := subject; body := body;
                  attachment_path := Main.row_pdf_path row |}
      end
  end.

(** The loop of lines 237-247: the mails handed to Outlook so far, and
    the exception that ended the loop, if any. *)
Fixpoint email_loop (pairs : list (Main.EmployeeRow * Main.ManifestRow))
    (mails : list Mail) : list Mail * option error :=
  match pairs with
  | [] => (mails, None)
  | (emp, row) :: rest =>
      match Main.row_pdf_path row with
      | [] => email_loop rest mails
      | _ :: _ =>
          match request_for emp row with
          | None => (mails, Some FormatError)
          | Some req =>
              match send_or_display_via_outlook o req (Some (mode cfg)) with
              | inl e => (mails, Some e)
              | inr mail => email_loop rest (mails ++ [mail])
              end
          end
      end
  end.

(** The email step of [main], lines 221-249. *)
Definition email_step (employees : list Main.EmployeeRow)
    (manifest_rows : list Main.ManifestRow) : list Mail * option error :=
  if negb (enabled cfg) then ([], None)
  else if approval_gate_before_email cfg && negb (approved d) then ([], None)
  else email_loop (combine employees manifest_rows) [].

End Step.

(** Where a mail goes and what it carries. *)
Definition envelope (m : Mail) : pystr * pystr :=
  (mail_to m, mail_attachment m).

(** A desk and an Outlook for examples: the answer is [Yes], every
    template is used as it is, every file is there. *)
Definition sample_desk : Desk :=
  {| answer := lit " Yes ";
     format_template := fun t _ _ _ => Some t;
     answer_lower := Period.ascii_lower |}.

Definition sample_outlook : Outlook :=
  {| win32com_available := true;
     resolve := fun p => p;
     path_exists := fun _ => true;
     str_lower := Period.ascii_lower |}.

Definition sample_cfg : EmailCfg :=
  {| enabled := true;
     approval_gate_before_email := true;
     mode := lit "Send";
     subject_template := lit "Your Payslip";
     body_template := lit "Please find your payslip attached." |}.

End Email.

(* ================================================================== *)
(** * Strings: strip, replace, split and join *)
(* ================================================================== *)

Section StringFacts.

Lemma split_from_words (s cur : pystr) :
  Forall (fun c => is_space c = false) cur ->
  Forall is_word (split_from cur s).
Proof.
  revert cur; induction s as [|c r IH]; intros cur Hcur; simpl.
  - destruct cur; constructor; [split; [discriminate | assumption] | constructor].
  - destruct (is_space c) eqn:Hc.
    + destruct cur as [|a cur'].
      * apply IH; constructor.
      * constructor; [split; [discriminate | assumption] | apply IH; constructor].
    + apply IH. apply Forall_app; split; [assumption | repeat constructor; assumption].
Qed.

Lemma split_from_incl (s cur : pystr) :
  Forall (fun w => incl w (cur ++ s)) (split_from cur s).
Proof.
  revert cur; induction s as [|c r IH]; intros cur; simpl.
  - destruct cur; constructor; [rewrite app_nil_r; apply incl_refl | constructor].
  - destruct (is_space c).
    + assert (Hr : Forall (fun w => incl w (cur ++ c :: r)) (split_from [] r)).
      { eapply Forall_impl; [| apply (IH [])].
        intros w Hw x Hx. apply in_or_app; right; right. exact (Hw x Hx). }
      destruct cur as [|a cur']; [exact Hr |].
      constructor; [| exact Hr].
      intros x Hx. apply in_or_app; left; exact Hx.
    + eapply Forall_impl; [| apply (IH (cur ++ [c]))].
      intros w Hw x Hx. specialize (Hw x Hx).
      rewrite <- app_assoc in Hw. exact Hw.
Qed.

Lemma split_from_word_prefix (w rest cur : pystr) :
  Forall (fun c => is_space c = false) w ->
  split_from cur (w ++ rest) = split_from (cur ++ w) rest.
Proof.
  revert cur; induction w as [|c w' IH]; intros cur Hw; simpl.
  - now rewrite app_nil_r.
  - inversion Hw as [|? ? Hc Hw']; subst. rewrite Hc.
    rewrite IH by assumption. now rewrite <- app_assoc.
Qed.

Lemma split_join (ws : list pystr) :
  Forall is_word ws -> split (join [32%N] ws) = ws.
Proof.
  unfold split. induction ws as [|w ws' IH]; intros Hws; [reflexivity |].
  inversion Hws as [|? ? [Hne Hsp] Hws']; subst.
  destruct ws' as [|w2 ws''].
  - simpl. rewrite <- (app_nil_r w) at 1.
    rewrite split_from_word_prefix by assumption. simpl.
    destruct w; [contradiction | reflexivity].
  - change (join [32%N] (w :: w2 :: ws''))
      with (w ++ 32%N :: join [32%N] (w2 :: ws'')).
    specialize (IH Hws').
    remember (join [32%N] (w2 :: ws'')) as J eqn:HJ.
    rewrite split_from_word_prefix by assumption.
    destruct w as [|c w']; [contradiction |].
    cbn [app split_from]. change (is_space 32%N) with true. cbn iota.
    now rewrite IH.
Qed.

Lemma join_chars (ws : list pystr) (c : codepoint) :
  In c (join [32%N] ws) -> c = 32%N \/ exists w, In w ws /\ In c w.
Proof.
  induction ws as [|w ws' IH]; [contradiction |].
  destruct ws' as [|w2 ws''].
  - simpl. intros H. right; exists w; split; [now left | assumption].
  - change (join [32%N] (w :: w2 :: ws''))
      with (w ++ 32%N :: join [32%N] (w2 :: ws'')).
    intros H. apply in_app_or in H. destruct H as [H | [H | H]].
    + right; exists w; split; [now left | assumption].
    + now left.
    + destruct (IH H) as [-> | (w' & Hw' & Hc)]; [now left |].
      right; exists w'; split; [now right | assumption].
Qed.

Lemma join_head (w : pystr) (ws : list pystr) :
  exists t, join [32%N] (w :: ws) = w ++ t.
Proof.
  destruct ws as [|w2 ws'].
  - exists []. simpl. now rewrite app_nil_r.
  - exists (32%N :: join [32%N] (w2 :: ws')). reflexivity.
Qed.

Lemma join_last (ws : list pystr) :
  Forall is_word ws -> ws <> [] ->
  exists t c, join [32%N] ws = t ++ [c] /\ is_space c = false.
Proof.
  induction ws as [|w ws' IH]; intros Hws Hne; [contradiction |].
  inversion Hws as [|? ? [Hw Hsp] Hws']; subst.
  destruct ws' as [|w2 ws''].
  - simpl. destruct (exists_last Hw) as (t & c & ->).
    exists t, c; split; [reflexivity |].
    apply Forall_app in Hsp. destruct Hsp as [_ Hc]. now inversion Hc.
  - destruct (IH Hws' ltac:(discriminate)) as (t & c & Ht & Hc).
    change (join [32%N] (w :: w2 :: ws''))
      with (w ++ 32%N :: join [32%N] (w2 :: ws'')).
    rewrite Ht. exists (w ++ 32%N :: t), c. split; [| assumption].
    now rewrite <- app_assoc.
Qed.

Lemma strip_join (ws : list pystr) :
  Forall is_word ws -> strip (join [32%N] ws) = join [32%N] ws.
Proof.
  intros Hws. destruct ws as [|w ws']; [reflexivity |].
  assert (Hl : lstrip (join [32%N] (w :: ws')) = join [32%N] (w :: ws')).
  { destruct (join_head w ws') as (t & ->).
    inversion Hws as [|? ? [Hw Hsp] _]; subst.
    destruct w as [|c w']; [contradiction |].
    inversion Hsp; subst. simpl. now rewrite H1. }
  unfold strip, rstrip. rewrite Hl.
  destruct (join_last (w :: ws') Hws ltac:(discriminate)) as (t & c & -> & Hc).
  rewrite rev_app_distr. simpl. rewrite Hc. simpl.
  now rewrite rev_involutive.
Qed.

Lemma replace_absent (ch : codepoint) (rep s : pystr) :
  ~ In ch s -> replace ch rep s = s.
Proof.
  induction s as [|c r IH]; intros H; [reflexivity |].
  unfold replace in *. simpl.
  destruct (N.eqb_spec c ch) as [-> | Hne].
  - exfalso; apply H; now left.
  - simpl. f_equal. apply IH. intros Hin; apply H; now right.
Qed.

Lemma replace_chars (ch c : codepoint) (s : pystr) :
  In c (replace ch (lit "-") s) -> (c <> ch /\ In c s) \/ c = 45%N.
Proof.
  induction s as [|a r IH]; [contradiction |].
  unfold replace in *. simpl.
  destruct (N.eqb_spec a ch) as [-> | Hne]; simpl.
  - intros [H | H]; [now right |].
    destruct (IH H) as [[? ?] | ?]; [left; split; [assumption | now right] | now right].
  - intros [H | H].
    + subst a. left; split; [assumption | now left].
    + destruct (IH H) as [[? ?] | ?]; [left; split; [assumption | now right] | now right].
Qed.

Lemma replace_all_chars (l : list codepoint) (c : codepoint) (s : pystr) :
  c <> 45%N ->
  In c (fold_left (fun s ch => replace ch (lit "-") s) l s) ->
  In c s /\ ~ In c l.
Proof.
  intros Hc. revert s; induction l as [|ch l' IH]; intros s H; simpl in *.
  - split; [assumption | tauto].
  - destruct (IH _ H) as [H1 H2].
    destruct (replace_chars _ _ _ H1) as [[Hne Hin] | Heq]; [| contradiction].
    split; [assumption |]. intros [E | E]; [now subst | contradiction].
Qed.

Lemma replace_all_absent (l : list codepoint) (s : pystr) :
  (forall c, In c l -> ~ In c s) ->
  fold_left (fun s ch => replace ch (lit "-") s) l s = s.
Proof.
  induction l as [|ch l' IH]; intros H; simpl; [reflexivity |].
  rewrite replace_absent by (apply H; now left).
  apply IH. intros c Hc; apply H; now right.
Qed.

Lemma not_space_neq (c : codepoint) : is_space c = false -> (c =? 32)%N = false.
Proof.
  intros H. destruct (N.eqb_spec c 32) as [-> | ]; [discriminate | reflexivity].
Qed.

Lemma has_double_space_cons (c : codepoint) (t : pystr) :
  is_space c = false -> has_double_space (c :: t) = has_double_space t.
Proof.
  intros H. destruct t as [|b t']; [reflexivity |].
  simpl. now rewrite (not_space_neq c H).
Qed.

Lemma has_double_space_app (w t : pystr) :
  Forall (fun c => is_space c = false) w ->
  has_double_space (w ++ t) = has_double_space t.
Proof.
  induction w as [|c w' IH]; intros H; [reflexivity |].
  inversion H; subst. cbn [app].
  rewrite has_double_space_cons by assumption. now apply IH.
Qed.

Lemma join_no_double_space (ws : list pystr) :
  Forall is_word ws -> has_double_space (join [32%N] ws) = false.
Proof.
  induction ws as [|w ws' IH]; intros Hws; [reflexivity |].
  inversion Hws as [|? ? [Hw Hsp] Hws']; subst.
  destruct ws' as [|w2 ws''].
  - simpl. rewrite <- (app_nil_r w). now rewrite has_double_space_app.
  - change (join [32%N] (w :: w2 :: ws''))
      with (w ++ 32%N :: join [32%N] (w2 :: ws'')).
    rewrite has_double_space_app by assumption.
    destruct (join_head w2 ws'') as (t & Ht).
    inversion Hws' as [|? ? [Hw2 Hsp2] _]; subst.
    specialize (IH Hws'). rewrite Ht in *.
    destruct w2 as [|c2 w2']; [contradiction |].
    inversion Hsp2; subst.
    cbn [app] in *.
    change (has_double_space (32%N :: c2 :: w2' ++ t))
      with (((32 =? 32)%N && (c2 =? 32)%N) || has_double_space (c2 :: w2' ++ t)).
    rewrite (not_space_neq c2) by assumption.
    rewrite andb_false_r. exact IH.
Qed.

End StringFacts.

(** ** The filename sanitiser *)

(** C10. [_sanitise_filename_part] is idempotent, and whatever it is given,
    its result holds none of the twelve characters it replaces (slash,
    backslash, colon, asterisk, question mark, double quote, less-than,
    greater-than, vertical bar, newline, carriage return, tab) and no two
    spaces in a row. *)
Theorem sanitise_filename_part_idempotent_clean (s : option pystr) :
  let r := Main._sanitise_filename_part s in
  Main._sanitise_filename_part (Some r) = r
  /\ (forall c, In c [47; 92; 58; 42; 63; 34; 60; 62; 124; 10; 13; 9]%N -> ~ In c r)
  /\ has_double_space r = false.
Proof.
  cbv zeta. unfold Main._sanitise_filename_part.
  set (s0 := strip match s with Some s1 => s1 | None => [] end).
  set (s1 := fold_left (fun s ch => replace ch (lit "-") s) Main.unsafe_chars s0).
  assert (Hws : Forall is_word (split s1)) by (apply split_from_words; constructor).
  assert (Hclean : forall c, In c Main.unsafe_chars -> ~ In c (join (lit " ") (split s1))).
  { intros c Hc Hin. change (lit " ") with [32%N] in Hin.
    destruct (join_chars _ _ Hin) as [-> | (w & Hw & Hcw)].
    - revert Hc. unfold Main.unsafe_chars. simpl.
      intros H; repeat (destruct H as [H | H]; [discriminate |]); exact H.
    - pose proof (split_from_incl s1 []) as Hincl.
      rewrite Forall_forall in Hincl. specialize (Hincl w Hw c Hcw).
      simpl in Hincl. unfold s1 in Hincl.
      apply replace_all_chars in Hincl; [tauto |].
      intros ->. revert Hc. unfold Main.unsafe_chars. simpl.
      intros H; repeat (destruct H as [H | H]; [discriminate |]); exact H. }
  split; [| split].
  - change (lit " ") with [32%N] in *.
    rewrite strip_join by assumption.
    rewrite replace_all_absent by assumption.
    now rewrite split_join.
  - exact Hclean.
  - change (lit " ") with [32%N]. now apply join_no_double_space.
Qed.

(* ================================================================== *)
(** * Fixed-point formatting: what [format_fixed2] prints *)
(* ================================================================== *)

Section FormatFacts.

Lemma digit_is_digit (d : Z) : 0 <= d < 10 -> is_digit (digit d) = true.
Proof.
  intros H. unfold is_digit, digit.
  apply andb_true_intro; split; apply N.leb_le; lia.
Qed.

Lemma digit_value_digit (d : Z) : 0 <= d < 10 -> digit_value (digit d) = d.
Proof. intros H. unfold digit_value, digit. lia. Qed.

Lemma digit_not_minus (d : Z) : 0 <= d < 10 -> (digit d =? minus)%N = false.
Proof. intros H. apply N.eqb_neq. unfold digit, minus. lia. Qed.

Lemma parse_int_digit (first : bool) (cnt : nat) (acc d : Z) (r : pystr) :
  0 <= d < 10 ->
  parse_int first cnt acc (digit d :: r) =
  if Nat.ltb cnt 3 then parse_int first (S cnt) (acc * 10 + d) r else None.
Proof.
  intros H. cbn [parse_int].
  now rewrite digit_is_digit, digit_value_digit by assumption.
Qed.

Lemma parse_int_pad3 (first : bool) (acc l : Z) (r : pystr) :
  0 <= l < 1000 ->
  parse_int first 0 acc (pad3 l ++ r) = parse_int first 3 (acc * 1000 + l) r.
Proof.
  intros H. unfold pad3. cbn [app].
  rewrite !parse_int_digit by (Z.div_mod_to_equations; lia).
  cbn [Nat.ltb Nat.leb]. f_equal. Z.div_mod_to_equations; lia.
Qed.

Lemma parse_int_lead (h : Z) :
  0 <= h < 1000 ->
  exists cnt, group_complete true cnt = true /\
    forall r, parse_int true 0 0 (lead_digits h ++ r) = parse_int true cnt h r.
Proof.
  intros H. unfold lead_digits.
  destruct (Z.ltb_spec h 10); [| destruct (Z.ltb_spec h 100)].
  - exists 1%nat; split; [reflexivity |]. intros r. cbn [app].
    rewrite parse_int_digit by lia. reflexivity.
  - exists 2%nat; split; [reflexivity |]. intros r. cbn [app].
    rewrite !parse_int_digit by (Z.div_mod_to_equations; lia).
    cbn [Nat.ltb Nat.leb]. f_equal. Z.div_mod_to_equations; lia.
  - exists 3%nat; split; [reflexivity |]. intros r. cbn [app].
    rewrite !parse_int_digit by (Z.div_mod_to_equations; lia).
    cbn [Nat.ltb Nat.leb]. f_equal. Z.div_mod_to_equations; lia.
Qed.

Lemma parse_int_groups (t : list Z) (first : bool) (cnt : nat) (acc d1 d2 : Z) :
  Forall (fun l => 0 <= l < 1000) t ->
  group_complete first cnt = true ->
  0 <= d1 < 10 -> 0 <= d2 < 10 ->
  parse_int first cnt acc
    (flat_map (fun l => [comma] ++ pad3 l) t ++ [dot; digit d1; digit d2]) =
  Some (fold_left (fun a l => a * 1000 + l) t acc * 100 + d1 * 10 + d2).
Proof.
  intros Ht; revert first cnt acc.
  induction Ht as [|l t' Hl Ht' IH]; intros first cnt acc Hg H1 H2.
  - cbn [flat_map app fold_left parse_int].
    change (is_digit dot) with false. change (dot =? comma)%N with false.
    change (dot =? dot)%N with true. cbn iota. rewrite Hg.
    unfold parse_frac. rewrite !digit_is_digit, !digit_value_digit by assumption.
    reflexivity.
  - cbn [flat_map fold_left]. rewrite <- !app_assoc. cbn [app].
    change (parse_int first cnt acc (comma :: pad3 l ++ _))
      with (if group_complete first cnt
            then parse_int false 0 acc
                   (pad3 l ++ flat_map (fun l => [comma] ++ pad3 l) t'
                      ++ [dot; digit d1; digit d2])
            else None).
    rewrite Hg, parse_int_pad3 by assumption.
    now apply IH.
Qed.

Lemma limbs_spec (fuel : nat) (n : Z) :
  0 <= n < 1000 * 2 ^ Z.of_nat fuel ->
  exists h t, limbs fuel n = h :: t /\ 0 <= h < 1000
    /\ Forall (fun l => 0 <= l < 1000) t
    /\ fold_left (fun a l => a * 1000 + l) t h = n.
Proof.
  revert n; induction fuel as [|k IH]; intros n Hn.
  - exists n, []. change (2 ^ Z.of_nat 0) with 1 in Hn.
    repeat split; try constructor; lia.
  - cbn [limbs]. destruct (Z.ltb_spec n 1000) as [Hlt | Hge].
    + exists n, []. repeat split; try constructor; lia.
    + destruct (IH (n / 1000)) as (h & t & E & Hh & Ht & Hv).
      { rewrite Nat2Z.inj_succ, Z.pow_succ_r in Hn by lia.
        assert (0 < 2 ^ Z.of_nat k) by (apply Z.pow_pos_nonneg; lia).
        Z.div_mod_to_equations; nia. }
      exists h, (t ++ [n mod 1000]). rewrite E. repeat split; try lia.
      * apply Forall_app; split; [assumption |].
        repeat constructor; Z.div_mod_to_equations; lia.
      * rewrite fold_left_app. cbn [fold_left]. rewrite Hv.
        Z.div_mod_to_equations; lia.
Qed.

Lemma limbs_of_spec (n : Z) :
  0 <= n ->
  exists h t, limbs_of n = h :: t /\ 0 <= h < 1000
    /\ Forall (fun l => 0 <= l < 1000) t
    /\ fold_left (fun a l => a * 1000 + l) t h = n.
Proof.
  intros Hn. apply limbs_spec. split; [assumption |].
  destruct (Z.eq_dec n 0) as [-> | Hne]; [reflexivity |].
  rewrite Z2Nat.id by apply Z.log2_nonneg.
  pose proof (Z.log2_spec n ltac:(lia)) as [_ Hlt].
  rewrite Z.pow_succ_r in Hlt by apply Z.log2_nonneg.
  assert (0 < 2 ^ Z.log2 n) by (apply Z.pow_pos_nonneg; [lia | apply Z.log2_nonneg]).
  lia.
Qed.

Lemma cents_of_nonneg (m : positive) (e : Z) : 0 <= cents_of m e.
Proof.
  unfold cents_of. destruct e as [|p|p].
  - lia.
  - assert (0 < 2 ^ Z.pos p) by (apply Z.pow_pos_nonneg; lia). nia.
  - cbv zeta.
    assert (Hd : 0 < 2 ^ Z.pos p) by (apply Z.pow_pos_nonneg; lia).
    assert (0 <= 100 * Z.pos m / 2 ^ Z.pos p) by (apply Z.div_pos; lia).
    destruct (2 * ((100 * Z.pos m) mod 2 ^ Z.pos p) ?= 2 ^ Z.pos p);
      [destruct (Z.even _) | |]; lia.
Qed.

(** The text of a non-negative number of hundredths reads back as it. *)
Lemma parse_int_text (c : Z) :
  0 <= c ->
  parse_int true 0 0
    (int_text true (c / 100) ++ [dot] ++ [digit (c mod 100 / 10); digit (c mod 10)])
  = Some c.
Proof.
  intros Hc. unfold int_text.
  destruct (limbs_of_spec (c / 100)) as (h & t & -> & Hh & Ht & Hv);
    [apply Z.div_pos; lia |].
  destruct (parse_int_lead h Hh) as (cnt & Hg & Hlead).
  rewrite <- app_assoc, Hlead.
  change ([dot] ++ [digit (c mod 100 / 10); digit (c mod 10)])
    with [dot; digit (c mod 100 / 10); digit (c mod 10)].
  rewrite parse_int_groups;
    [| assumption | assumption | Z.div_mod_to_equations; lia
     | Z.div_mod_to_equations; lia].
  rewrite Hv. f_equal. Z.div_mod_to_equations; lia.
Qed.

Lemma int_text_head (c : Z) :
  0 <= c -> exists d r, 0 <= d < 10 /\ int_text true c = digit d :: r.
Proof.
  intros Hc. unfold int_text.
  destruct (limbs_of_spec c Hc) as (h & t & -> & Hh & _ & _).
  unfold lead_digits.
  destruct (Z.ltb_spec h 10); [| destruct (Z.ltb_spec h 100)];
    eexists; eexists; (split; [| cbn [app]; reflexivity]);
    Z.div_mod_to_equations; lia.
Qed.

(** A finite amount prints as its sign and its hundredths. *)
Lemma parse_format_finite (s : bool) (m : positive) (e : Z) :
  parse_money (format_fixed2 true (S754_finite s m e)) = Some (s, cents_of m e).
Proof.
  cbn [format_fixed2]. cbv zeta.
  pose proof (cents_of_nonneg m e) as Hc.
  pose proof (parse_int_text _ Hc) as Hp.
  set (body := int_text true (cents_of m e / 100) ++ [dot]
               ++ [digit (cents_of m e mod 100 / 10); digit (cents_of m e mod 10)]) in *.
  destruct s; unfold sign_text.
  - change ([minus] ++ body) with (minus :: body).
    unfold parse_money. change (minus =? minus)%N with true. cbn iota.
    now rewrite Hp.
  - change ([] ++ body) with body.
    destruct (int_text_head (cents_of m e / 100)) as (d & r & Hd & E);
      [apply Z.div_pos; lia |].
    assert (Eb : body = digit d :: (r ++ [dot]
               ++ [digit (cents_of m e mod 100 / 10); digit (cents_of m e mod 10)]))
      by (unfold body; rewrite E; reflexivity).
    unfold parse_money. rewrite Eb at 1.
    rewrite digit_not_minus by assumption. now rewrite Hp.
Qed.

(** The hundredths printed are the nearest to the amount, the even one
    when two are as near. *)
Lemma cents_of_nearest_even (m : positive) (e : Z) :
  let c := cents_of m e in
  match e with
  | Zneg p =>
      let d := 2 ^ Zpos p in
      Z.abs (2 * (100 * Zpos m) - 2 * c * d) <= d
      /\ (Z.abs (2 * (100 * Zpos m) - 2 * c * d) = d -> Z.even c = true)
  | _ => c = 100 * Zpos m * 2 ^ e
  end.
Proof.
  cbv zeta. destruct e as [|p|p]; [reflexivity | reflexivity |].
  unfold cents_of. cbv zeta.
  assert (Hd : 0 < 2 ^ Z.pos p) by (apply Z.pow_pos_nonneg; lia).
  set (d := 2 ^ Z.pos p) in *. set (n := 100 * Z.pos m).
  pose proof (Z.div_mod n d ltac:(lia)) as Hdm.
  pose proof (Z.mod_pos_bound n d Hd) as Hr.
  set (q := n / d) in *. set (r := n mod d) in *.
  destruct (Z.compare_spec (2 * r) d) as [He | Hl | Hg].
  - destruct (Z.even q) eqn:Hq.
    + split; [nia | intros _; exact Hq].
    + split; [nia |]. intros _.
      rewrite Z.add_1_r, Z.even_succ, <- Z.negb_even, Hq. reflexivity.
  - split; [nia | intros E; exfalso; nia].
  - split; [nia | intros E; exfalso; nia].
Qed.

End FormatFacts.

(** ** The currency formatter *)

(** C2, as the code has it. For every amount and every symbol,
    [fmt_currency] returns the symbol (the empty string for [None])
    immediately followed by a text that depends on the amount only. For a
    finite amount that text is an optional minus sign, the integer digits in
    groups of three separated by commas, a dot and exactly two digits: it
    reads back as the sign of the amount and the amount in hundredths,
    rounded to the nearest hundredth of its exact binary value, a tie going
    to the even one. For an infinite amount the text is [inf] or [-inf], for
    NaN it is [nan]. The three examples of the specification come out as
    written, and the function is total. *)
Theorem fmt_currency_prints_amount (amount : float) (symbol : option pystr) :
  fmt_currency amount None = fmt_currency amount (Some [])
  /\ (exists body,
        fmt_currency amount symbol = or_default symbol [] ++ body
        /\ match amount with
           | S754_nan => body = lit "nan"
           | S754_infinity s => body = sign_text s ++ lit "inf"
           | S754_zero s => parse_money body = Some (s, 0)
           | S754_finite s m e =>
               exists hundredths,
                 parse_money body = Some (s, hundredths)
                 /\ match e with
                    | Zneg p =>
                        let d := 2 ^ Zpos p in
                        Z.abs (2 * (100 * Zpos m) - 2 * hundredths * d) <= d
                        /\ (Z.abs (2 * (100 * Zpos m) - 2 * hundredths * d) = d ->
                            Z.even hundredths = true)
                    | _ => hundredths = 100 * Zpos m * 2 ^ e
                    end
           end)
  /\ fmt_currency (dec_lit 12345675 10) (Some (lit "NGN ")) = lit "NGN 1,234,567.50"
  /\ fmt_currency (of_int 0) (Some Sample.pound) = Sample.pound ++ lit "0.00"
  /\ fmt_currency (SFopp (dec_lit 421 10)) (Some (lit "$")) = lit "$-42.10".
Proof.
  split; [reflexivity |].
  split; [| repeat split; vm_compute; reflexivity].
  exists (format_fixed2 true amount).
  split; [destruct symbol; reflexivity |].
  destruct amount as [s | s | | s m e].
  - destruct s; reflexivity.
  - reflexivity.
  - reflexivity.
  - exists (cents_of m e). split; [apply parse_format_finite |].
    apply cents_of_nearest_even.
Qed.

(** C2, as the specification has it, fails on the amounts that are not
    finite: an infinite amount prints as [inf], with no digits at all. *)
Lemma fmt_currency_infinity_counterexample :
  fmt_currency (S754_infinity false) (Some (lit "$")) = lit "$inf"
  /\ ~ exists body hundredths,
         fmt_currency (S754_infinity false) (Some (lit "$")) = lit "$" ++ body
         /\ parse_money body = Some hundredths.
Proof.
  split; [reflexivity |].
  intros (body & c & E & P).
  assert (Hb : body = lit "inf").
  { change (fmt_currency (S754_infinity false) (Some (lit "$")))
      with (lit "$" ++ lit "inf") in E.
    apply app_inv_head in E. now subst. }
  subst body. vm_compute in P. discriminate.
Qed.

(** C3, as the code has it. [fmt_currency] prints a finite amount rounded to
    the nearest hundredth of its exact binary value; when the value lies
    exactly halfway between two hundredths it prints the even one. *)
Theorem fmt_currency_rounds_half_even (s : bool) (m : positive) (e : Z)
    (symbol : option pystr) :
  exists hundredths,
    parse_money (format_fixed2 true (S754_finite s m e)) = Some (s, hundredths)
    /\ fmt_currency (S754_finite s m e) symbol
       = or_default symbol [] ++ format_fixed2 true (S754_finite s m e)
    /\ match e with
       | Zneg p =>
           let d := 2 ^ Zpos p in
           Z.abs (2 * (100 * Zpos m) - 2 * hundredths * d) <= d
           /\ (Z.abs (2 * (100 * Zpos m) - 2 * hundredths * d) = d ->
               Z.even hundredths = true)
       | _ => hundredths = 100 * Zpos m * 2 ^ e
       end.
Proof.
  exists (cents_of m e). split; [apply parse_format_finite |].
  split; [destruct symbol; reflexivity |].
  apply cents_of_nearest_even.
Qed.

(** C3, as the specification has it, fails: 0.125 is a double, it lies
    exactly halfway between 0.12 and 0.13, and it is printed as 0.12 where
    rounding half away from zero gives 0.13. *)
Lemma fmt_currency_half_away_counterexample :
  dec_lit 125 1000 = S754_finite false 4503599627370496 (-55)
  /\ 100 * 4503599627370496 * 2 = 25 * 2 ^ 55
  /\ fmt_currency (dec_lit 125 1000) None = lit "0.12"
  /\ half_away_cents 4503599627370496 (-55) = 13
  /\ parse_money (fmt_currency (dec_lit 125 1000) None)
     <> Some (false, half_away_cents 4503599627370496 (-55)).
Proof.
  repeat split; try (vm_compute; reflexivity).
  vm_compute. discriminate.
Qed.

(* ================================================================== *)
(** * The render: what each block of [render_pdf] yields *)
(* ================================================================== *)

Section RenderFacts.

Local Open Scope render_scope.
Local Opaque sub mul add div of_int mm fmt_currency lit.

Lemma yields_ret {A} (a : A) : yields (ret a) a [] [].
Proof. intros [cs ys]. unfold ret. cbn. now rewrite !app_nil_r. Qed.

Lemma yields_emit (c : cmd) : yields (emit c) tt [c] [].
Proof. intros [cs ys]. unfold emit. cbn. now rewrite app_nil_r. Qed.

Lemma yields_set_y (y : float) : yields (set_y y) y [] [y].
Proof. intros [cs ys]. unfold set_y. cbn. now rewrite app_nil_r. Qed.

Lemma yields_down (y d : float) : yields (down y d) (sub y d) [] [sub y d].
Proof. apply yields_set_y. Qed.

Lemma yields_bind {A B} (m : R A) (k : A -> R B) a cs1 ys1 b cs2 ys2 :
  yields m a cs1 ys1 -> yields (k a) b cs2 ys2 ->
  yields (bind m k) b (cs1 ++ cs2) (ys1 ++ ys2).
Proof.
  intros Hm Hk st. unfold bind. rewrite Hm, Hk. cbn. now rewrite !app_assoc.
Qed.

Lemma yields_conv {A} (m : R A) a cs ys cs' ys' :
  yields m a cs ys -> cs = cs' -> ys = ys' -> yields m a cs' ys'.
Proof. now intros H <- <-. Qed.

Lemma yields_try_ok {A} (m h : R A) a cs ys :
  yields m a cs ys -> yields (try_except m h) a cs ys.
Proof. intros Hm st. unfold try_except. now rewrite Hm. Qed.

Lemma yields_try_raise {A} (m h : R A) a cs ys :
  (forall st, exists e, m st = Raise e) -> yields h a cs ys ->
  yields (try_except m h) a cs ys.
Proof.
  intros Hm Hh st. unfold try_except. destruct (Hm st) as [e ->]. apply Hh.
Qed.

Lemma yields_dict_index (d : list (pystr * pystr)) (key v : pystr) :
  dict_get d key = Some v -> yields (dict_index d key) v [] [].
Proof. intros H. unfold dict_index. rewrite H. apply yields_ret. Qed.

Lemma yields_io_step : yields (io_step None) tt [] [].
Proof. apply yields_ret. Qed.

Lemma yields_drawImage (w : World) p x y wd ht pr an mk :
  image_loads w p = true ->
  yields (drawImage w p x y wd ht pr an mk) tt [DrawImage p x y wd ht pr an mk] [].
Proof. intros H. unfold drawImage. rewrite H. apply yields_emit. Qed.

Lemma drawImage_raises (w : World) p x y wd ht pr an mk :
  image_loads w p = false ->
  forall st, exists e, drawImage w p x y wd ht pr an mk st = Raise e.
Proof. intros H st. unfold drawImage. rewrite H. now eexists. Qed.

Lemma right_strings_app (a b : list cmd) :
  right_strings (a ++ b) = right_strings a ++ right_strings b.
Proof.
  induction a as [|c a IH]; [reflexivity |].
  destruct c; cbn [app right_strings]; rewrite IH; reflexivity.
Qed.

Lemma images_app (a b : list cmd) : images (a ++ b) = images a ++ images b.
Proof.
  induction a as [|c a IH]; [reflexivity |].
  destruct c; cbn [app images]; rewrite IH; reflexivity.
Qed.

Lemma last_cons {A} (a d : A) (l : list A) : last (a :: l) d = last l a.
Proof.
  revert a d; induction l as [|b l IH]; intros a d; [reflexivity |].
  change (last (a :: b :: l) d) with (last (b :: l) d).
  now rewrite (IH b d), (IH b a).
Qed.

Lemma last_walk (y gap : float) (n : nat) :
  last (walk y gap (S n)) y = last (walk (sub y gap) gap n) (sub y gap).
Proof. cbn [walk]. apply last_cons. Qed.

Lemma yields_sep x0 x1 y :
  yields (_sep x0 x1 y) tt [SetLineWidth 4; Line x0 y x1 y] [].
Proof.
  unfold _sep. eapply yields_conv;
    [eapply yields_bind; apply yields_emit | reflexivity | reflexivity].
Qed.

Lemma yields_section_title x0 y title :
  yields (_section_title x0 y title) (sub y (of_int 20))
    [SetFont (lit "Helvetica-Bold") 12; DrawString x0 y title; SetLineWidth 1;
     Line x0 (sub y (of_int 2)) (add x0 (mul (of_int 30) mm)) (sub y (of_int 2))]
    [sub y (of_int 20)].
Proof.
  unfold _section_title. eapply yields_conv;
    [repeat (eapply yields_bind; [apply yields_emit |]); apply yields_down
    | reflexivity | reflexivity].
Qed.

(** One step of symbolic execution. *)
Ltac ystep :=
  lazymatch goal with
  | |- yields (bind _ _) _ _ _ => eapply yields_bind; [ystep | cbv beta]
  | |- yields (ret _) _ _ _ => apply yields_ret
  | |- yields (emit _) _ _ _ => apply yields_emit
  | |- yields (set_y _) _ _ _ => apply yields_set_y
  | |- yields (down _ _) _ _ _ => apply yields_down
  | |- yields (io_step None) _ _ _ => apply yields_io_step
  | |- yields (_sep _ _ _) _ _ _ => apply yields_sep
  | |- yields (_section_title _ _ _) _ _ _ => apply yields_section_title
  | |- yields (dict_index _ _) _ _ _ => apply yields_dict_index; eassumption
  | |- yields _ _ _ _ => eassumption
  end.

Ltac yrun := repeat ystep.

Variable self : Exporter.
Variable w : World.

Lemma yields_line_items_loop x0 x1 (items : list LineItem) sym :
  forall y, exists cs,
    yields (line_items_loop self x0 x1 y items sym)
      (last (walk y (line_gap self) (List.length items)) y) cs
      (walk y (line_gap self) (List.length items))
    /\ right_strings cs = map (fun it => fmt_currency (amount it) sym) items
    /\ images cs = [].
Proof.
  induction items as [|it rest IH]; intros y.
  - exists []. split; [apply yields_ret | split; reflexivity].
  - destruct (IH (sub y (line_gap self))) as (cs & Hy & Hr & Hi).
    eexists. split; [| split].
    + cbn [line_items_loop List.length]. rewrite last_walk.
      eapply yields_conv; [yrun | reflexivity | reflexivity].
    + cbn [app right_strings map]. now rewrite Hr.
    + cbn [app images]. exact Hi.
Qed.

Lemma yields_line_items x0 x1 y (items : list LineItem) sym :
  exists cs,
    yields (_line_items self x0 x1 y items sym)
      (last (walk y (line_gap self) (List.length items)) y) cs
      (walk y (line_gap self) (List.length items))
    /\ right_strings cs = map (fun it => fmt_currency (amount it) sym) items
    /\ images cs = [].
Proof.
  destruct (yields_line_items_loop x0 x1 items sym y) as (cs & Hy & Hr & Hi).
  eexists. split; [| split].
  - unfold _line_items. eapply yields_conv; [yrun | reflexivity | reflexivity].
  - cbn [app right_strings]. exact Hr.
  - cbn [app images]. exact Hi.
Qed.

Lemma yields_header x0 x1 y width height l1 l2 pd logo :
  let y1 := sub y (mul (of_int 22) mm) in
  exists cs,
    yields (header_block w x0 x1 y width height l1 l2 pd logo)
      (sub y1 (mul (of_int 10) mm)) cs [y1; sub y1 (mul (of_int 10) mm)]
    /\ right_strings cs = []
    /\ images cs = (if drawn w logo then match logo with Some p => [p] | None => [] end else []).
Proof.
  intros y1. unfold header_block, drawn.
  destruct logo as [p |]; [destruct (image_loads w p) eqn:Hp |].
  - eexists. split; [| split].
    + eapply yields_conv;
        [eapply yields_bind;
           [apply yields_try_ok, yields_drawImage, Hp | cbv beta zeta; yrun]
        | reflexivity | reflexivity].
    + reflexivity.
    + reflexivity.
  - eexists. split; [| split].
    + eapply yields_conv;
        [eapply yields_bind;
           [apply yields_try_raise; [apply drawImage_raises, Hp | apply yields_ret]
           | cbv beta zeta; yrun]
        | reflexivity | reflexivity].
    + reflexivity.
    + reflexivity.
  - eexists. split; [| split].
    + eapply yields_conv;
        [eapply yields_bind; [apply yields_ret | cbv beta zeta; yrun]
        | reflexivity | reflexivity].
    + reflexivity.
    + reflexivity.
Qed.

Lemma yields_employee_info x0 x1 y employee pd :
  let gap := line_gap self in
  let y3 := sub (last (walk y gap 5) y) (mul (of_int 2) mm) in
  exists cs,
    yields (employee_info_block self x0 x1 y employee pd)
      (sub y3 (mul (of_int 12) mm)) cs
      (walk y gap 5 ++ [y3; sub y3 (mul (of_int 12) mm)])
    /\ right_strings cs = [] /\ images cs = [].
Proof.
  intros gap y3. unfold employee_info_block. cbv zeta.
  eexists. split; [| split].
  - eapply yields_conv; [cbn [info_rows_loop]; yrun | reflexivity | reflexivity].
  - reflexivity.
  - reflexivity.
Qed.

Lemma yields_items_section x0 x1 y title items sym labels key lbl total :
  dict_get labels key = Some lbl ->
  let gap := line_gap self in
  let y1 := sub y (of_int 20) in
  let rows := walk y1 gap (List.length items) in
  exists cs,
    yields (items_section self x0 x1 y title items sym labels key total)
      (sub (last rows y1) gap) cs
      ([y1] ++ rows ++ [sub (last rows y1) gap])
    /\ right_strings cs =
       map (fun it => fmt_currency (amount it) sym) items
         ++ [fmt_currency total sym]
    /\ images cs = [].
Proof.
  intros Hk gap y1 rows. unfold items_section.
  destruct (yields_line_items x0 x1 y1 items sym) as (cs & Hy & Hr & Hi).
  eexists. split; [| split].
  - eapply yields_conv; [yrun | reflexivity |].
    cbn [app]. reflexivity.
  - cbn [app right_strings]. rewrite right_strings_app, Hr. reflexivity.
  - cbn [app images]. rewrite images_app, Hi. reflexivity.
Qed.

Lemma yields_after_earnings x0 x1 y :
  let y1 := sub y (mul (of_int 6) mm) in
  yields (after_earnings x0 x1 y) (sub y1 (mul (of_int 12) mm))
    [SetLineWidth 4; Line x0 y1 x1 y1] [y1; sub y1 (mul (of_int 12) mm)].
Proof.
  intros y1. unfold after_earnings.
  eapply yields_conv; [yrun | reflexivity | reflexivity].
Qed.

Lemma yields_net_pay x0 x1 y sym labels lbl net :
  dict_get labels (lit "net_pay_label") = Some lbl ->
  let pad := mul (of_int 10) mm in
  let y1 := sub y pad in
  let y2 := sub y1 pad in
  exists cs,
    yields (net_pay_block x0 x1 y sym labels net) (sub y2 pad) cs
      [y1; y2; sub y2 pad]
    /\ right_strings cs = [fmt_currency net sym] /\ images cs = [].
Proof.
  intros Hk pad y1 y2. unfold net_pay_block. cbv zeta.
  eexists. split; [| split].
  - eapply yields_conv; [yrun | reflexivity | reflexivity].
  - reflexivity.
  - reflexivity.
Qed.

Lemma yields_footer x0 y footer_cfg signature_path :
  let name := footer_name footer_cfg in
  let y1 := sub y (mul (fst (footer_gaps footer_cfg)) mm) in
  let y2 :=
    if drawn w signature_path
    then sub (sub y1 (mul (of_int 18) mm)) (mul (snd (footer_gaps footer_cfg)) mm)
    else sub y1 (mul (snd (footer_gaps footer_cfg)) mm) in
  exists cs,
    yields (footer_block w x0 y footer_cfg signature_path)
      (if is_empty name then y2 else sub y2 (of_int 10)) cs
      ([y1; y2] ++ (if is_empty name then [] else [sub y2 (of_int 10)]))
    /\ right_strings cs = []
    /\ images cs =
       (if drawn w signature_path
        then match signature_path with Some p => [p] | None => [] end
        else []).
Proof.
  intros name y1 y2. unfold footer_block. cbv zeta.
  fold (footer_name footer_cfg). fold name.
  change (or_default (signature_gap_mm (or_default footer_cfg empty_footer_cfg)) (of_int 4))
    with (fst (footer_gaps footer_cfg)).
  change (or_default (name_gap_mm (or_default footer_cfg empty_footer_cfg)) (of_int 3))
    with (snd (footer_gaps footer_cfg)).
  fold y1.
  assert (Hsig : exists cs,
    yields
      (match signature_path with
       | Some p =>
           try_except
             (drawImage w p (sub x0 (mul (of_int 9) mm)) (sub y1 (mul (of_int 18) mm))
                (mul (of_int 45) mm) (mul (of_int 18) mm) true None (lit "auto") ;;
              ret true)
             (ret false)
       | None => ret false
       end) (drawn w signature_path) cs []
    /\ right_strings cs = []
    /\ images cs =
       (if drawn w signature_path
        then match signature_path with Some p => [p] | None => [] end
        else [])).
  { unfold drawn. destruct signature_path as [p |];
      [destruct (image_loads w p) eqn:Hp |].
    - eexists. split.
      + apply yields_try_ok.
        eapply yields_conv;
          [eapply yields_bind; [apply yields_drawImage, Hp | apply yields_ret]
          | reflexivity | reflexivity].
      + split; reflexivity.
    - exists []. split; [| split; reflexivity].
      apply yields_try_raise; [| apply yields_ret].
      intros st. unfold bind.
      destruct (drawImage_raises w p (sub x0 (mul (of_int 9) mm))
                  (sub y1 (mul (of_int 18) mm)) (mul (of_int 45) mm)
                  (mul (of_int 18) mm) true None (lit "auto") Hp st) as [e ->].
      now exists e.
    - exists []. split; [apply yields_ret | split; reflexivity]. }
  destruct Hsig as (csig & Hsig & Hrs & His).
  assert (Hy2 : yields
    (if drawn w signature_path
     then set_y (sub (sub y1 (mul (of_int 18) mm)) (mul (snd (footer_gaps footer_cfg)) mm))
     else down y1 (mul (snd (footer_gaps footer_cfg)) mm)) y2 [] [y2]).
  { unfold y2. destruct (drawn w signature_path);
      [apply yields_set_y | apply yields_down]. }
  destruct name as [|c name'] eqn:Hname; cbn [is_empty].
  - eexists. split; [| split].
    + eapply yields_conv; [yrun | reflexivity | reflexivity].
    + cbn [app right_strings]. rewrite right_strings_app, Hrs. reflexivity.
    + cbn [app images]. rewrite images_app, His. cbn [images].
      now rewrite app_nil_r.
  - eexists. split; [| split].
    + eapply yields_conv; [yrun | reflexivity | reflexivity].
    + cbn [app right_strings]. rewrite right_strings_app, Hrs. reflexivity.
    + cbn [app images]. rewrite images_app, His. cbn [images].
      now rewrite app_nil_r.
Qed.

Lemma yields_page l1 l2 pd employee earnings deductions labels logo sig sym
    cfg gen gl dl nl :
  has_labels labels gl dl nl ->
  let t := compute_totals earnings deductions in
  let ys :=
    cursor_trail self (List.length earnings) (List.length deductions)
      (fst (footer_gaps cfg)) (snd (footer_gaps cfg)) (drawn w sig)
      (negb (is_empty (footer_name cfg))) in
  exists cs,
    yields (page self w l1 l2 pd employee earnings deductions labels logo sig
              sym cfg gen) (last ys zero) cs ys
    /\ right_strings cs =
       map (fun it => fmt_currency (amount it) sym) earnings
         ++ [fmt_currency (gross t) sym]
         ++ map (fun it => fmt_currency (amount it) sym) deductions
         ++ [fmt_currency (total_deduction t) sym;
             fmt_currency (net_pay t) sym;
             lit "Generated: " ++ gen]
    /\ images cs =
       (if drawn w logo then match logo with Some p => [p] | None => [] end else [])
       ++ (if drawn w sig then match sig with Some p => [p] | None => [] end else []).
Proof.
  intros (Hg & Hd & Hn) t ys. unfold page. fold t.
  destruct (page_size self) as [width height] eqn:Hps. cbv zeta.
  set (x0 := margin self). set (x1 := sub width (margin self)).
  set (y0 := sub height (margin self)).
  destruct (yields_header x0 x1 y0 width height l1 l2 pd logo)
    as (c1 & H1 & R1 & I1).
  set (ya := sub (sub y0 (mul (of_int 22) mm)) (mul (of_int 10) mm)) in *.
  destruct (yields_employee_info x0 x1 ya employee pd) as (c2 & H2 & R2 & I2).
  set (yb := sub (sub (last (walk ya (line_gap self) 5) ya) (mul (of_int 2) mm))
               (mul (of_int 12) mm)) in *.
  destruct (yields_items_section x0 x1 yb (lit "EARNINGS:") earnings sym labels
              (lit "gross_income_label") gl (gross t) Hg) as (c3 & H3 & R3 & I3).
  set (yc := sub (last (walk (sub yb (of_int 20)) (line_gap self) (List.length earnings))
                    (sub yb (of_int 20))) (line_gap self)) in *.
  pose proof (yields_after_earnings x0 x1 yc) as H4.
  set (yd := sub (sub yc (mul (of_int 6) mm)) (mul (of_int 12) mm)) in *.
  destruct (yields_items_section x0 x1 yd (lit "DEDUCTIONS:") deductions sym labels
              (lit "total_deduction_label") dl (total_deduction t) Hd)
    as (c5 & H5 & R5 & I5).
  set (ye := sub (last (walk (sub yd (of_int 20)) (line_gap self) (List.length deductions))
                    (sub yd (of_int 20))) (line_gap self)) in *.
  destruct (yields_net_pay x0 x1 ye sym labels nl (net_pay t) Hn)
    as (c6 & H6 & R6 & I6).
  set (yf := sub (sub (sub ye (mul (of_int 10) mm)) (mul (of_int 10) mm))
               (mul (of_int 10) mm)) in *.
  destruct (yields_footer x0 yf cfg sig) as (c7 & H7 & R7 & I7).
  cbv zeta in H1, H2, H3, H4, H5, H6, H7.
  assert (Hys : ys =
    [y0] ++ ([sub y0 (mul (of_int 22) mm); ya] ++
    (walk ya (line_gap self) 5
       ++ [sub (last (walk ya (line_gap self) 5) ya) (mul (of_int 2) mm); yb]) ++
    ([sub yb (of_int 20)]
       ++ walk (sub yb (of_int 20)) (line_gap self) (List.length earnings) ++ [yc]) ++
    [sub yc (mul (of_int 6) mm); yd] ++
    ([sub yd (of_int 20)]
       ++ walk (sub yd (of_int 20)) (line_gap self) (List.length deductions) ++ [ye]) ++
    [sub ye (mul (of_int 10) mm); sub (sub ye (mul (of_int 10) mm)) (mul (of_int 10) mm); yf] ++
    ([sub yf (mul (fst (footer_gaps cfg)) mm);
      if drawn w sig
      then sub (sub (sub yf (mul (fst (footer_gaps cfg)) mm)) (mul (of_int 18) mm))
             (mul (snd (footer_gaps cfg)) mm)
      else sub (sub yf (mul (fst (footer_gaps cfg)) mm)) (mul (snd (footer_gaps cfg)) mm)]
     ++ (if is_empty (footer_name cfg) then []
         else [sub (if drawn w sig
                    then sub (sub (sub yf (mul (fst (footer_gaps cfg)) mm)) (mul (of_int 18) mm))
                           (mul (snd (footer_gaps cfg)) mm)
                    else sub (sub yf (mul (fst (footer_gaps cfg)) mm))
                           (mul (snd (footer_gaps cfg)) mm)) (of_int 10)])) ++ [] ++ [] ++ [])).
  { unfold ys, cursor_trail. rewrite Hps. cbn [snd]. cbv zeta.
    fold y0. fold ya. fold yb. fold yc. fold yd. fold ye. fold yf.
    destruct (is_empty (footer_name cfg)); cbn [negb];
      repeat rewrite <- app_assoc; cbn [app]; rewrite ?app_nil_r;
      repeat rewrite <- app_assoc; cbn [app]; reflexivity. }
  assert (Hlast : last ys zero =
    if is_empty (footer_name cfg) then
      (if drawn w sig
       then sub (sub (sub yf (mul (fst (footer_gaps cfg)) mm)) (mul (of_int 18) mm))
              (mul (snd (footer_gaps cfg)) mm)
       else sub (sub yf (mul (fst (footer_gaps cfg)) mm)) (mul (snd (footer_gaps cfg)) mm))
    else sub (if drawn w sig
              then sub (sub (sub yf (mul (fst (footer_gaps cfg)) mm)) (mul (of_int 18) mm))
                     (mul (snd (footer_gaps cfg)) mm)
              else sub (sub yf (mul (fst (footer_gaps cfg)) mm))
                     (mul (snd (footer_gaps cfg)) mm)) (of_int 10)).
  { rewrite Hys. destruct (is_empty (footer_name cfg)).
    - rewrite !app_nil_r.
      match goal with
      | |- context [[?a; ?b]] =>
          lazymatch b with
          | (if _ then _ else _) => change [a; b] with ([a] ++ [b])
          end
      end.
      rewrite !app_assoc. apply last_last.
    - match goal with
      | |- context [[?a; ?b] ++ [?c]] =>
          change ([a; b] ++ [c]) with ([a; b] ++ [c])
      end.
      rewrite !app_nil_r. rewrite !app_assoc. apply last_last. }
  eexists. split; [| split].
  - rewrite Hlast, Hys. yrun.
  - repeat (rewrite right_strings_app; cbn [right_strings]).
    rewrite R1, R2, R3, R5, R6, R7. cbn [app].
    repeat rewrite <- app_assoc. reflexivity.
  - repeat (rewrite images_app; cbn [images]).
    rewrite I1, I2, I3, I5, I6, I7. cbn [app]. now rewrite app_nil_r.
Qed.

End RenderFacts.

Section RenderPdf.

Local Open Scope render_scope.
Local Opaque sub mul add div of_int mm fmt_currency lit.

Variable self : Exporter.
Variable w : World.

Lemma render_pdf_ok out l1 l2 pd employee earnings deductions labels logo sig
    sym cfg gen gl dl nl :
  has_labels labels gl dl nl ->
  mkdir_error w (resolve w out) = None ->
  save_error w (resolve w out) = None ->
  let t := compute_totals earnings deductions in
  let ys :=
    cursor_trail self (List.length earnings) (List.length deductions)
      (fst (footer_gaps cfg)) (snd (footer_gaps cfg)) (drawn w sig)
      (negb (is_empty (footer_name cfg))) in
  exists cs,
    render_pdf self w out l1 l2 pd employee earnings deductions labels logo
      sig sym cfg gen
    = Ok (resolve w out, last ys zero,
          {| canvas := cs ++ [ShowPage; Save]; trail := ys |})
    /\ right_strings cs =
       map (fun it => fmt_currency (amount it) sym) earnings
         ++ [fmt_currency (gross t) sym]
         ++ map (fun it => fmt_currency (amount it) sym) deductions
         ++ [fmt_currency (total_deduction t) sym;
             fmt_currency (net_pay t) sym;
             lit "Generated: " ++ stamp w gen]
    /\ images cs =
       (if drawn w logo then match logo with Some p => [p] | None => [] end else [])
       ++ (if drawn w sig then match sig with Some p => [p] | None => [] end else []).
Proof.
  intros Hl Hm Hs t ys.
  destruct (yields_page self w l1 l2 pd employee earnings deductions labels
              logo sig sym cfg (stamp w gen) gl dl nl Hl) as (cs & Hp & Hr & Hi).
  exists cs. split; [| split; assumption].
  unfold render_pdf, render_pdf_R. cbv zeta. fold (stamp w gen).
  rewrite Hm, Hs.
  assert (H : yields
    (io_step None ;;
     y <- page self w l1 l2 pd employee earnings deductions labels logo sig sym
            cfg (stamp w gen) ;;
     emit ShowPage ;; io_step None ;; emit Save ;; ret (resolve w out, y))
    (resolve w out, last ys zero) (cs ++ [ShowPage; Save]) ys).
  { eapply yields_conv.
    - eapply yields_bind; [apply yields_io_step |].
      eapply yields_bind; [exact Hp |]. cbv beta.
      eapply yields_bind; [apply yields_emit |].
      eapply yields_bind; [apply yields_io_step |].
      eapply yields_bind; [apply yields_emit | apply yields_ret].
    - cbn [app]. reflexivity.
    - cbn [app]. now rewrite !app_nil_r. }
  rewrite (H empty_state). reflexivity.
Qed.

Lemma bind_cong {A B} (m1 m2 : R A) (k1 k2 : A -> R B) :
  (forall st, m1 st = m2 st) -> (forall a st, k1 a st = k2 a st) ->
  forall st, bind m1 k1 st = bind m2 k2 st.
Proof.
  intros Hm Hk st. unfold bind. rewrite Hm.
  destruct (m2 st) as [[a st'] | e]; [apply Hk | reflexivity].
Qed.

Lemma header_block_loaded x0 x1 y width height l1 l2 pd logo st :
  header_block w x0 x1 y width height l1 l2 pd logo st
  = header_block w x0 x1 y width height l1 l2 pd (loaded w logo) st.
Proof.
  unfold loaded, drawn. destruct logo as [p |]; [| reflexivity].
  destruct (image_loads w p) eqn:Hp; [reflexivity |].
  unfold header_block. cbv zeta. apply bind_cong; [| reflexivity].
  intros st'. unfold try_except, drawImage. now rewrite Hp.
Qed.

Lemma footer_block_loaded x0 y cfg sig st :
  footer_block w x0 y cfg sig st = footer_block w x0 y cfg (loaded w sig) st.
Proof.
  unfold loaded, drawn. destruct sig as [p |]; [| reflexivity].
  destruct (image_loads w p) eqn:Hp; [reflexivity |].
  unfold footer_block. cbv zeta.
  repeat (apply bind_cong; [reflexivity | intros ? ?]).
  apply bind_cong; [| reflexivity].
  intros st'. unfold try_except, bind, drawImage. now rewrite Hp.
Qed.

Lemma render_pdf_loaded out l1 l2 pd employee earnings deductions labels logo
    sig sym cfg gen :
  render_pdf self w out l1 l2 pd employee earnings deductions labels logo sig
    sym cfg gen
  = render_pdf self w out l1 l2 pd employee earnings deductions labels
      (loaded w logo) (loaded w sig) sym cfg gen.
Proof.
  unfold render_pdf, render_pdf_R. cbv zeta.
  apply bind_cong; [reflexivity | intros ? ?].
  apply bind_cong; [| reflexivity].
  intros st'. unfold page. destruct (page_size self) as [width height]. cbv zeta.
  apply bind_cong; [reflexivity | intros ? ?].
  apply bind_cong; [apply header_block_loaded | intros ? ?].
  repeat (apply bind_cong; [reflexivity | intros ? ?]).
  apply bind_cong; [apply footer_block_loaded | reflexivity].
Qed.

End RenderPdf.

(** ** Empty sections *)

(** C6. With no earnings (or no deductions) the section is its title and
    one total row: no item row is drawn, the total drawn right-aligned is
    the currency symbol followed by [0.00], and below the title the cursor
    goes down by one line gap, once. *)
Theorem empty_section_one_total_row (self : Exporter) x0 x1 y title
    (others : list LineItem) sym labels key lbl :
  dict_get labels key = Some lbl ->
  let y1 := sub y (of_int 20) in
  let section_of total :=
    items_section self x0 x1 y title [] sym labels key total in
  let drawn_cmds :=
    [ SetFont (lit "Helvetica-Bold") 12; DrawString x0 y title; SetLineWidth 1;
      Line x0 (sub y (of_int 2)) (add x0 (mul (of_int 30) mm)) (sub y (of_int 2));
      SetFont (lit "Helvetica") 11;
      SetFont (lit "Helvetica-Bold") 11;
      DrawString x0 y1 lbl;
      DrawRightString x1 y1 (or_default sym [] ++ lit "0.00") ] in
  yields (section_of (gross (compute_totals [] others)))
    (sub y1 (line_gap self)) drawn_cmds [y1; sub y1 (line_gap self)]
  /\ yields (section_of (total_deduction (compute_totals others [])))
       (sub y1 (line_gap self)) drawn_cmds [y1; sub y1 (line_gap self)].
Proof.
  intros Hk y1 section_of drawn_cmds.
  assert (Hz : forall s, fmt_currency zero s = or_default s [] ++ lit "0.00")
    by (intros [s |]; reflexivity).
  assert (H : yields (section_of zero) (sub y1 (line_gap self)) drawn_cmds
                [y1; sub y1 (line_gap self)]).
  { unfold section_of, drawn_cmds, items_section, _line_items, _section_title.
    cbn [line_items_loop]. rewrite <- Hz. fold y1.
    eapply yields_conv.
    - repeat first
        [ eapply yields_bind;
            [first [apply yields_emit | apply yields_down | apply yields_ret
                   | apply yields_dict_index; exact Hk
                   | eapply yields_bind] |]
        | apply yields_down | apply yields_emit | apply yields_ret ];
      cbv beta.
    - reflexivity.
    - reflexivity. }
  split; exact H.
Qed.

Lemma empty_section_one_total_row_witness :
  dict_get Sample.labels (lit "gross_income_label") = Some (lit "GROSS INCOME")
  /\ yields
       (items_section default_exporter (margin default_exporter) (of_int 500)
          (of_int 600) (lit "EARNINGS:") [] (Some Sample.pound) Sample.labels
          (lit "gross_income_label")
          (gross (compute_totals [] Sample.deductions)))
       (sub (sub (of_int 600) (of_int 20)) (of_int 14))
       [ SetFont (lit "Helvetica-Bold") 12;
         DrawString (margin default_exporter) (of_int 600) (lit "EARNINGS:");
         SetLineWidth 1;
         Line (margin default_exporter) (sub (of_int 600) (of_int 2))
           (add (margin default_exporter) (mul (of_int 30) mm))
           (sub (of_int 600) (of_int 2));
         SetFont (lit "Helvetica") 11;
         SetFont (lit "Helvetica-Bold") 11;
         DrawString (margin default_exporter) (sub (of_int 600) (of_int 20))
           (lit "GROSS INCOME");
         DrawRightString (of_int 500) (sub (of_int 600) (of_int 20))
           (Sample.pound ++ lit "0.00") ]
       [sub (of_int 600) (of_int 20);
        sub (sub (of_int 600) (of_int 20)) (of_int 14)].
Proof.
  split; [reflexivity |].
  exact (proj1
    (empty_section_one_total_row default_exporter (margin default_exporter)
       (of_int 500) (of_int 600) (lit "EARNINGS:") Sample.deductions
       (Some Sample.pound) Sample.labels (lit "gross_income_label")
       (lit "GROSS INCOME") eq_refl)).
Defined.

(** ** The footer without a signature *)

(** C5, as the code has it. Without a signature path the footer draws the
    approver label at the cursor, lowers the cursor by the signature gap and
    then by the name gap (both in millimetres), and draws the approver name,
    when there is one, there: the height of the image is the only thing
    skipped. No image is drawn, and nothing is raised as long as the
    positions drawn at are finite numbers: the left margin, the cursor the
    footer starts from and the position of the name. (A gap that is NaN or
    infinite puts the name at a position reportlab refuses.) *)
Theorem footer_without_signature (w : World) x0 y (footer_cfg : option FooterCfg) :
  let name := footer_name footer_cfg in
  let y1 := sub y (mul (fst (footer_gaps footer_cfg)) mm) in
  let y2 := sub y1 (mul (snd (footer_gaps footer_cfg)) mm) in
  is_finite x0 = true -> is_finite y = true -> is_finite y2 = true ->
  yields (footer_block w x0 y footer_cfg None)
    (if is_empty name then y2 else sub y2 (of_int 10))
    ([ SetFont (lit "Helvetica-Bold") 11; DrawString x0 y (footer_label footer_cfg) ]
       ++ (if is_empty name then []
           else [ SetFont (lit "Helvetica-Bold") 11; DrawString x0 y2 name ]))
    ([y1; y2] ++ (if is_empty name then [] else [sub y2 (of_int 10)])).
Proof.
  intros name y1 y2 _ _ _. unfold footer_block. cbv zeta.
  fold (footer_name footer_cfg). fold name. fold (footer_label footer_cfg).
  change (or_default (signature_gap_mm (or_default footer_cfg empty_footer_cfg)) (of_int 4))
    with (fst (footer_gaps footer_cfg)).
  change (or_default (name_gap_mm (or_default footer_cfg empty_footer_cfg)) (of_int 3))
    with (snd (footer_gaps footer_cfg)).
  fold y1.
  destruct name as [|c name']; cbn [is_empty].
  - eapply yields_conv.
    + repeat (eapply yields_bind;
                [first [apply yields_emit | apply yields_down | apply yields_ret] |];
              cbv beta iota).
      apply yields_ret.
    + reflexivity.
    + reflexivity.
  - eapply yields_conv.
    + repeat (eapply yields_bind;
                [first [apply yields_emit | apply yields_down | apply yields_ret] |];
              cbv beta iota).
      apply yields_down.
    + reflexivity.
    + reflexivity.
Qed.

Lemma footer_without_signature_witness :
  let x0 := margin default_exporter in
  let y := of_int 300 in
  let y2 := sub (sub y (mul (of_int 4) mm)) (mul (of_int 3) mm) in
  is_finite x0 = true /\ is_finite y = true /\ is_finite y2 = true
  /\ yields (footer_block Sample.world x0 y (Some Sample.footer) None)
       (sub y2 (of_int 10))
       [ SetFont (lit "Helvetica-Bold") 11; DrawString x0 y (lit "Approved By:");
         SetFont (lit "Helvetica-Bold") 11; DrawString x0 y2 (lit "A. Manager") ]
       [sub y (mul (of_int 4) mm); y2; sub y2 (of_int 10)].
Proof.
  cbv zeta. repeat (split; [vm_compute; reflexivity |]).
  exact (footer_without_signature Sample.world (margin default_exporter)
           (of_int 300) (Some Sample.footer) eq_refl eq_refl eq_refl).
Defined.

(** C5, as the specification has it, fails: with the default gaps of 4 mm
    and 3 mm the approver name is drawn 7 mm below the label, not 3 mm. *)
Lemma footer_name_gap_only_counterexample :
  let x0 := margin default_exporter in
  let y := of_int 300 in
  let name_gap := mul (snd (footer_gaps (Some Sample.footer))) mm in
  exists name_y y_end trail_,
    footer_block Sample.world x0 y (Some Sample.footer) None empty_state
    = Ok (y_end,
          {| canvas :=
               [ SetFont (lit "Helvetica-Bold") 11;
                 DrawString x0 y (lit "Approved By:");
                 SetFont (lit "Helvetica-Bold") 11;
                 DrawString x0 name_y (lit "A. Manager") ];
             trail := trail_ |})
    /\ sub y name_y <> name_gap
    /\ name_y <> sub y name_gap
    /\ name_y = sub (sub y (mul (of_int 4) mm)) (mul (of_int 3) mm).
Proof.
  cbv zeta. eexists; eexists; eexists.
  split; [vm_compute; reflexivity |].
  split; [| split]; vm_compute; try discriminate; reflexivity.
Qed.

(** ** Images that fail to load *)



(* ================================================================== *)
(** * The batch: validation, the employee loop and the manifest *)
(* ================================================================== *)

Section BatchFacts.

Import Main.

Lemma is_prefix_app (p s : pystr) : is_prefix p (p ++ s) = true.
Proof.
  induction p as [|c p IH]; [reflexivity |].
  cbn [app is_prefix]. now rewrite N.eqb_refl, IH.
Qed.

Lemma contains_unfold (n s : pystr) :
  contains n s =
  is_prefix n s || match s with [] => false | _ :: r => contains n r end.
Proof. destruct s; reflexivity. Qed.

Lemma contains_app (n a s : pystr) : contains n (a ++ n ++ s) = true.
Proof.
  induction a as [|c a IH].
  - cbn [app]. rewrite contains_unfold, is_prefix_app. reflexivity.
  - cbn [app]. rewrite contains_unfold, IH. apply orb_true_r.
Qed.

Variable env : Env.
Variable settings : Settings.

Lemma employees_loop_rows (employees : list EmployeeRow) :
  fail_fast settings = false ->
  forall acc,
    let out :=
      employees_loop env settings default_exporter (logo_path_of env settings)
        (signature_path_of env settings)
        (with_default_labels (totals_labels_cfg settings)) employees acc in
    manifest_rows out = manifest_rows acc ++ map (row_of env settings) employees
    /\ raised out = raised acc
    /\ manifest_written out = manifest_written acc.
Proof.
  intros Hff. induction employees as [|emp rest IH]; intros acc.
  - cbn. now rewrite app_nil_r.
  - cbn [employees_loop map]. unfold row_of at 1, render_employee.
    destruct (render_for env settings default_exporter (logo_path_of env settings)
                (signature_path_of env settings)
                (with_default_labels (totals_labels_cfg settings)) emp)
      as [[[path y] st] | e].
    + destruct (IH {| manifest_rows := manifest_rows acc ++ [generated_row env settings emp];
                      pdf_paths := pdf_paths acc ++ [out_pdf_of env emp];
                      files := files acc ++ [(resolve (world env) (out_pdf_of env emp), canvas st)];
                      manifest_written := manifest_written acc;
                      raised := raised acc |}) as (H1 & H2 & H3).
      cbv zeta in *. rewrite H1, H2, H3. cbn [manifest_rows raised manifest_written].
      now rewrite <- app_assoc.
    + rewrite Hff.
      destruct (IH {| manifest_rows := manifest_rows acc ++ [error_row env emp e];
                      pdf_paths := pdf_paths acc;
                      files := files acc;
                      manifest_written := manifest_written acc;
                      raised := raised acc |}) as (H1 & H2 & H3).
      cbv zeta in *. rewrite H1, H2, H3. cbn [manifest_rows raised manifest_written].
      now rewrite <- app_assoc.
Qed.

End BatchFacts.

(** C8, as the code has it. When the logo file is absent, the validation
    that [main] runs before it loads or renders anything raises
    [FileNotFoundError] with a message that contains the path of the missing
    file; the run stops there, with or without fail-fast: no employee is
    rendered, no PDF is written, and no manifest row is recorded. *)
Theorem missing_logo_aborts_run (env : Main.Env) (settings : Main.Settings) :
  let fs := Main.fs env in
  let p := AssetValidation.fs_resolve fs (Main.logo_path_of env settings) in
  let msg := lit "Missing required asset '" ++ lit "logo" ++ lit "': " ++ p in
  AssetValidation.fs_exists fs p = false ->
  Main.main env settings
  = Main.aborted (Main.ValidationFailed (AssetValidation.FileNotFoundError msg))
  /\ contains p msg = true
  /\ Main.manifest_rows (Main.main env settings) = []
  /\ Main.files (Main.main env settings) = []
  /\ Main.pdf_paths (Main.main env settings) = []
  /\ Main.manifest_written (Main.main env settings) = false.
Proof.
  intros fs p msg He.
  assert (Hm : Main.main env settings
               = Main.aborted (Main.ValidationFailed (AssetValidation.FileNotFoundError msg))).
  { unfold Main.main, Main.validate, AssetValidation.validate_branding_assets,
      AssetValidation.validate_asset.
    cbn [AssetValidation.path AssetValidation.label].
    fold fs. fold p. rewrite He. reflexivity. }
  split; [exact Hm |]. split.
  - unfold msg. rewrite !app_assoc.
    rewrite <- (app_nil_r p) at 2. apply contains_app.
  - rewrite Hm. repeat split; reflexivity.
Qed.

Lemma missing_logo_aborts_run_witness :
  AssetValidation.fs_exists (Main.fs SampleRun.env_no_logo)
    (AssetValidation.fs_resolve (Main.fs SampleRun.env_no_logo)
       (Main.logo_path_of SampleRun.env_no_logo SampleRun.fail_fast_settings))
  = false
  /\ Main.main SampleRun.env_no_logo SampleRun.fail_fast_settings
     = Main.aborted
         (Main.ValidationFailed
            (AssetValidation.FileNotFoundError
               (lit "Missing required asset 'logo': /srv/payslips/assets/logo.png"))).
Proof.
  split; [reflexivity |].
  exact (proj1
    (missing_logo_aborts_run SampleRun.env_no_logo SampleRun.fail_fast_settings
       eq_refl)).
Defined.

(** C8, as the specification has it, fails: with the logo missing the run
    of two employees records no manifest row at all, so no employee has a
    row with an error that names the missing file. *)
Lemma missing_logo_no_manifest_row_counterexample :
  let env := SampleRun.env_no_logo in
  let settings := SampleRun.settings in
  let logo := Main.logo_path_of env settings in
  AssetValidation.fs_exists (Main.fs env) logo = false
  /\ Main.load_result env = inr [SampleRun.ada; SampleRun.ben]
  /\ Main.manifest_rows (Main.main env settings) = []
  /\ ~ (forall emp, In emp [SampleRun.ada; SampleRun.ben] ->
        exists row,
          In row (Main.manifest_rows (Main.main env settings))
          /\ Main.row_employee_ref row = Main.ref emp
          /\ contains logo (Main.row_status row) = true).
Proof.
  cbv zeta.
  assert (Hr : Main.manifest_rows (Main.main SampleRun.env_no_logo SampleRun.settings) = [])
    by (vm_compute; reflexivity).
  repeat split; try (vm_compute; reflexivity).
  intros H. destruct (H SampleRun.ada (or_introl eq_refl)) as (row & Hin & _).
  rewrite Hr in Hin. exact Hin.
Qed.

(* ================================================================== *)
(** * Binary64 arithmetic: rounding, order and subtraction *)
(* ================================================================== *)

Section Digits.

(** The number of binary digits of a positive number. *)
Lemma digits2_size (p : positive) : digits2_pos p = Pos.size p.
Proof. induction p as [p IH | p IH |]; cbn; now rewrite ?IH. Qed.

Lemma digits_bounds (p : positive) :
  2 ^ (Zpos (digits2_pos p) - 1) <= Zpos p < 2 ^ Zpos (digits2_pos p).
Proof.
  rewrite digits2_size. split.
  - pose proof (Pos.size_le p) as H.
    assert (E : 2 ^ Zpos (Pos.size p) = 2 * 2 ^ (Zpos (Pos.size p) - 1)).
    { rewrite <- Z.pow_succ_r by lia. f_equal. lia. }
    assert (H' : 2 ^ Zpos (Pos.size p) <= 2 * Zpos p).
    { rewrite <- Pos2Z.inj_pow. change (2 * Z.pos p) with (Z.pos p~0).
      now apply Pos2Z.pos_le_pos. }
    lia.
  - pose proof (Pos.size_gt p) as H.
    rewrite <- Pos2Z.inj_pow. now apply Pos2Z.pos_lt_pos.
Qed.

Lemma digits_unique (p : positive) (k : Z) :
  2 ^ (k - 1) <= Zpos p < 2 ^ k -> Zpos (digits2_pos p) = k.
Proof.
  intros [Hl Hu]. pose proof (digits_bounds p) as [Dl Du].
  set (d := Zpos (digits2_pos p)) in *.
  assert (0 < k).
  { destruct (Z.ltb_spec 0 k); [assumption |].
    rewrite Z.pow_neg_r in Hu by lia + (destruct (Z.eq_dec k 0); subst; cbn in Hu; lia).
    lia. }
  destruct (Z.lt_trichotomy d k) as [Hlt | [Heq | Hgt]]; [| assumption |].
  - assert (2 ^ d <= 2 ^ (k - 1)) by (apply Z.pow_le_mono_r; lia). lia.
  - assert (2 ^ k <= 2 ^ (d - 1)) by (apply Z.pow_le_mono_r; lia). lia.
Qed.

Lemma pow2_pos (k : Z) : 0 <= k -> 0 < 2 ^ k.
Proof. intros. apply Z.pow_pos_nonneg; lia. Qed.

(** Shifting a mantissa to the left. *)
Lemma iter_xO (m d : positive) : Zpos (Pos.iter xO m d) = Zpos m * 2 ^ Zpos d.
Proof.
  induction d as [|d IH] using Pos.peano_ind.
  - cbn. lia.
  - rewrite Pos.iter_succ, Pos2Z.inj_xO, IH, Pos2Z.inj_succ, Z.pow_succ_r by lia.
    lia.
Qed.

Lemma shl_align_value (m : positive) (e e' : Z) :
  e' <= e ->
  shl_align m e e' = (fst (shl_align m e e'), e')
  /\ Zpos (fst (shl_align m e e')) = Zpos m * 2 ^ (e - e').
Proof.
  intros H. unfold shl_align.
  destruct (e' - e) as [|d|d] eqn:E; try lia.
  - assert (e' = e) by lia. subst. rewrite Z.sub_diag. cbn. split; [reflexivity | lia].
  - cbn [fst]. split; [reflexivity |]. rewrite iter_xO. f_equal. f_equal. lia.
Qed.

(** Shifting a mantissa to the right keeps [shr_inv]. *)
Lemma shr_1_inv (m0 k : Z) (mrs : shr_record) :
  0 <= m0 -> 0 <= k -> shr_inv m0 k mrs -> shr_inv m0 (k + 1) (shr_1 mrs).
Proof.
  intros Hm Hk [Hq Hx].
  assert (Hp : 0 < 2 ^ k) by now apply pow2_pos.
  assert (Hq0 : 0 <= m0 / 2 ^ k) by (apply Z.div_pos; lia).
  assert (E : 2 ^ (k + 1) = 2 ^ k * 2) by (rewrite Z.pow_add_r by lia; reflexivity).
  assert (Hdiv : m0 / 2 ^ (k + 1) = m0 / 2 ^ k / 2)
    by (rewrite E, Z.div_div by lia; reflexivity).
  assert (Hmod : m0 mod 2 ^ (k + 1) = 0 ->
                 m0 mod 2 ^ k = 0 /\ (m0 / 2 ^ k) mod 2 = 0).
  { rewrite E. intros H0. rewrite Z.rem_mul_r in H0 by lia.
    pose proof (Z.mod_pos_bound m0 (2 ^ k) Hp).
    pose proof (Z.mod_pos_bound (m0 / 2 ^ k) 2 ltac:(lia)). nia. }
  destruct mrs as [m r s]. cbn [shr_m shr_r shr_s] in *.
  unfold shr_inv. rewrite Hdiv, <- Hq.
  destruct m as [|[p|p|]|p]; cbn [shr_1 shr_m shr_r shr_s]; try lia.
  - split; [reflexivity |]. intros H0. destruct (Hmod H0) as [Ha _].
    destruct (Hx Ha) as [-> ->]. split; reflexivity.
  - split; [rewrite Pos2Z.inj_xI; Z.div_mod_to_equations; lia |].
    intros H0. destruct (Hmod H0) as [_ Hb]. rewrite <- Hq, Pos2Z.inj_xI in Hb.
    Z.div_mod_to_equations; lia.
  - split; [rewrite Pos2Z.inj_xO; Z.div_mod_to_equations; lia |].
    intros H0. destruct (Hmod H0) as [Ha _].
    destruct (Hx Ha) as [-> ->]. split; reflexivity.
  - split; [reflexivity |].
    intros H0. destruct (Hmod H0) as [_ Hb]. rewrite <- Hq in Hb. discriminate.
Qed.

Lemma iter_shr_1_inv (p : positive) :
  forall m0 k mrs, 0 <= m0 -> 0 <= k -> shr_inv m0 k mrs ->
    shr_inv m0 (k + Zpos p) (iter_pos shr_1 p mrs).
Proof.
  induction p as [p IH | p IH |]; intros m0 k mrs Hm Hk H; cbn [iter_pos].
  - replace (k + Z.pos p~1) with (((k + 1) + Z.pos p) + Z.pos p) by lia.
    apply IH; [assumption | lia |]. apply IH; [assumption | lia |].
    now apply shr_1_inv.
  - replace (k + Z.pos p~0) with ((k + Z.pos p) + Z.pos p) by lia.
    apply IH; [assumption | lia |]. now apply IH.
  - now apply shr_1_inv.
Qed.

Lemma shr_spec (m e n : Z) :
  0 <= m ->
  exists mrs,
    shr (Build_shr_record m false false) e n = (mrs, e + Z.max 0 n)
    /\ shr_m mrs = m / 2 ^ Z.max 0 n
    /\ (m mod 2 ^ Z.max 0 n = 0 -> loc_of_shr_record mrs = loc_Exact).
Proof.
  intros Hm. unfold shr.
  assert (H0 : shr_inv m 0 (Build_shr_record m false false)).
  { split; cbn; [now rewrite Z.div_1_r | intros _; split; reflexivity]. }
  destruct n as [|p|p].
  - change (Z.max 0 0) with 0. rewrite Z.pow_0_r, Z.div_1_r, Z.add_0_r.
    eexists. split; [reflexivity |]. split; [reflexivity |]. intros _; reflexivity.
  - replace (Z.max 0 (Z.pos p)) with (Z.pos p) by lia.
    destruct (iter_shr_1_inv p m 0 _ Hm ltac:(lia) H0) as [Hq Hx].
    rewrite Z.add_0_l in *.
    eexists. split; [reflexivity |]. split; [exact Hq |].
    intros Hz. destruct (Hx Hz) as [Hr Hs].
    destruct (iter_pos shr_1 p _) as [m' r s]. cbn in Hr, Hs. subst. reflexivity.
  - replace (Z.max 0 (Z.neg p)) with 0 by lia.
    rewrite Z.pow_0_r, Z.div_1_r, Z.add_0_r.
    eexists. split; [reflexivity |]. split; [reflexivity |]. intros _; reflexivity.
Qed.

Lemma round_nearest_even_bounds (q : Z) (l : location) :
  let m1 := round_nearest_even q l in
  (m1 = q \/ m1 = q + 1) /\ (l = loc_Exact -> m1 = q).
Proof.
  cbv zeta. destruct l as [|[| |]]; cbn [round_nearest_even];
    try destruct (Z.even q); (split; [auto | intros; congruence]).
Qed.

End Digits.

Section Rounding.

Local Abbreviation fexp := (SpecFloat.fexp prec emax).
Local Abbreviation canonical := (canonical_mantissa prec emax).

Lemma fexp_eq (e : Z) : fexp e = Z.max (e - 53) (-1074).
Proof. reflexivity. Qed.

Lemma canonical_iff (m : positive) (e : Z) :
  canonical m e = true <-> fexp (Zpos (digits2_pos m) + e) = e.
Proof. unfold canonical_mantissa. apply Z.eqb_eq. Qed.

Lemma bounded_iff (m : positive) (e : Z) :
  bounded prec emax m e = true <-> canonical m e = true /\ e <= 971.
Proof.
  unfold bounded. rewrite andb_true_iff, Z.leb_le. reflexivity.
Qed.

Lemma shr_fexp_spec (m e : Z) :
  0 <= m ->
  let n := Z.max 0 (fexp (Zdigits2 m + e) - e) in
  exists mrs,
    shr_fexp prec emax m e loc_Exact = (mrs, e + n)
    /\ shr_m mrs = m / 2 ^ n
    /\ (m mod 2 ^ n = 0 -> loc_of_shr_record mrs = loc_Exact).
Proof.
  intros Hm n. unfold shr_fexp. cbn [shr_record_of_loc]. now apply shr_spec.
Qed.

(** The mantissa kept by the first shift of [binary_round_aux]. *)
Lemma first_shift_bounds (m : positive) (e : Z) :
  let e1 := fexp (Zpos (digits2_pos m) + e) in
  e <= e1 ->
  let q := Zpos m / 2 ^ (e1 - e) in
  0 <= q
  /\ ((e1 = -1074 /\ q < 2 ^ 52) \/ (2 ^ 52 <= q < 2 ^ 53)).
Proof.
  intros e1 He q. subst q e1.
  pose proof (digits_bounds m) as [Dl Du].
  set (d := Zpos (digits2_pos m)) in *.
  assert (Hd : 0 < d) by (unfold d; lia).
  rewrite fexp_eq in *.
  assert (Hn : 0 <= Z.max (d + e - 53) (-1074) - e) by lia.
  assert (Hp : 0 < 2 ^ (Z.max (d + e - 53) (-1074) - e)) by now apply pow2_pos.
  split; [apply Z.div_pos; lia |].
  destruct (Z.max_spec (d + e - 53) (-1074)) as [[Hc Hmax] | [Hc Hmax]];
    rewrite Hmax in *.
  - left. split; [reflexivity |].
    apply Z.div_lt_upper_bound; [lia |].
    rewrite <- Z.pow_add_r by lia.
    assert (2 ^ d <= 2 ^ (-1074 - e + 52)) by (apply Z.pow_le_mono_r; lia).
    lia.
  - right. replace (d + e - 53 - e) with (d - 53) in * by lia. split.
    + apply Z.div_le_lower_bound; [lia |].
      rewrite <- Z.pow_add_r by lia. replace (d - 53 + 52) with (d - 1) by lia.
      exact Dl.
    + apply Z.div_lt_upper_bound; [lia |].
      rewrite <- Z.pow_add_r by lia. replace (d - 53 + 53) with d by lia.
      exact Du.
Qed.

(** The second shift of [binary_round_aux]: it renormalises a mantissa
    that rounding has carried to [2^53]. *)
Lemma second_shift (m1 e1 : Z) :
  -1074 <= e1 -> 0 < m1 ->
  ((e1 = -1074 /\ m1 <= 2 ^ 52) \/ (2 ^ 52 <= m1 <= 2 ^ 53)) ->
  exists mrs m2 e2,
    shr_fexp prec emax m1 e1 loc_Exact = (mrs, e2)
    /\ shr_m mrs = Zpos m2
    /\ canonical m2 e2 = true
    /\ e1 <= e2
    /\ Zpos m2 * 2 ^ (e2 - e1) = m1.
Proof.
  intros He Hm Hc.
  destruct m1 as [|p1|p1]; try lia.
  pose proof (digits_bounds p1) as [Dl Du].
  destruct (shr_fexp_spec (Zpos p1) e1 ltac:(lia)) as (mrs & E & Hq & _).
  cbv zeta in E, Hq. cbn [Zdigits2] in E, Hq.
  set (d1 := Zpos (digits2_pos p1)) in *.
  assert (Hcases : (Z.pos p1 < 2 ^ 53 /\ fexp (d1 + e1) = e1)
                   \/ (Z.pos p1 = 2 ^ 53 /\ d1 = 54)).
  { destruct (Z.eq_dec (Z.pos p1) (2 ^ 53)) as [E53 | N53].
    - right. split; [assumption |]. unfold d1. apply digits_unique.
      rewrite E53. cbn. lia.
    - left. split; [lia |]. rewrite fexp_eq.
      destruct Hc as [[-> Hle] | [Hge Hle]].
      + assert (d1 <= 53).
        { destruct (Z.leb_spec d1 53); [assumption |].
          assert (2 ^ 53 <= 2 ^ (d1 - 1)) by (apply Z.pow_le_mono_r; lia).
          assert (2 ^ 52 < 2 ^ 53) by (cbn; lia). lia. }
        lia.
      + assert (d1 = 53) by (unfold d1; apply digits_unique; cbn; cbn in Hge; lia).
        lia. }
  destruct Hcases as [[Hlt Hf] | [E53 Hd]].
  - rewrite Hf, Z.sub_diag in E, Hq. change (Z.max 0 0) with 0 in E, Hq.
    rewrite Z.add_0_r in E. rewrite Z.pow_0_r, Z.div_1_r in Hq.
    exists mrs, p1, e1. repeat split; try assumption; try lia.
    + now apply canonical_iff.
    + rewrite Z.sub_diag. cbn. lia.
  - rewrite Hd, fexp_eq in E, Hq.
    replace (Z.max 0 (Z.max (54 + e1 - 53) (-1074) - e1)) with 1 in E, Hq by lia.
    rewrite E53 in Hq. change (2 ^ 53 / 2 ^ 1) with (Zpos (2 ^ 52)) in Hq.
    exists mrs, (2 ^ 52)%positive, (e1 + 1). repeat split; try assumption; try lia.
    + apply canonical_iff. rewrite fexp_eq.
      change (Zpos (digits2_pos (2 ^ 52))) with 53. lia.
    + replace (e1 + 1 - e1) with 1 by lia. rewrite E53. reflexivity.
Qed.

(** What [binary_round_aux] returns on a mantissa [m] and an exponent [e]
    that is not above the exponent of the format at that magnitude: the
    quotient of [m] by the power of two in between, or the next integer when
    the division is not exact, in canonical form; zero when that is zero,
    an infinity when the exponent is out of range. *)
Lemma binary_round_aux_spec (s : bool) (m : positive) (e : Z) :
  let e1 := fexp (Zpos (digits2_pos m) + e) in
  e <= e1 ->
  let q := Zpos m / 2 ^ (e1 - e) in
  exists m1,
    (m1 = q \/ (m1 = q + 1 /\ Zpos m mod 2 ^ (e1 - e) <> 0))
    /\ ((m1 = 0 /\ binary_round_aux prec emax s (Zpos m) e loc_Exact = S754_zero s)
        \/ exists m2 e2,
             canonical m2 e2 = true /\ e1 <= e2
             /\ Zpos m2 * 2 ^ (e2 - e1) = m1
             /\ binary_round_aux prec emax s (Zpos m) e loc_Exact
                = if e2 <=? 971 then S754_finite s m2 e2 else S754_infinity s).
Proof.
  intros e1 He q.
  destruct (first_shift_bounds m e He) as [Hq0 Hqb].
  change (0 <= q) in Hq0.
  change ((e1 = -1074 /\ q < 2 ^ 52) \/ (2 ^ 52 <= q < 2 ^ 53)) in Hqb.
  destruct (shr_fexp_spec (Zpos m) e ltac:(lia)) as (mrs & E & Hq & Hx).
  cbv zeta in E, Hq, Hx. cbn [Zdigits2] in E, Hq, Hx. fold e1 in E, Hq, Hx.
  replace (Z.max 0 (e1 - e)) with (e1 - e) in E, Hq, Hx by lia.
  replace (e + (e1 - e)) with e1 in E by lia. fold q in Hq.
  unfold binary_round_aux. rewrite E. rewrite Hq.
  destruct (round_nearest_even_bounds q (loc_of_shr_record mrs)) as [Hm1 Hex].
  cbv zeta in Hm1, Hex.
  set (m1 := round_nearest_even q (loc_of_shr_record mrs)) in *.
  assert (He1 : -1074 <= e1) by (unfold e1; rewrite fexp_eq; lia).
  exists m1. split.
  { destruct Hm1 as [-> | ->]; [now left |].
    destruct (Z.eq_dec (Zpos m mod 2 ^ (e1 - e)) 0) as [Hz | Hnz].
    - specialize (Hex (Hx Hz)). lia.
    - right. now split. }
  destruct (Z.eq_dec m1 0) as [Hz | Hnz].
  - left. split; [assumption |]. rewrite Hz.
    destruct (shr_fexp_spec 0 e1 ltac:(lia)) as (mrs2 & E2 & Hq2 & _).
    cbv zeta in E2, Hq2. rewrite E2. rewrite Z.div_0_l in Hq2
      by (apply Z.pow_nonzero; lia). now rewrite Hq2.
  - right.
    assert (Hpos : 0 < m1) by (destruct Hm1; lia).
    assert (Hb : (e1 = -1074 /\ m1 <= 2 ^ 52) \/ (2 ^ 52 <= m1 <= 2 ^ 53)).
    { destruct Hqb as [[Ha Hb] | [Ha Hb]]; [left | right]; destruct Hm1; lia. }
    destruct (second_shift m1 e1 He1 Hpos Hb) as (mrs2 & m2 & e2 & E2 & Hm2 & Hc & Hle & Hv).
    exists m2, e2. rewrite E2, Hm2. repeat split; assumption.
Qed.

(** ** Values on a common scale

    [m * 2 ^ (e - b)] is the value of the pair [(m, e)] in units of [2^b],
    for any [b] that is not above [e]. *)

Lemma pow2_split (b e1 e2 : Z) :
  b <= e1 -> e1 <= e2 -> 2 ^ (e2 - b) = 2 ^ (e2 - e1) * 2 ^ (e1 - b).
Proof.
  intros H1 H2. rewrite <- Z.pow_add_r by lia. f_equal. lia.
Qed.

Lemma magnitude_le (b : Z) (m : positive) (e : Z) (m' : positive) (e' : Z) :
  b <= e -> b <= e' ->
  Zpos m * 2 ^ (e - b) <= Zpos m' * 2 ^ (e' - b) ->
  Zpos (digits2_pos m) + e <= Zpos (digits2_pos m') + e'.
Proof.
  intros Hb Hb' H.
  pose proof (digits_bounds m) as [Dl _].
  pose proof (digits_bounds m') as [_ Du'].
  set (d := Zpos (digits2_pos m)) in *. set (d' := Zpos (digits2_pos m')) in *.
  assert (Hd : 0 < d) by (unfold d; lia).
  assert (Hd' : 0 < d') by (unfold d'; lia).
  destruct (Z.leb_spec (d + e) (d' + e')) as [Hle | Hgt]; [assumption | exfalso].
  assert (P1 : 0 < 2 ^ (e - b)) by (apply pow2_pos; lia).
  assert (P2 : 0 < 2 ^ (e' - b)) by (apply pow2_pos; lia).
  assert (H1 : Zpos m' * 2 ^ (e' - b) < 2 ^ d' * 2 ^ (e' - b)) by nia.
  rewrite <- Z.pow_add_r in H1 by lia.
  assert (H2 : 2 ^ (d - 1) * 2 ^ (e - b) <= Zpos m * 2 ^ (e - b)) by nia.
  rewrite <- Z.pow_add_r in H2 by lia.
  assert (H3 : 2 ^ (d' + (e' - b)) <= 2 ^ (d - 1 + (e - b)))
    by (apply Z.pow_le_mono_r; lia).
  lia.
Qed.

Lemma fexp_mono (a b : Z) : a <= b -> fexp a <= fexp b.
Proof. intros H. rewrite !fexp_eq. lia. Qed.

(** On canonical pairs the order of the values is the order of the
    exponents, then of the mantissas. *)
Lemma canonical_order (b : Z) (m1 : positive) (e1 : Z) (m2 : positive) (e2 : Z) :
  canonical m1 e1 = true -> canonical m2 e2 = true ->
  b <= e1 -> b <= e2 ->
  Zpos m1 * 2 ^ (e1 - b) <= Zpos m2 * 2 ^ (e2 - b) ->
  e1 < e2 \/ (e1 = e2 /\ (m1 <= m2)%positive).
Proof.
  intros C1 C2 Hb1 Hb2 H.
  apply canonical_iff in C1. apply canonical_iff in C2.
  pose proof (magnitude_le b m1 e1 m2 e2 Hb1 Hb2 H) as Hmag.
  apply fexp_mono in Hmag. rewrite C1, C2 in Hmag.
  destruct (Z.eq_dec e1 e2) as [-> | Hne]; [right | left; lia].
  split; [reflexivity |].
  assert (P : 0 < 2 ^ (e2 - b)) by (apply pow2_pos; lia).
  apply Pos2Z.pos_le_pos. nia.
Qed.

Lemma digits_shift (m : positive) (k : Z) (mz : positive) :
  0 <= k -> Zpos mz = Zpos m * 2 ^ k ->
  Zpos (digits2_pos mz) = Zpos (digits2_pos m) + k.
Proof.
  intros Hk E. apply digits_unique. rewrite E.
  pose proof (digits_bounds m) as [Dl Du].
  assert (0 < Zpos (digits2_pos m)) by lia.
  assert (P : 0 < 2 ^ k) by now apply pow2_pos.
  replace (Zpos (digits2_pos m) + k - 1) with (Zpos (digits2_pos m) - 1 + k) by lia.
  rewrite !Z.pow_add_r by lia. nia.
Qed.

(** What [binary_round] returns, on the scale of [2^b]: the value [V] of
    its argument is divided by the unit [U] of the format at that
    magnitude; the result is the quotient, or the next integer when the
    division is not exact, times [U]. *)
Lemma binary_round_spec (b : Z) (s : bool) (m : positive) (e : Z) :
  b <= e -> b <= -1074 ->
  let V := Zpos m * 2 ^ (e - b) in
  let e1 := fexp (Zpos (digits2_pos m) + e) in
  let U := 2 ^ (e1 - b) in
  exists m1,
    (m1 = V / U \/ (m1 = V / U + 1 /\ V mod U <> 0))
    /\ ((m1 = 0 /\ binary_round prec emax s m e = S754_zero s)
        \/ exists m2 e2,
             canonical m2 e2 = true /\ e1 <= e2
             /\ Zpos m2 * 2 ^ (e2 - b) = m1 * U
             /\ binary_round prec emax s m e
                = if e2 <=? 971 then S754_finite s m2 e2 else S754_infinity s).
Proof.
  intros Hb Hb' V e1 U.
  assert (He1 : -1074 <= e1) by (unfold e1; rewrite fexp_eq; lia).
  assert (HU : 0 < U) by (apply pow2_pos; lia).
  unfold binary_round. fold e1.
  destruct (Z.leb_spec e1 e) as [Hle | Hgt].
  - (* the mantissa is shifted to the left: no rounding *)
    destruct (shl_align_value m e e1 Hle) as [Es Ev]. rewrite Es.
    set (mz := fst (shl_align m e e1)) in *.
    assert (Hdz : Zpos (digits2_pos mz) + e1 = Zpos (digits2_pos m) + e).
    { rewrite (digits_shift m (e - e1) mz) by (lia || assumption). lia. }
    assert (HV : V = Zpos mz * U).
    { unfold V, U. rewrite Ev, (pow2_split b e1 e) by lia. lia. }
    assert (Hpre : e1 <= fexp (Zpos (digits2_pos mz) + e1)) by (rewrite Hdz; fold e1; lia).
    destruct (binary_round_aux_spec s mz e1 Hpre) as (m1 & Hm1 & Hres).
    rewrite Hdz in Hm1, Hres. fold e1 in Hm1, Hres.
    rewrite Z.sub_diag, Z.pow_0_r, Z.div_1_r, Z.mod_1_r in Hm1.
    assert (Em1 : m1 = Zpos mz) by (destruct Hm1 as [? | [_ ?]]; [assumption | lia]).
    exists m1. split.
    + left. rewrite HV, Z.div_mul by lia. assumption.
    + destruct Hres as [[Hz _] | (m2 & e2 & Hc & Hle2 & Hv & Hr)]; [lia |].
      right. exists m2, e2. repeat split; try assumption.
      unfold U. rewrite (pow2_split b e1 e2) by lia. nia.
  - (* the mantissa is kept: rounding at [e1] *)
    assert (Es : shl_align m e e1 = (m, e)).
    { unfold shl_align. destruct (e1 - e) eqn:E; try reflexivity; lia. }
    rewrite Es.
    assert (Hpre : e <= fexp (Zpos (digits2_pos m) + e)) by (fold e1; lia).
    destruct (binary_round_aux_spec s m e Hpre) as (m1 & Hm1 & Hres).
    fold e1 in Hm1, Hres.
    assert (HUs : U = 2 ^ (e1 - e) * 2 ^ (e - b))
      by (unfold U; apply pow2_split; lia).
    assert (P1 : 0 < 2 ^ (e1 - e)) by (apply pow2_pos; lia).
    assert (P2 : 0 < 2 ^ (e - b)) by (apply pow2_pos; lia).
    assert (Hdiv : V / U = Zpos m / 2 ^ (e1 - e)).
    { unfold V. rewrite HUs. apply Z.div_mul_cancel_r; lia. }
    assert (Hmod : V mod U = (Zpos m mod 2 ^ (e1 - e)) * 2 ^ (e - b)).
    { unfold V. rewrite HUs. apply Z.mul_mod_distr_r; lia. }
    exists m1. split.
    + rewrite Hdiv, Hmod. destruct Hm1 as [? | [? ?]]; [now left | right].
      split; [assumption | nia].
    + destruct Hres as [[Hz Hr] | (m2 & e2 & Hc & Hle2 & Hv & Hr)]; [now left |].
      right. exists m2, e2. repeat split; try assumption.
      unfold U. rewrite (pow2_split b e1 e2) by lia. nia.
Qed.

Lemma canonical_exponent (m : positive) (e : Z) :
  canonical m e = true -> -1074 <= e.
Proof. intros C. apply canonical_iff in C. rewrite fexp_eq in C. lia. Qed.

(** The result of [binary_round] is a number of the format carrying the
    sign it was given. *)
Lemma binary_round_shape (s : bool) (m : positive) (e : Z) :
  let r := binary_round prec emax s m e in
  valid r = true
  /\ (r = S754_zero s \/ r = S754_infinity s \/ exists m2 e2, r = S754_finite s m2 e2).
Proof.
  cbv zeta.
  destruct (binary_round_spec (Z.min e (-1074)) s m e ltac:(lia) ltac:(lia))
    as (m1 & _ & [[_ ->] | (m2 & e2 & Hc & _ & _ & ->)]).
  - split; [reflexivity | now left].
  - destruct (Z.leb_spec e2 971) as [Hle | Hgt].
    + split; [| right; right; now exists m2, e2].
      unfold valid. cbn [valid_binary]. apply bounded_iff. now split.
    + split; [reflexivity | right; now left].
Qed.

(** Rounding a positive value that is at most a number of the format gives
    at most that number. *)
Lemma round_below (b : Z) (m : positive) (e : Z) (mx : positive) (ex : Z) :
  b <= e -> b <= -1074 -> bounded prec emax mx ex = true ->
  Zpos m * 2 ^ (e - b) <= Zpos mx * 2 ^ (ex - b) ->
  SFleb (binary_round prec emax false m e) (S754_finite false mx ex) = true.
Proof.
  intros Hb Hb' Hx HV.
  apply bounded_iff in Hx. destruct Hx as [Cx Hex].
  pose proof (canonical_exponent mx ex Cx) as Hex'.
  destruct (binary_round_spec b false m e Hb Hb')
    as (m1 & Hm1 & [[_ ->] | (m2 & e2 & Hc & Hle & Hv & ->)]); [reflexivity |].
  cbv zeta in Hm1, Hv, Hle.
  set (e1 := fexp (Zpos (digits2_pos m) + e)) in *.
  set (U := 2 ^ (e1 - b)) in *. set (V := Zpos m * 2 ^ (e - b)) in *.
  set (X := Zpos mx * 2 ^ (ex - b)) in *.
  assert (He1 : -1074 <= e1) by (unfold e1; rewrite fexp_eq; lia).
  assert (HU : 0 < U) by (apply pow2_pos; lia).
  assert (He1x : e1 <= ex).
  { pose proof (magnitude_le b m e mx ex Hb ltac:(lia) HV) as Hmag.
    apply fexp_mono in Hmag. apply canonical_iff in Cx. fold e1 in Hmag. lia. }
  assert (HXU : X = (Zpos mx * 2 ^ (ex - e1)) * U).
  { unfold X, U. rewrite (pow2_split b e1 ex) by lia. lia. }
  assert (Hm1X : m1 * U <= X).
  { pose proof (Z.div_mod V U ltac:(lia)) as Hdm.
    pose proof (Z.mod_pos_bound V U HU) as Hmb.
    destruct Hm1 as [-> | [-> Hnz]]; [nia |].
    assert (V / U < Zpos mx * 2 ^ (ex - e1)) by nia. nia. }
  rewrite <- Hv in Hm1X.
  destruct (canonical_order b m2 e2 mx ex Hc Cx ltac:(lia) ltac:(lia) Hm1X)
    as [Hlt | [-> Hmle]].
  - replace (e2 <=? 971) with true by (symmetry; apply Z.leb_le; lia).
    unfold SFleb, SFcompare. now rewrite (proj2 (Z.compare_lt_iff e2 ex) Hlt).
  - replace (ex <=? 971) with true by (symmetry; apply Z.leb_le; lia).
    unfold SFleb, SFcompare. rewrite Z.compare_refl.
    change (Pos.compare_cont Eq m2 mx) with (m2 ?= mx)%positive.
    unfold Pos.le in Hmle. destruct (m2 ?= mx)%positive; try reflexivity.
    now contradiction Hmle.
Qed.

(** Rounding a positive value that is at least a number of the format
    gives at least that number; with the signs reversed, at most. *)
Lemma round_above (b : Z) (m : positive) (e : Z) (mx : positive) (ex : Z) :
  b <= e -> b <= -1074 -> bounded prec emax mx ex = true ->
  Zpos mx * 2 ^ (ex - b) <= Zpos m * 2 ^ (e - b) ->
  SFleb (binary_round prec emax true m e) (S754_finite true mx ex) = true.
Proof.
  intros Hb Hb' Hx HV.
  apply bounded_iff in Hx. destruct Hx as [Cx Hex].
  pose proof (canonical_exponent mx ex Cx) as Hex'.
  destruct (binary_round_spec b true m e Hb Hb') as (m1 & Hm1 & Hres).
  cbv zeta in Hm1, Hres.
  set (e1 := fexp (Zpos (digits2_pos m) + e)) in *.
  set (U := 2 ^ (e1 - b)) in *. set (V := Zpos m * 2 ^ (e - b)) in *.
  set (X := Zpos mx * 2 ^ (ex - b)) in *.
  assert (He1 : -1074 <= e1) by (unfold e1; rewrite fexp_eq; lia).
  assert (HU : 0 < U) by (apply pow2_pos; lia).
  assert (HX : 0 < X) by (unfold X; pose proof (pow2_pos (ex - b) ltac:(lia)); nia).
  pose proof (Z.div_mod V U ltac:(lia)) as Hdm.
  pose proof (Z.mod_pos_bound V U HU) as Hmb.
  assert (HqX : X <= (V / U) * U).
  { destruct (Z.leb_spec e1 ex) as [Hle | Hgt].
    - assert (HXU : X = (Zpos mx * 2 ^ (ex - e1)) * U).
      { unfold X, U. rewrite (pow2_split b e1 ex) by lia. lia. }
      assert (Zpos mx * 2 ^ (ex - e1) <= V / U) by nia. nia.
    - apply canonical_iff in Cx.
      pose proof (digits_bounds m) as [Dl _].
      pose proof (digits_bounds mx) as [_ Dux].
      set (d := Zpos (digits2_pos m)) in *. set (dx := Zpos (digits2_pos mx)) in *.
      assert (0 < dx) by (unfold dx; lia).
      assert (Hmag : dx + ex < d + e).
      { destruct (Z.ltb_spec (dx + ex) (d + e)); [assumption |].
        assert (fexp (d + e) <= fexp (dx + ex)) by (apply fexp_mono; lia).
        fold e1 in H1. lia. }
      assert (He1d : e1 <= d + e - 1) by (unfold e1; rewrite fexp_eq; lia).
      set (P := 2 ^ (d + e - 1 - b)).
      assert (HPU : P = 2 ^ (d + e - 1 - e1) * U).
      { unfold P, U. apply pow2_split; lia. }
      assert (HPV : P <= V).
      { unfold P, V. replace (d + e - 1 - b) with (d - 1 + (e - b)) by lia.
        rewrite Z.pow_add_r by (unfold d; lia).
        pose proof (pow2_pos (e - b) ltac:(lia)). nia. }
      assert (HXP : X < P).
      { unfold X, P.
        assert (Zpos mx * 2 ^ (ex - b) < 2 ^ dx * 2 ^ (ex - b))
          by (pose proof (pow2_pos (ex - b) ltac:(lia)); nia).
        rewrite <- Z.pow_add_r in H0 by lia.
        assert (2 ^ (dx + (ex - b)) <= 2 ^ (d + e - 1 - b))
          by (apply Z.pow_le_mono_r; lia).
        lia. }
      assert (2 ^ (d + e - 1 - e1) <= V / U) by nia. nia. }
  assert (Hm1X : X <= m1 * U) by (destruct Hm1 as [-> | [-> _]]; nia).
  destruct Hres as [[Hz _] | (m2 & e2 & Hc & Hle & Hv & ->)]; [nia |].
  rewrite <- Hv in Hm1X.
  pose proof (canonical_exponent m2 e2 Hc).
  destruct (canonical_order b mx ex m2 e2 Cx Hc ltac:(lia) ltac:(lia) Hm1X)
    as [Hlt | [<- Hmle]].
  - destruct (e2 <=? 971); [| reflexivity].
    unfold SFleb, SFcompare. now rewrite (proj2 (Z.compare_gt_iff e2 ex) Hlt).
  - replace (ex <=? 971) with true by (symmetry; apply Z.leb_le; lia).
    unfold SFleb, SFcompare. rewrite Z.compare_refl.
    change (Pos.compare_cont Eq m2 mx) with (m2 ?= mx)%positive.
    rewrite Pos.compare_antisym. unfold Pos.le in Hmle.
    destruct (mx ?= m2)%positive; try reflexivity. now contradiction Hmle.
Qed.

End Rounding.

Section FloatOrder.

Local Abbreviation fexp := (SpecFloat.fexp prec emax).

(** [leb] compares the ranks. *)
Lemma leb_rank (a b : float) :
  is_nan a = false -> is_nan b = false ->
  (leb a b = true <-> rank_le (rank a) (rank b)).
Proof.
  intros Ha Hb. unfold leb, SFleb, SFcompare, rank_le, rank.
  destruct a as [sa | sa | | sa ma ea]; try discriminate;
  destruct b as [sb | sb | | sb mb eb]; try discriminate;
  try destruct sa; try destruct sb;
  try (split; [intros _; lia | reflexivity]);
  try (split; [discriminate | intros; exfalso; lia]).
  - (* negative, negative *)
    change (Pos.compare_cont Eq ma mb) with (ma ?= mb)%positive.
    destruct (Z.compare_spec ea eb) as [-> | Hlt | Hgt].
    + destruct (Pos.compare_spec ma mb) as [-> | Hm | Hm]; cbn [CompOpp];
        (split; [intros H; try discriminate; lia | intros H; try reflexivity; exfalso; lia]).
    + split; [discriminate | intros; exfalso; lia].
    + split; [intros _; lia | reflexivity].
  - (* positive, positive *)
    change (Pos.compare_cont Eq ma mb) with (ma ?= mb)%positive.
    destruct (Z.compare_spec ea eb) as [-> | Hlt | Hgt].
    + destruct (Pos.compare_spec ma mb) as [-> | Hm | Hm];
        (split; [intros H; try discriminate; lia | intros H; try reflexivity; exfalso; lia]).
    + split; [intros _; lia | reflexivity].
    + split; [discriminate | intros; exfalso; lia].
Qed.

Lemma leb_not_nan (a b : float) :
  leb a b = true -> is_nan a = false /\ is_nan b = false.
Proof.
  unfold leb, SFleb, SFcompare.
  destruct a as [sa | sa | | sa ma ea], b as [sb | sb | | sb mb eb];
    try discriminate; intros _; split; reflexivity.
Qed.

Lemma leb_trans (a b c : float) :
  leb a b = true -> leb b c = true -> leb a c = true.
Proof.
  intros Hab Hbc.
  destruct (leb_not_nan a b Hab) as [Na Nb].
  destruct (leb_not_nan b c Hbc) as [_ Nc].
  apply leb_rank in Hab; try assumption. apply leb_rank in Hbc; try assumption.
  apply leb_rank; try assumption.
  unfold rank_le in *.
  destruct (rank a) as [[a1 a2] a3], (rank b) as [[b1 b2] b3], (rank c) as [[c1 c2] c3].
  lia.
Qed.

Lemma leb_refl (a : float) : is_nan a = false -> leb a a = true.
Proof.
  intros Na. apply leb_rank; try assumption.
  unfold rank_le. destruct (rank a) as [[a1 a2] a3]. lia.
Qed.

Lemma is_gap_cases (d : float) :
  is_gap d = true ->
  (exists s, d = S754_zero s) \/ d = S754_infinity false
  \/ exists m e, d = S754_finite false m e /\ bounded prec emax m e = true.
Proof.
  unfold is_gap, nonneg, valid, leb, SFleb, SFcompare. intros H.
  apply andb_true_iff in H. destruct H as [Hv Hn].
  destruct d as [s | [|] | | [|] m e]; try discriminate.
  - left. now exists s.
  - right. now left.
  - right. right. exists m, e. split; [reflexivity | exact Hv].
Qed.

Lemma is_positive_nonneg (d : float) : is_positive d = true -> nonneg d = true.
Proof.
  unfold is_positive, nonneg, ltb, leb, SFltb, SFleb.
  destruct (SFcompare zero d) as [[| |] |]; try discriminate; reflexivity.
Qed.

(** Lowering the cursor by a gap gives a position that is not above. *)
Lemma sub_gap (y d : float) :
  is_cursor y = true -> is_gap d = true ->
  is_cursor (sub y d) = true /\ leb (sub y d) y = true.
Proof.
  intros Hy Hd.
  destruct (is_gap_cases d Hd) as [[sd ->] | [-> | (md & ed & -> & Bd)]].
  - (* d is zero *)
    destruct y as [sy | [|] | | sy my ey]; try discriminate.
    + destruct sy, sd; split; reflexivity.
    + split; reflexivity.
    + split; [exact Hy | apply leb_refl; reflexivity].
  - (* d is plus infinity *)
    destruct y as [sy | [|] | | sy my ey]; try discriminate; split; reflexivity.
  - (* d is finite and positive *)
    destruct y as [sy | [|] | | sy my ey]; try discriminate.
    + (* y is zero *)
      cbn. unfold is_cursor, valid. cbn. rewrite Bd. split; reflexivity.
    + split; reflexivity.
    + (* y is finite *)
      assert (By : bounded prec emax my ey = true).
      { unfold is_cursor, valid in Hy. cbn in Hy. now rewrite andb_true_r in Hy. }
      unfold sub, SFsub.
      set (ez := Z.min ey ed).
      destruct (shl_align_value my ey ez ltac:(lia)) as [_ Ey].
      destruct (shl_align_value md ed ez ltac:(lia)) as [_ Ed].
      set (Xz := Zpos (fst (shl_align my ey ez))) in *.
      set (Cz := Zpos (fst (shl_align md ed ez))) in *.
      assert (HXz : 0 < Xz) by (unfold Xz; lia).
      assert (HCz : 0 < Cz) by (unfold Cz; lia).
      set (b := Z.min ez (-1074)).
      pose proof (proj1 (bounded_iff my ey) By) as [Cy _].
      pose proof (canonical_exponent my ey Cy) as Hey.
      assert (HX : Zpos my * 2 ^ (ey - b) = Xz * 2 ^ (ez - b)).
      { rewrite Ey, (pow2_split b ez ey) by lia. lia. }
      assert (Pb : 0 < 2 ^ (ez - b)) by (apply pow2_pos; lia).
      cbn [cond_Zopp].
      destruct sy; cbn [cond_Zopp].
      * (* y is negative: the difference is further down *)
        destruct (- Xz - Cz) as [|p|p] eqn:EM; try lia.
        cbn [binary_normalize].
        pose proof (binary_round_shape true p ez) as [Hv Hs]. cbv zeta in Hv, Hs.
        split.
        -- unfold is_cursor. rewrite Hv.
           destruct Hs as [-> | [-> | (m2 & e2 & ->)]]; reflexivity.
        -- apply (round_above b); [lia | lia | assumption |].
           rewrite HX. nia.
      * destruct (Xz - Cz) as [|p|p] eqn:EM; cbn [binary_normalize].
        -- split; reflexivity.
        -- assert (Hle : leb (binary_round prec emax false p ez)
                          (S754_finite false my ey) = true).
           { apply (round_below b); [lia | lia | assumption |].
             rewrite HX. nia. }
           split; [| exact Hle].
           pose proof (binary_round_shape false p ez) as [Hv Hs]. cbv zeta in Hv, Hs.
           unfold is_cursor. rewrite Hv.
           destruct Hs as [E | [E | (m2 & e2 & E)]]; rewrite E in *;
             try reflexivity. discriminate Hle.
        -- pose proof (binary_round_shape true p ez) as [Hv Hs]. cbv zeta in Hv, Hs.
           unfold is_cursor. rewrite Hv.
           destruct Hs as [-> | [-> | (m2 & e2 & ->)]]; split; reflexivity.
Qed.

(** A gap in millimetres is a gap in points: the product of a gap and a
    positive number of full precision is a gap. *)
Lemma mul_gap (a : float) (mc : positive) (ec : Z) :
  is_gap a = true -> Zpos (digits2_pos mc) = 53 ->
  is_gap (mul a (S754_finite false mc ec)) = true.
Proof.
  intros Ha Hc.
  destruct (is_gap_cases a Ha) as [[sa ->] | [-> | (ma & ea & -> & Ba)]].
  - destruct sa; reflexivity.
  - reflexivity.
  - unfold mul, SFmul. cbn [xorb].
    assert (Hd : 53 <= Zpos (digits2_pos (ma * mc))).
    { pose proof (digits_bounds (ma * mc)) as [_ Du].
      pose proof (digits_bounds mc) as [Dl _]. rewrite Hc in Dl.
      destruct (Z.leb_spec 53 (Zpos (digits2_pos (ma * mc)))); [assumption |].
      assert (2 ^ Zpos (digits2_pos (ma * mc)) <= 2 ^ 52)
        by (apply Z.pow_le_mono_r; lia).
      rewrite Pos2Z.inj_mul in Du. change (53 - 1) with 52 in Dl. nia. }
    assert (Hpre : ea + ec <= fexp (Zpos (digits2_pos (ma * mc)) + (ea + ec)))
      by (rewrite fexp_eq; lia).
    destruct (binary_round_aux_spec false (ma * mc) (ea + ec) Hpre)
      as (m1 & _ & [[_ ->] | (m2 & e2 & Hcan & _ & _ & ->)]); [reflexivity |].
    destruct (Z.leb_spec e2 971) as [Hle | Hgt]; [| reflexivity].
    unfold is_gap, valid, nonneg. cbn [valid_binary].
    rewrite (proj2 (bounded_iff m2 e2)) by (split; assumption). reflexivity.
Qed.

Lemma mm_value : mm = S754_finite false 6383054589973932 (-51).
Proof. vm_compute. reflexivity. Qed.

Lemma mul_mm_gap (a : float) : is_gap a = true -> is_gap (mul a mm) = true.
Proof. intros Ha. rewrite mm_value. now apply mul_gap. Qed.

End FloatOrder.

(* ================================================================== *)
(** * The layout cursor *)
(* ================================================================== *)

Section CursorFacts.

Local Opaque sub mul add div of_int mm.

Lemma descends_step (y d : float) (r : list float) :
  is_gap d = true ->
  (is_cursor (sub y d) = true -> descends (sub y d) r = true) ->
  is_cursor y = true -> descends y (sub y d :: r) = true.
Proof.
  intros Hd Hr Hy. destruct (sub_gap y d Hy Hd) as [Hc Hl].
  cbn [descends]. now rewrite Hl, Hc, (Hr Hc).
Qed.

Lemma descends_two_steps (y d1 d2 : float) (r : list float) :
  is_gap d1 = true -> is_gap d2 = true ->
  (is_cursor (sub (sub y d1) d2) = true -> descends (sub (sub y d1) d2) r = true) ->
  is_cursor y = true -> descends y (sub (sub y d1) d2 :: r) = true.
Proof.
  intros H1 H2 Hr Hy.
  destruct (sub_gap y d1 Hy H1) as [Hc1 Hl1].
  destruct (sub_gap (sub y d1) d2 Hc1 H2) as [Hc2 Hl2].
  cbn [descends]. rewrite (leb_trans _ _ _ Hl2 Hl1), Hc2, (Hr Hc2). reflexivity.
Qed.

Lemma descends_walk (gap : float) (n : nat) (r : list float) :
  is_gap gap = true ->
  forall y,
    (is_cursor (last (walk y gap n) y) = true ->
     descends (last (walk y gap n) y) r = true) ->
    is_cursor y = true -> descends y (walk y gap n ++ r) = true.
Proof.
  intros Hg. induction n as [|k IH]; intros y Hr Hy.
  - cbn [walk app last] in *. now apply Hr.
  - cbn [walk app]. apply descends_step; [assumption | | assumption].
    apply IH. rewrite last_walk in Hr. exact Hr.
Qed.

Lemma descends_non_increasing (y : float) (ys : list float) :
  descends y ys = true -> non_increasing (y :: ys) = true.
Proof.
  revert y; induction ys as [|z r IH]; intros y H; [reflexivity |].
  cbn [descends] in H. apply andb_true_iff in H. destruct H as [H Hr].
  apply andb_true_iff in H. destruct H as [Hl _].
  change (non_increasing (y :: z :: r)) with (leb z y && non_increasing (z :: r)).
  now rewrite Hl, (IH z Hr).
Qed.

Lemma A4_height_is_cursor : is_cursor (snd A4) = true.
Proof. vm_compute. reflexivity. Qed.

(** The fixed gaps of the layout. *)
Lemma gap_22mm : is_gap (mul (of_int 22) mm) = true.
Proof. vm_compute. reflexivity. Qed.

Lemma gap_18mm : is_gap (mul (of_int 18) mm) = true.
Proof. vm_compute. reflexivity. Qed.

Lemma gap_12mm : is_gap (mul (of_int 12) mm) = true.
Proof. vm_compute. reflexivity. Qed.

Lemma gap_10mm : is_gap (mul (of_int 10) mm) = true.
Proof. vm_compute. reflexivity. Qed.

Lemma gap_6mm : is_gap (mul (of_int 6) mm) = true.
Proof. vm_compute. reflexivity. Qed.

Lemma gap_2mm : is_gap (mul (of_int 2) mm) = true.
Proof. vm_compute. reflexivity. Qed.

Lemma gap_20 : is_gap (of_int 20) = true.
Proof. vm_compute. reflexivity. Qed.

Lemma gap_10 : is_gap (of_int 10) = true.
Proof. vm_compute. reflexivity. Qed.

(** The cursor of a page never rises. *)
Lemma cursor_trail_descends (self : Exporter) (ne nd : nat) (sg ng : float)
    (sig_drawn has_name : bool) :
  is_cursor (sub (snd (page_size self)) (margin self)) = true ->
  is_gap (line_gap self) = true -> is_gap sg = true -> is_gap ng = true ->
  exists rest,
    cursor_trail self ne nd sg ng sig_drawn has_name
    = sub (snd (page_size self)) (margin self) :: rest
    /\ descends (sub (snd (page_size self)) (margin self)) rest = true.
Proof.
  intros H0 Hg Hsg Hng.
  pose proof (mul_mm_gap sg Hsg) as Hsg'.
  pose proof (mul_mm_gap ng Hng) as Hng'.
  unfold cursor_trail. cbv zeta. cbn [app].
  eexists. split; [reflexivity |].
  revert H0.
  apply descends_step; [exact gap_22mm |].
  apply descends_step; [exact gap_10mm |].
  apply descends_walk; [exact Hg |].
  apply descends_step; [exact gap_2mm |].
  apply descends_step; [exact gap_12mm |].
  apply descends_step; [exact gap_20 |].
  apply descends_walk; [exact Hg |].
  apply descends_step; [exact Hg |].
  apply descends_step; [exact gap_6mm |].
  apply descends_step; [exact gap_12mm |].
  apply descends_step; [exact gap_20 |].
  apply descends_walk; [exact Hg |].
  apply descends_step; [exact Hg |].
  do 3 (apply descends_step; [exact gap_10mm |]).
  apply descends_step; [exact Hsg' |].
  destruct sig_drawn.
  - apply descends_two_steps; [exact gap_18mm | exact Hng' |].
    destruct has_name; cbn [app]; [| reflexivity].
    apply descends_step; [exact gap_10 | reflexivity].
  - apply descends_step; [exact Hng' |].
    destruct has_name; cbn [app]; [| reflexivity].
    apply descends_step; [exact gap_10 | reflexivity].
Qed.

End CursorFacts.

(** C4, as the code has it. Under an exporter with a non-negative margin
    and a positive line gap, with non-negative footer gaps and on a page
    whose coordinates are finite numbers, the cursor of a rendered document
    starts at the page height less the margin and never rises from one step
    to the next, through the header, the employee block, the earnings, the
    deductions, the net pay and the footer. The values it takes are those
    of [cursor_trail]: they depend on the document and on whether the
    signature image could be drawn, and on nothing else. Repeating the call
    gives the same final cursor whatever the clock, the output path and the
    file system, as long as the signature loads or fails alike. *)
Theorem cursor_never_rises (margin_mm gap : float) (w : World) out l1 l2 pd
    employee (earnings deductions : list LineItem) labels logo sig sym cfg gen
    gl dl nl :
  has_labels labels gl dl nl ->
  mkdir_error w (resolve w out) = None ->
  save_error w (resolve w out) = None ->
  is_gap margin_mm = true ->
  valid gap = true -> is_positive gap = true ->
  is_gap (fst (footer_gaps cfg)) = true ->
  is_gap (snd (footer_gaps cfg)) = true ->
  let self := new_exporter margin_mm gap in
  finite_page self (List.length earnings) (List.length deductions) cfg
    (drawn w sig) = true ->
  exists path y st,
    render_pdf self w out l1 l2 pd employee earnings deductions labels logo sig
      sym cfg gen = Ok (path, y, st)
    /\ hd_error (trail st) = Some (sub (snd (page_size self)) (margin self))
    /\ non_increasing (trail st) = true
    /\ last (trail st) zero = y
    /\ trail st
       = cursor_trail self (List.length earnings) (List.length deductions)
           (fst (footer_gaps cfg)) (snd (footer_gaps cfg)) (drawn w sig)
           (negb (is_empty (footer_name cfg)))
    /\ forall w' out' gen',
         mkdir_error w' (resolve w' out') = None ->
         save_error w' (resolve w' out') = None ->
         finite_page self (List.length earnings) (List.length deductions) cfg
           (drawn w' sig) = true ->
         exists path' y' st',
           render_pdf self w' out' l1 l2 pd employee earnings deductions labels
             logo sig sym cfg gen' = Ok (path', y', st')
           /\ non_increasing (trail st') = true
           /\ trail st'
              = cursor_trail self (List.length earnings) (List.length deductions)
                  (fst (footer_gaps cfg)) (snd (footer_gaps cfg)) (drawn w' sig)
                  (negb (is_empty (footer_name cfg)))
           /\ (drawn w' sig = drawn w sig -> y' = y /\ trail st' = trail st).
Proof.
  intros Hl Hm Hs Hmargin Hv Hpos Hsg Hng self _.
  destruct (render_pdf_ok self w out l1 l2 pd employee earnings deductions
              labels logo sig sym cfg gen gl dl nl Hl Hm Hs)
    as (cs & E & _ & _).
  cbv zeta in E.
  assert (Hgap : is_gap (line_gap self) = true).
  { unfold is_gap. cbn [self new_exporter line_gap].
    now rewrite Hv, (is_positive_nonneg gap Hpos). }
  assert (H0 : is_cursor (sub (snd (page_size self)) (margin self)) = true).
  { cbn [self new_exporter page_size margin].
    apply sub_gap; [apply A4_height_is_cursor | now apply mul_mm_gap]. }
  assert (Hdesc : forall b,
    exists rest,
      cursor_trail self (List.length earnings) (List.length deductions)
        (fst (footer_gaps cfg)) (snd (footer_gaps cfg)) b
        (negb (is_empty (footer_name cfg)))
      = sub (snd (page_size self)) (margin self) :: rest
      /\ descends (sub (snd (page_size self)) (margin self)) rest = true).
  { intros b. now apply cursor_trail_descends. }
  destruct (Hdesc (drawn w sig)) as (rest & Et & Hd).
  eexists; eexists; eexists. split; [exact E |]. cbn [trail].
  split; [rewrite Et; reflexivity |].
  split; [rewrite Et; now apply descends_non_increasing |].
  split; [reflexivity |]. split; [reflexivity |].
  intros w' out' gen' Hm' Hs' _.
  destruct (render_pdf_ok self w' out' l1 l2 pd employee earnings deductions
              labels logo sig sym cfg gen' gl dl nl Hl Hm' Hs')
    as (cs' & E' & _ & _).
  cbv zeta in E'.
  destruct (Hdesc (drawn w' sig)) as (rest' & Et' & Hd').
  eexists; eexists; eexists. split; [exact E' |]. cbn [trail].
  split; [rewrite Et'; now apply descends_non_increasing |].
  split; [reflexivity |].
  intros Hdr. rewrite Hdr. split; reflexivity.
Qed.

Lemma cursor_never_rises_witness :
  has_labels Sample.labels (lit "GROSS INCOME") (lit "TOTAL DEDUCTION") (lit "NET PAY")
  /\ is_gap (of_int 14) = true
  /\ valid (of_int 14) = true
  /\ is_positive (of_int 14) = true
  /\ is_gap (fst (footer_gaps (Some Sample.footer))) = true
  /\ is_gap (snd (footer_gaps (Some Sample.footer))) = true
  /\ finite_page default_exporter 2 1 (Some Sample.footer)
       (drawn Sample.world (Some (lit "assets/signature.png"))) = true
  /\ exists path y st,
       render_pdf default_exporter Sample.world (lit "out/E001.pdf")
         (lit "ACME") (lit "Payslip") (lit "January 2026") Sample.employee
         Sample.earnings Sample.deductions Sample.labels
         (Some (lit "assets/logo.png")) (Some (lit "assets/signature.png"))
         (Some Sample.pound) (Some Sample.footer) None = Ok (path, y, st)
       /\ non_increasing (trail st) = true.
Proof.
  assert (Hl : has_labels Sample.labels (lit "GROSS INCOME")
                 (lit "TOTAL DEDUCTION") (lit "NET PAY"))
    by (repeat split; reflexivity).
  split; [exact Hl |].
  repeat (split; [vm_compute; reflexivity |]).
  destruct (cursor_never_rises (of_int 14) (of_int 14) Sample.world
              (lit "out/E001.pdf") (lit "ACME") (lit "Payslip")
              (lit "January 2026") Sample.employee Sample.earnings
              Sample.deductions Sample.labels (Some (lit "assets/logo.png"))
              (Some (lit "assets/signature.png")) (Some Sample.pound)
              (Some Sample.footer) None _ _ _ Hl eq_refl eq_refl
              eq_refl eq_refl eq_refl eq_refl eq_refl
              ltac:(vm_compute; reflexivity))
    as (path & y & st & E & _ & Hn & _).
  exists path, y, st. split; [exact E | exact Hn].
Defined.

(** C4, as the specification has it, fails: the final cursor is not a
    function of the inputs of the call alone. The same call, with the same
    signature path, ends 18 mm lower where the signature image can be read
    than where it cannot. *)
Lemma final_cursor_depends_on_signature_counterexample :
  exists p y st p' y' st',
    render_pdf default_exporter Sample.world (lit "out/E001.pdf")
      (lit "ACME") (lit "Payslip") (lit "January 2026") Sample.employee
      Sample.earnings Sample.deductions Sample.labels
      (Some (lit "assets/logo.png")) (Some (lit "assets/signature.png"))
      (Some Sample.pound) (Some Sample.footer) None = Ok (p, y, st)
    /\ render_pdf default_exporter Sample.no_images (lit "out/E001.pdf")
         (lit "ACME") (lit "Payslip") (lit "January 2026") Sample.employee
         Sample.earnings Sample.deductions Sample.labels
         (Some (lit "assets/logo.png")) (Some (lit "assets/signature.png"))
         (Some Sample.pound) (Some Sample.footer) None = Ok (p', y', st')
    /\ y <> y'
    /\ ltb y y' = true.
Proof.
  do 6 eexists.
  split; [vm_compute; reflexivity |].
  split; [vm_compute; reflexivity |].
  split; [vm_compute; discriminate | vm_compute; reflexivity].
Qed.

(* ================================================================== *)
(** * Sums of whole numbers are exact *)
(* ================================================================== *)

Section Exact.

Local Abbreviation fexp := (SpecFloat.fexp prec emax).
Local Abbreviation canonical := (canonical_mantissa prec emax).

(** A value has one canonical mantissa and exponent. *)
Lemma canonical_unique (m1 : positive) (e1 : Z) (m2 : positive) (e2 : Z) :
  canonical m1 e1 = true -> canonical m2 e2 = true ->
  Zpos m1 * 2 ^ (e1 + 1074) = Zpos m2 * 2 ^ (e2 + 1074) ->
  m1 = m2 /\ e1 = e2.
Proof.
  intros C1 C2 H.
  pose proof (canonical_exponent m1 e1 C1) as H1.
  pose proof (canonical_exponent m2 e2 C2) as H2.
  assert (Ha : Zpos m1 * 2 ^ (e1 - -1074) <= Zpos m2 * 2 ^ (e2 - -1074)).
  { replace (e1 - -1074) with (e1 + 1074) by lia.
    replace (e2 - -1074) with (e2 + 1074) by lia. lia. }
  assert (Hb : Zpos m2 * 2 ^ (e2 - -1074) <= Zpos m1 * 2 ^ (e1 - -1074)).
  { replace (e1 - -1074) with (e1 + 1074) by lia.
    replace (e2 - -1074) with (e2 + 1074) by lia. lia. }
  destruct (canonical_order (-1074) m1 e1 m2 e2 C1 C2 H1 H2 Ha) as [L1 | [E1 L1]];
    destruct (canonical_order (-1074) m2 e2 m1 e1 C2 C1 H2 H1 Hb) as [L2 | [E2 L2]];
    try lia; split; try assumption; apply Pos.le_antisym; assumption.
Qed.

(** The magnitude of a number written with another mantissa and exponent. *)
Lemma digits_of_value (m : positive) (e : Z) (n : positive) :
  -1074 <= e -> Zpos m * 2 ^ (e + 1074) = Zpos n * 2 ^ 1074 ->
  Zpos (digits2_pos m) + e = Zpos (digits2_pos n).
Proof.
  intros He H.
  assert (Ha : Zpos m * 2 ^ (e - -1074) <= Zpos n * 2 ^ (0 - -1074)).
  { replace (e - -1074) with (e + 1074) by lia.
    change (0 - -1074) with 1074. lia. }
  assert (Hb : Zpos n * 2 ^ (0 - -1074) <= Zpos m * 2 ^ (e - -1074)).
  { replace (e - -1074) with (e + 1074) by lia.
    change (0 - -1074) with 1074. lia. }
  pose proof (magnitude_le (-1074) m e n 0 He ltac:(lia) Ha).
  pose proof (magnitude_le (-1074) n 0 m e ltac:(lia) He Hb).
  lia.
Qed.

Lemma digits_small (n : positive) :
  Zpos n < 2 ^ 53 -> Zpos (digits2_pos n) <= 53.
Proof.
  intros H. pose proof (digits_bounds n) as [Dl _].
  destruct (Z.leb_spec (Zpos (digits2_pos n)) 53) as [Hle | Hgt];
    [assumption | exfalso].
  assert (2 ^ 53 <= 2 ^ (Zpos (digits2_pos n) - 1))
    by (apply Z.pow_le_mono_r; lia).
  lia.
Qed.

(** Rounding a whole number below [2^53], however it is written, gives
    that number. *)
Lemma round_whole (s : bool) (m : positive) (e : Z) (n : positive) :
  -1074 <= e -> Zpos m * 2 ^ (e + 1074) = Zpos n * 2 ^ 1074 ->
  Zpos n < 2 ^ 53 ->
  exists m2 e2,
    canonical m2 e2 = true /\ -1074 <= e2 <= 0
    /\ Zpos m2 * 2 ^ (e2 + 1074) = Zpos n * 2 ^ 1074
    /\ binary_round prec emax s m e = S754_finite s m2 e2.
Proof.
  intros He HV Hn.
  pose proof (digits_of_value m e n He HV) as Hd.
  pose proof (digits_small n Hn) as Hdn.
  destruct (binary_round_spec (-1074) s m e He (Z.le_refl _))
    as (m1 & Hm1 & Hres).
  cbv zeta in Hm1, Hres. rewrite Hd in Hm1, Hres.
  set (e1 := fexp (Zpos (digits2_pos n))) in *.
  assert (He1 : -1074 <= e1 <= 0) by (unfold e1; rewrite fexp_eq; lia).
  assert (Q : forall x, x - -1074 = x + 1074) by (intros; lia).
  rewrite (Q e), (Q e1), HV in Hm1. rewrite (Q e1) in Hres.
  assert (HU : 0 < 2 ^ (e1 + 1074)) by (apply pow2_pos; lia).
  assert (Hsplit : 2 ^ 1074 = 2 ^ (- e1) * 2 ^ (e1 + 1074)).
  { rewrite <- Z.pow_add_r by lia. f_equal. lia. }
  assert (HP : 0 < 2 ^ (- e1)) by (apply pow2_pos; lia).
  assert (Hmod : (Zpos n * 2 ^ 1074) mod 2 ^ (e1 + 1074) = 0).
  { rewrite Hsplit, Z.mul_assoc. apply Z.mod_mul. lia. }
  assert (Hdiv : (Zpos n * 2 ^ 1074) / 2 ^ (e1 + 1074) = Zpos n * 2 ^ (- e1)).
  { rewrite Hsplit, Z.mul_assoc. apply Z.div_mul. lia. }
  rewrite Hmod, Hdiv in Hm1.
  destruct Hm1 as [Hm1 | [_ Hne]]; [| now contradiction Hne].
  destruct Hres as [[H0 _] | (m2 & e2 & Hc & Hle & Hv & Hr)]; [nia |].
  pose proof (canonical_exponent m2 e2 Hc) as He2.
  rewrite (Q e2) in Hv.
  assert (Hv' : Zpos m2 * 2 ^ (e2 + 1074) = Zpos n * 2 ^ 1074).
  { rewrite Hv, Hm1, Hsplit. ring. }
  pose proof (digits_of_value m2 e2 n He2 Hv') as Hd2.
  assert (E2 : e2 = e1).
  { apply canonical_iff in Hc. rewrite Hd2 in Hc. now symmetry. }
  exists m2, e2. split; [exact Hc |]. split; [lia |]. split; [exact Hv' |].
  rewrite Hr. destruct (Z.leb_spec e2 971); [reflexivity | lia].
Qed.

Lemma round_whole_eq (s : bool) (m : positive) (e : Z) (n : positive) :
  -1074 <= e -> Zpos m * 2 ^ (e + 1074) = Zpos n * 2 ^ 1074 ->
  Zpos n < 2 ^ 53 ->
  binary_round prec emax s m e = binary_round prec emax s n 0.
Proof.
  intros He HV Hn.
  destruct (round_whole s m e n He HV Hn) as (m2 & e2 & C2 & _ & V2 & ->).
  destruct (round_whole s n 0 n ltac:(lia) eq_refl Hn)
    as (m3 & e3 & C3 & _ & V3 & ->).
  destruct (canonical_unique m2 e2 m3 e3 C2 C3 ltac:(lia)) as [-> ->].
  reflexivity.
Qed.

(** Normalising any writing of a whole number below [2^53] gives the
    float of that number. *)
Lemma normalize_whole (M e N : Z) :
  -1074 <= e -> M * 2 ^ (e + 1074) = N * 2 ^ 1074 -> Z.abs N < 2 ^ 53 ->
  binary_normalize prec emax M e false = of_int N.
Proof.
  intros He HV HN.
  assert (HP : 0 < 2 ^ (e + 1074)) by (apply pow2_pos; lia).
  assert (HQ : 0 < 2 ^ 1074) by (apply pow2_pos; lia).
  unfold of_int. destruct M as [|m|m]; cbn [binary_normalize].
  - assert (N = 0) by nia. subst N. reflexivity.
  - destruct N as [|n|n]; try nia. cbn [binary_normalize].
    apply round_whole_eq; [assumption | assumption | exact HN].
  - destruct N as [|n|n]; try nia. cbn [binary_normalize].
    apply round_whole_eq; [assumption | | exact HN].
    rewrite <- !Pos2Z.opp_pos in HV. nia.
Qed.

(** The float of a whole number below [2^53] carries its exact value. *)
Lemma of_int_scaled (N : Z) :
  Z.abs N < 2 ^ 53 ->
  (N = 0 /\ of_int N = S754_zero false)
  \/ exists s m e,
       of_int N = S754_finite s m e /\ -1074 <= e
       /\ cond_Zopp s (Zpos m) * 2 ^ (e + 1074) = N * 2 ^ 1074.
Proof.
  intros HN. destruct N as [|n|n].
  - left. split; reflexivity.
  - right. destruct (round_whole false n 0 n ltac:(lia) eq_refl HN)
      as (m2 & e2 & _ & He2 & V2 & E).
    exists false, m2, e2. split; [exact E |]. split; [lia | exact V2].
  - right. destruct (round_whole true n 0 n ltac:(lia) eq_refl HN)
      as (m2 & e2 & _ & He2 & V2 & E).
    exists true, m2, e2. split; [exact E |]. split; [lia |].
    cbn [cond_Zopp]. rewrite <- Pos2Z.opp_pos. nia.
Qed.

Lemma of_int_opp (N : Z) :
  N <> 0 -> Z.abs N < 2 ^ 53 -> of_int (- N) = SFopp (of_int N).
Proof.
  intros H0 HN. destruct N as [|n|n]; [contradiction | |].
  - change (- Zpos n) with (Zneg n). unfold of_int. cbn [binary_normalize].
    destruct (round_whole true n 0 n ltac:(lia) eq_refl HN)
      as (m2 & e2 & C2 & _ & V2 & ->).
    destruct (round_whole false n 0 n ltac:(lia) eq_refl HN)
      as (m3 & e3 & C3 & _ & V3 & ->).
    destruct (canonical_unique m2 e2 m3 e3 C2 C3 ltac:(lia)) as [-> ->].
    reflexivity.
  - change (- Zneg n) with (Zpos n). unfold of_int. cbn [binary_normalize].
    destruct (round_whole true n 0 n ltac:(lia) eq_refl HN)
      as (m2 & e2 & C2 & _ & V2 & ->).
    destruct (round_whole false n 0 n ltac:(lia) eq_refl HN)
      as (m3 & e3 & C3 & _ & V3 & ->).
    destruct (canonical_unique m2 e2 m3 e3 C2 C3 ltac:(lia)) as [-> ->].
    reflexivity.
Qed.

Lemma aligned_value (s : bool) (m : positive) (e ez : Z) (N : Z) :
  -1074 <= ez -> ez <= e ->
  cond_Zopp s (Zpos m) * 2 ^ (e + 1074) = N * 2 ^ 1074 ->
  cond_Zopp s (Zpos (fst (shl_align m e ez))) * 2 ^ (ez + 1074) = N * 2 ^ 1074.
Proof.
  intros Hz He H.
  destruct (shl_align_value m e ez He) as [_ ->].
  assert (E : 2 ^ (e + 1074) = 2 ^ (e - ez) * 2 ^ (ez + 1074)).
  { rewrite <- Z.pow_add_r by lia. f_equal. lia. }
  rewrite E in H. destruct s; cbn [cond_Zopp] in *; rewrite <- H; ring.
Qed.

Lemma add_of_int (a b : Z) :
  Z.abs a < 2 ^ 53 -> Z.abs b < 2 ^ 53 -> Z.abs (a + b) < 2 ^ 53 ->
  add (of_int a) (of_int b) = of_int (a + b).
Proof.
  intros Ha Hb Hab.
  destruct (of_int_scaled a Ha) as [[-> Ea] | (sa & ma & ea & Ea & Hea & Va)];
    destruct (of_int_scaled b Hb) as [[-> Eb] | (sb & mb & eb & Eb & Heb & Vb)].
  - reflexivity.
  - rewrite Z.add_0_l, Eb. reflexivity.
  - rewrite Z.add_0_r, Ea. reflexivity.
  - rewrite Ea, Eb. unfold add, SFadd.
    set (ez := Z.min ea eb).
    apply normalize_whole; [lia | | exact Hab].
    rewrite Z.mul_add_distr_r.
    rewrite (aligned_value sa ma ea ez a), (aligned_value sb mb eb ez b);
      try assumption; try lia.
Qed.

Lemma sub_of_int (a b : Z) :
  Z.abs a < 2 ^ 53 -> Z.abs b < 2 ^ 53 -> Z.abs (a - b) < 2 ^ 53 ->
  sub (of_int a) (of_int b) = of_int (a - b).
Proof.
  intros Ha Hb Hab.
  destruct (of_int_scaled a Ha) as [[-> Ea] | (sa & ma & ea & Ea & Hea & Va)];
    destruct (of_int_scaled b Hb) as [[-> Eb] | (sb & mb & eb & Eb & Heb & Vb)].
  - reflexivity.
  - assert (H0 : b <> 0) by (intros ->; discriminate Eb).
    rewrite Z.sub_0_l, (of_int_opp b H0 Hb), Eb. reflexivity.
  - rewrite Z.sub_0_r, Ea. reflexivity.
  - rewrite Ea, Eb. unfold sub, SFsub.
    set (ez := Z.min ea eb).
    apply normalize_whole; [lia | | exact Hab].
    rewrite Z.mul_sub_distr_r.
    rewrite (aligned_value sa ma ea ez a), (aligned_value sb mb eb ez b);
      try assumption; try lia.
Qed.

Lemma whole_size_nonneg (l : list Z) : 0 <= whole_size l.
Proof. induction l as [|n l IH]; cbn [whole_size fold_right]; [lia |].
  fold (whole_size l). lia.
Qed.

Lemma whole_sum_bound (l : list Z) : Z.abs (whole_sum l) <= whole_size l.
Proof.
  induction l as [|n l IH]; cbn [whole_sum whole_size fold_right]; [lia |].
  fold (whole_sum l). fold (whole_size l). lia.
Qed.

Lemma fold_add_of_int (l : list Z) :
  forall acc,
    Z.abs acc + whole_size l < 2 ^ 53 ->
    fold_left add (map of_int l) (of_int acc) = of_int (acc + whole_sum l).
Proof.
  induction l as [|n l IH]; intros acc H.
  - cbn. now rewrite Z.add_0_r.
  - cbn [map fold_left whole_sum whole_size fold_right] in *.
    fold (whole_sum l). fold (whole_size l) in H.
    pose proof (whole_size_nonneg l).
    rewrite add_of_int by lia. rewrite IH by lia. f_equal. lia.
Qed.

Lemma py_sum_of_int (l : list Z) :
  whole_size l < 2 ^ 53 -> py_sum (map of_int l) = of_int (whole_sum l).
Proof.
  intros H. unfold py_sum. change zero with (of_int 0).
  rewrite fold_add_of_int by (cbn; lia). reflexivity.
Qed.

Lemma scaled_of_int (N : Z) :
  Z.abs N < 2 ^ 53 -> scaled (of_int N) = N * 2 ^ 1074.
Proof.
  intros HN.
  destruct (of_int_scaled N HN) as [[-> ->] | (s & m & e & -> & _ & V)];
    [reflexivity | exact V].
Qed.

End Exact.

(** C1, as the code has it. [render_pdf] computes the gross as [sum] of
    the earnings amounts, the total deduction as [sum] of the deductions
    amounts and the net pay as their difference, in binary64 arithmetic.
    When every amount is a whole number and the absolute values of all the
    amounts add up to less than [2^53], the three totals are exact: the
    gross is the sum of the earnings, the total deduction the sum of the
    deductions, and the net pay is exactly the one less the other. *)
Theorem totals_exact_for_whole_numbers (earnings deductions : list LineItem)
    (es ds : list Z) :
  map amount earnings = map of_int es ->
  map amount deductions = map of_int ds ->
  whole_size es + whole_size ds < 2 ^ 53 ->
  let t := compute_totals earnings deductions in
  gross t = of_int (whole_sum es)
  /\ total_deduction t = of_int (whole_sum ds)
  /\ net_pay t = of_int (whole_sum es - whole_sum ds)
  /\ scaled (net_pay t) = (whole_sum es - whole_sum ds) * 2 ^ 1074.
Proof.
  intros He Hd Hsize. cbv zeta.
  pose proof (whole_size_nonneg es). pose proof (whole_size_nonneg ds).
  pose proof (whole_sum_bound es). pose proof (whole_sum_bound ds).
  unfold compute_totals. cbv zeta. cbn [gross total_deduction net_pay].
  rewrite He, Hd, !py_sum_of_int by lia.
  split; [reflexivity |]. split; [reflexivity |].
  rewrite sub_of_int by lia. split; [reflexivity |].
  apply scaled_of_int. lia.
Qed.

Lemma totals_exact_for_whole_numbers_witness :
  map amount Sample.earnings = map of_int [50000; 10000]
  /\ map amount Sample.deductions = map of_int [5000]
  /\ net_pay (compute_totals Sample.earnings Sample.deductions) = of_int 55000
  /\ scaled (net_pay (compute_totals Sample.earnings Sample.deductions))
     = 55000 * 2 ^ 1074.
Proof.
  split; [reflexivity |]. split; [reflexivity |].
  exact (proj2 (proj2
    (totals_exact_for_whole_numbers Sample.earnings Sample.deductions
       [50000; 10000] [5000] eq_refl eq_refl ltac:(vm_compute; reflexivity)))).
Defined.

(** C1, as the specification has it, fails: with one earning of
    50,000,000.10 and one deduction of 0.03, each the nearest double, the
    gross and the total deduction are those two numbers, and the net pay
    differs from their exact difference by more than [1e-9]. *)
Lemma net_pay_tolerance_counterexample :
  let a := dec_lit 5000000010 100 in
  let b := dec_lit 3 100 in
  let t :=
    compute_totals [ {| label := lit "Basic"; amount := a |} ]
      [ {| label := lit "Tax"; amount := b |} ] in
  gross t = a
  /\ total_deduction t = b
  /\ is_finite (net_pay t) = true
  /\ 2 ^ 1074 < 10 ^ 9 * Z.abs (scaled (net_pay t) - (scaled a - scaled b)).
Proof.
  cbv zeta. repeat split; vm_compute; reflexivity.
Qed.

(* ================================================================== *)
(** * How a render fails *)
(* ================================================================== *)

Section FailureFacts.

Local Open Scope render_scope.
Local Opaque sub mul add div of_int mm fmt_currency lit.

Lemma raises_bind_l {A B} (m : R A) (k : A -> R B) e :
  raises m e -> raises (bind m k) e.
Proof. intros H st. unfold bind. now rewrite H. Qed.

Lemma raises_bind_r {A B} (m : R A) (k : A -> R B) a cs ys e :
  yields m a cs ys -> raises (k a) e -> raises (bind m k) e.
Proof. intros Hm Hk st. unfold bind. rewrite Hm. apply Hk. Qed.

Lemma raises_dict_index (d : list (pystr * pystr)) (key : pystr) :
  dict_get d key = None -> raises (dict_index d key) (KeyError key).
Proof. intros H st. unfold dict_index. now rewrite H. Qed.

Lemma raises_io_step (msg : pystr) : raises (io_step (Some msg)) (OSError msg).
Proof. intros st. reflexivity. Qed.

Variable self : Exporter.
Variable w : World.

Lemma raises_items_section x0 x1 y title items sym labels key total :
  dict_get labels key = None ->
  raises (items_section self x0 x1 y title items sym labels key total)
    (KeyError key).
Proof.
  intros H. unfold items_section.
  eapply raises_bind_r; [apply yields_section_title |]. cbv beta.
  destruct (yields_line_items self x0 x1 (sub y (of_int 20)) items sym)
    as (cs & Hy & _).
  eapply raises_bind_r; [exact Hy |]. cbv beta.
  eapply raises_bind_r; [apply yields_emit |].
  apply raises_bind_l, raises_dict_index, H.
Qed.

Lemma raises_net_pay x0 x1 y sym labels net :
  dict_get labels (lit "net_pay_label") = None ->
  raises (net_pay_block x0 x1 y sym labels net)
    (KeyError (lit "net_pay_label")).
Proof.
  intros H. unfold net_pay_block. cbv zeta.
  eapply raises_bind_r; [apply yields_sep |].
  eapply raises_bind_r; [apply yields_down |]. cbv beta.
  eapply raises_bind_r; [apply yields_emit |].
  apply raises_bind_l, raises_dict_index, H.
Qed.

Lemma raises_page l1 l2 pd employee earnings deductions labels logo sig sym
    cfg gen key :
  first_missing_label labels = Some key ->
  raises (page self w l1 l2 pd employee earnings deductions labels logo sig
            sym cfg gen) (KeyError key).
Proof.
  unfold first_missing_label. intros Hkey. unfold page.
  destruct (page_size self) as [width height]. cbv zeta.
  set (x0 := margin self). set (x1 := sub width (margin self)).
  set (y0 := sub height (margin self)).
  eapply raises_bind_r; [apply yields_set_y |]. cbv beta.
  destruct (yields_header w x0 x1 y0 width height l1 l2 pd logo)
    as (c1 & H1 & _).
  cbv zeta in H1. eapply raises_bind_r; [exact H1 |]. cbv beta.
  match goal with |- raises (bind (employee_info_block _ _ _ ?ya _ _) _) _ =>
    destruct (yields_employee_info self x0 x1 ya employee pd) as (c2 & H2 & _)
  end.
  cbv zeta in H2. eapply raises_bind_r; [exact H2 |]. cbv beta.
  destruct (dict_get labels (lit "gross_income_label")) as [gl |] eqn:Hg.
  2:{ injection Hkey as <-. apply raises_bind_l, raises_items_section, Hg. }
  match goal with
  | |- raises (bind (items_section _ _ _ ?yb ?t ?its _ _ ?k ?tot) _) _ =>
      destruct (yields_items_section self x0 x1 yb t its sym labels k gl tot Hg)
        as (c3 & H3 & _)
  end.
  cbv zeta in H3. eapply raises_bind_r; [exact H3 |]. cbv beta.
  eapply raises_bind_r; [apply yields_after_earnings |]. cbv beta.
  destruct (dict_get labels (lit "total_deduction_label")) as [dl |] eqn:Hd.
  2:{ injection Hkey as <-. apply raises_bind_l, raises_items_section, Hd. }
  match goal with
  | |- raises (bind (items_section _ _ _ ?yb ?t ?its _ _ ?k ?tot) _) _ =>
      destruct (yields_items_section self x0 x1 yb t its sym labels k dl tot Hd)
        as (c5 & H5 & _)
  end.
  cbv zeta in H5. eapply raises_bind_r; [exact H5 |]. cbv beta.
  destruct (dict_get labels (lit "net_pay_label")) as [nl |] eqn:Hn;
    [discriminate |].
  injection Hkey as <-. apply raises_bind_l, raises_net_pay, Hn.
Qed.

Lemma first_missing_label_none labels :
  first_missing_label labels = None ->
  exists gl dl nl, has_labels labels gl dl nl.
Proof.
  unfold first_missing_label, has_labels.
  destruct (dict_get labels (lit "gross_income_label")) as [gl |]; [| discriminate].
  destruct (dict_get labels (lit "total_deduction_label")) as [dl |]; [| discriminate].
  destruct (dict_get labels (lit "net_pay_label")) as [nl |]; [| discriminate].
  intros _. now exists gl, dl, nl.
Qed.

Lemma render_pdf_cases out l1 l2 pd employee earnings deductions labels logo
    sig sym cfg gen :
  match render_failure w out labels with
  | Some e =>
      render_pdf self w out l1 l2 pd employee earnings deductions labels logo
        sig sym cfg gen = Raise e
  | None =>
      exists y cs ys,
        render_pdf self w out l1 l2 pd employee earnings deductions labels
          logo sig sym cfg gen
        = Ok (resolve w out, y, {| canvas := cs ++ [ShowPage; Save]; trail := ys |})
  end.
Proof.
  unfold render_failure.
  destruct (mkdir_error w (resolve w out)) as [msg |] eqn:Hm.
  { unfold render_pdf, render_pdf_R. cbv zeta. rewrite Hm.
    apply raises_bind_l, raises_io_step. }
  destruct (first_missing_label labels) as [key |] eqn:Hk.
  { unfold render_pdf, render_pdf_R. cbv zeta. rewrite Hm.
    eapply raises_bind_r; [apply yields_io_step |].
    apply raises_bind_l, raises_page, Hk. }
  destruct (first_missing_label_none labels Hk) as (gl & dl & nl & Hl).
  destruct (save_error w (resolve w out)) as [msg |] eqn:Hs.
  { unfold render_pdf, render_pdf_R. cbv zeta. rewrite Hm, Hs.
    destruct (yields_page self w l1 l2 pd employee earnings deductions labels
                logo sig sym cfg (stamp w gen) gl dl nl Hl) as (cs & Hp & _).
    cbv zeta in Hp. fold (stamp w gen).
    eapply raises_bind_r; [apply yields_io_step |].
    eapply raises_bind_r; [exact Hp |]. cbv beta.
    eapply raises_bind_r; [apply yields_emit |].
    apply raises_bind_l, raises_io_step. }
  destruct (render_pdf_ok self w out l1 l2 pd employee earnings deductions
              labels logo sig sym cfg gen gl dl nl Hl Hm Hs) as (cs & H & _).
  cbv zeta in H. rewrite H. now eexists _, cs, _.
Qed.

End FailureFacts.

(** X1. On a page whose coordinates are finite numbers, a call of
    [render_pdf] raises exactly when [render_failure] names an exception,
    and then raises that one: the [OSError] of the output directory that
    cannot be made, before anything is drawn; otherwise the [KeyError] of
    the first of [gross_income_label], [total_deduction_label] and
    [net_pay_label] that [totals_labels] does not hold; otherwise the
    [OSError] of the file that cannot be saved. *)
Theorem render_pdf_raises_iff (self : Exporter) (w : World) out l1 l2 pd
    employee earnings deductions labels logo sig sym cfg gen (e : exn) :
  finite_page self (List.length earnings) (List.length deductions) cfg
    (drawn w sig) = true ->
  (render_pdf self w out l1 l2 pd employee earnings deductions labels logo sig
     sym cfg gen = Raise e
   <-> render_failure w out labels = Some e).
Proof.
  intros _.
  pose proof (render_pdf_cases self w out l1 l2 pd employee earnings deductions
                labels logo sig sym cfg gen) as H.
  destruct (render_failure w out labels) as [e' |].
  - rewrite H. split; intros [= ->]; reflexivity.
  - destruct H as (y & cs & ys & ->). split; discriminate.
Qed.

Lemma render_pdf_raises_iff_witness :
  finite_page default_exporter 2 1 (Some Sample.footer)
    (drawn Sample.world None) = true
  /\ render_pdf default_exporter Sample.world (lit "out/E001.pdf")
       (lit "ACME") (lit "Payslip") (lit "January 2026") Sample.employee
       Sample.earnings Sample.deductions
       [(lit "gross_income_label", lit "GROSS INCOME")] None None
       (Some Sample.pound) (Some Sample.footer) None
     = Raise (KeyError (lit "total_deduction_label")).
Proof.
  assert (Hf : finite_page default_exporter 2 1 (Some Sample.footer)
                 (drawn Sample.world None) = true) by (vm_compute; reflexivity).
  split; [exact Hf |].
  apply (render_pdf_raises_iff default_exporter Sample.world
           (lit "out/E001.pdf") (lit "ACME") (lit "Payslip")
           (lit "January 2026") Sample.employee Sample.earnings
           Sample.deductions [(lit "gross_income_label", lit "GROSS INCOME")]
           None None (Some Sample.pound) (Some Sample.footer) None
           (KeyError (lit "total_deduction_label")) Hf).
  reflexivity.
Defined.

(* ================================================================== *)
(** * The batch: labels, failures and what a run leaves behind *)
(* ================================================================== *)

Section BatchMore.

Import Main.

Lemma eqb_eq (a b : pystr) : PyStr.eqb a b = true <-> a = b.
Proof.
  unfold PyStr.eqb. destruct (list_eq_dec N.eq_dec a b); split;
    congruence.
Qed.

Lemma eqb_refl (a : pystr) : PyStr.eqb a a = true.
Proof. now apply eqb_eq. Qed.

Lemma dict_get_app {V} (d1 d2 : list (pystr * V)) (k : pystr) :
  dict_get (d1 ++ d2) k =
  match dict_get d1 k with Some v => Some v | None => dict_get d2 k end.
Proof.
  induction d1 as [|[k' v'] d1 IH]; [reflexivity |].
  cbn [app dict_get]. destruct (PyStr.eqb k' k); [reflexivity | exact IH].
Qed.

Lemma dict_get_setdefault (d : list (pystr * pystr)) (k v k' : pystr) :
  dict_get (setdefault d k v) k' =
  match dict_get d k' with
  | Some x => Some x
  | None => if PyStr.eqb k k' then Some v else None
  end.
Proof.
  unfold setdefault. destruct (dict_get d k) as [x |] eqn:Hk.
  - destruct (dict_get d k') as [x' |] eqn:Hk'; [reflexivity |].
    destruct (PyStr.eqb k k') eqn:He; [| reflexivity].
    apply eqb_eq in He. subst k'. congruence.
  - rewrite dict_get_app. destruct (dict_get d k'); reflexivity.
Qed.

Lemma with_default_labels_get (d : list (pystr * pystr)) (key : pystr) :
  dict_get (with_default_labels d) key =
  match dict_get d key with
  | Some v => Some v
  | None => dict_get default_labels key
  end.
Proof.
  unfold with_default_labels. cbv zeta. rewrite !dict_get_setdefault.
  destruct (dict_get d key); [reflexivity |].
  unfold default_labels. cbn [dict_get].
  destruct (PyStr.eqb (lit "gross_income_label") key); [reflexivity |].
  destruct (PyStr.eqb (lit "total_deduction_label") key); reflexivity.
Qed.

Lemma with_default_labels_complete (d : list (pystr * pystr)) :
  first_missing_label (with_default_labels d) = None.
Proof.
  unfold first_missing_label. rewrite !with_default_labels_get.
  destruct (dict_get d (lit "gross_income_label"));
    destruct (dict_get d (lit "total_deduction_label"));
    destruct (dict_get d (lit "net_pay_label")); reflexivity.
Qed.

Lemma render_failure_none (w : World) out labels :
  render_failure w out labels = None ->
  mkdir_error w (resolve w out) = None
  /\ first_missing_label labels = None
  /\ save_error w (resolve w out) = None.
Proof.
  unfold render_failure.
  destruct (mkdir_error w (resolve w out)); [discriminate |].
  destruct (first_missing_label labels); [discriminate |].
  destruct (save_error w (resolve w out)); [discriminate |].
  now intros _.
Qed.

Variable env : Env.
Variable settings : Settings.

Lemma render_employee_cases (emp : EmployeeRow) :
  match render_failure (world env) (out_pdf_of env emp)
          (with_default_labels (totals_labels_cfg settings)) with
  | Some e => render_employee env settings emp = Raise e
  | None =>
      exists y cs ys,
        render_employee env settings emp
        = Ok (resolve (world env) (out_pdf_of env emp), y,
              {| canvas := cs ++ [ShowPage; Save]; trail := ys |})
  end.
Proof. unfold render_employee, render_for. apply render_pdf_cases. Qed.

Lemma employees_loop_ok (before rest : list EmployeeRow) :
  Forall (fun emp => exists r, render_employee env settings emp = Ok r) before ->
  forall acc,
    employees_loop env settings default_exporter (logo_path_of env settings)
      (signature_path_of env settings)
      (with_default_labels (totals_labels_cfg settings)) (before ++ rest) acc
    = employees_loop env settings default_exporter (logo_path_of env settings)
        (signature_path_of env settings)
        (with_default_labels (totals_labels_cfg settings)) rest
        {| manifest_rows :=
             manifest_rows acc ++ map (generated_row env settings) before;
           pdf_paths := pdf_paths acc ++ map (out_pdf_of env) before;
           files := files acc ++ flat_map (file_of env settings) before;
           manifest_written := manifest_written acc;
           raised := raised acc |}.
Proof.
  induction 1 as [|emp before [r Hr] _ IH]; intros acc.
  - cbn [app map flat_map]. rewrite !app_nil_r. now destruct acc.
  - cbn [app employees_loop map flat_map]. unfold file_of at 1. rewrite Hr.
    unfold render_employee in Hr. rewrite Hr.
    destruct r as [[p y] st]. rewrite IH.
    cbn [manifest_rows pdf_paths files manifest_written raised].
    rewrite <- !app_assoc. reflexivity.
Qed.

Lemma is_generated_generated_row (emp : EmployeeRow) :
  is_generated (generated_row env settings emp) = true.
Proof. apply eqb_refl. Qed.

Lemma is_generated_error_row (emp : EmployeeRow) (e : exn) :
  is_generated (error_row env emp e) = false.
Proof.
  unfold is_generated. destruct (PyStr.eqb _ _) eqn:H; [| reflexivity].
  apply eqb_eq in H. discriminate H.
Qed.

Lemma employees_loop_consistent (employees : list EmployeeRow) :
  forall acc, consistent acc ->
    consistent
      (employees_loop env settings default_exporter (logo_path_of env settings)
         (signature_path_of env settings)
         (with_default_labels (totals_labels_cfg settings)) employees acc).
Proof.
  induction employees as [|emp rest IH]; intros acc [Hf Hp]; [now split |].
  cbn [employees_loop].
  destruct (render_for env settings default_exporter (logo_path_of env settings)
              (signature_path_of env settings)
              (with_default_labels (totals_labels_cfg settings)) emp)
    as [[[p y] st] | e].
  - apply IH. split; cbn [files manifest_rows pdf_paths].
    + rewrite filter_app, !map_app, Hf. cbn [filter].
      rewrite is_generated_generated_row. reflexivity.
    + rewrite !length_app, Hp. reflexivity.
  - assert (Hc : consistent
        {| manifest_rows := manifest_rows acc ++ [error_row env emp e];
           pdf_paths := pdf_paths acc; files := files acc;
           manifest_written := manifest_written acc; raised := raised acc |}).
    { split; cbn [files manifest_rows pdf_paths]; [| exact Hp].
      rewrite filter_app, map_app, Hf. cbn [filter].
      rewrite is_generated_error_row. cbn [map]. now rewrite app_nil_r. }
    destruct (fail_fast settings); [| apply IH, Hc].
    destruct Hc as [Hf' Hp']. split; [exact Hf' | exact Hp'].
Qed.

End BatchMore.

(** X2. [main] fills in the three labels of the totals that the settings
    leave out: a label that is configured is kept as it is, the empty
    one too; a missing one becomes its key in upper case with spaces for
    underscores; no other key is added. The render that follows therefore
    finds every label it indexes. *)
Theorem default_labels_fill_gaps (d : list (pystr * pystr)) :
  (forall key,
     dict_get (Main.with_default_labels d) key
     = match dict_get d key with
       | Some v => Some v
       | None => dict_get default_labels key
       end)
  /\ first_missing_label (Main.with_default_labels d) = None.
Proof.
  split; [apply with_default_labels_get | apply with_default_labels_complete].
Qed.

(** X3. As [main] calls it, on a page whose coordinates are finite
    numbers, the render of one employee raises only when the file system
    refuses: the output directory cannot be made, or, that done, the file
    cannot be saved. The exception is then that [OSError]; no [KeyError]
    for a label of the totals reaches the loop. *)
Theorem render_employee_raises_iff (env : Main.Env) (settings : Main.Settings)
    (emp : Main.EmployeeRow) (e : exn) :
  let w := Main.world env in
  let p := resolve w (Main.out_pdf_of env emp) in
  finite_payslip env settings emp = true ->
  (Main.render_employee env settings emp = Raise e
   <-> exists msg,
         e = OSError msg
         /\ (mkdir_error w p = Some msg
             \/ (mkdir_error w p = None /\ save_error w p = Some msg))).
Proof.
  intros w p _.
  pose proof (render_employee_cases env settings emp) as H.
  unfold render_failure in H. rewrite with_default_labels_complete in H.
  fold w in H. fold p in H.
  destruct (mkdir_error w p) as [m |].
  - rewrite H. split.
    + intros [= <-]. exists m. split; [reflexivity | now left].
    + intros (msg & -> & [[= ->] | [[=] _]]). reflexivity.
  - destruct (save_error w p) as [m |].
    + rewrite H. split.
      * intros [= <-]. exists m. split; [reflexivity | now right].
      * intros (msg & -> & [[=] | [_ [= ->]]]). reflexivity.
    + destruct H as (y & cs & ys & ->). split; [discriminate |].
      intros (msg & _ & [[=] | [_ [=]]]).
Qed.

Lemma render_employee_raises_iff_witness :
  finite_payslip SampleRun.env SampleRun.settings SampleRun.ben = true
  /\ Main.render_employee SampleRun.env SampleRun.settings SampleRun.ben
     = Raise (OSError (lit "[Errno 28] No space left on device")).
Proof.
  assert (Hf : finite_payslip SampleRun.env SampleRun.settings SampleRun.ben
               = true) by (vm_compute; reflexivity).
  split; [exact Hf |].
  apply (render_employee_raises_iff SampleRun.env SampleRun.settings
           SampleRun.ben (OSError (lit "[Errno 28] No space left on device"))
           Hf).
  exists (lit "[Errno 28] No space left on device").
  split; [reflexivity |]. right. split; reflexivity.
Defined.

(** X4. With fail-fast set, the first employee whose render raises ends
    the run with that exception: the manifest rows are those of the
    employees before it, all [generated], followed by its error row; the
    PDFs of the employees before it have been written and stay; the
    employees after it are not rendered and get no row; and the manifest
    file is not written. *)
Theorem fail_fast_stops_at_first_failure (env : Main.Env)
    (settings : Main.Settings)
    (before after : list Main.EmployeeRow) (bad : Main.EmployeeRow) (e : exn) :
  Main.fail_fast settings = true ->
  Main.validate env settings = None ->
  Main.load_result env = inr (before ++ bad :: after) ->
  Forall (fun emp => exists r, Main.render_employee env settings emp = Ok r)
    before ->
  Main.render_employee env settings bad = Raise e ->
  let out := Main.main env settings in
  Main.raised out = Some (Main.RenderFailed e)
  /\ Main.manifest_written out = false
  /\ Main.manifest_rows out
     = map (Main.generated_row env settings) before ++ [Main.error_row env bad e]
  /\ Main.pdf_paths out = map (Main.out_pdf_of env) before
  /\ Main.files out = flat_map (file_of env settings) before.
Proof.
  intros Hff Hv Hl Hok Hbad out. unfold out, Main.main.
  rewrite Hv, Hl. cbv zeta.
  rewrite (employees_loop_ok env settings before (bad :: after) Hok).
  cbn [Main.employees_loop]. unfold Main.render_employee in Hbad.
  rewrite Hbad, Hff.
  cbn [Main.raised Main.manifest_rows Main.pdf_paths Main.files
       Main.manifest_written Main.nothing_done app].
  repeat split; reflexivity.
Qed.

Lemma fail_fast_stops_at_first_failure_witness :
  let env := env_three in
  let settings := SampleRun.fail_fast_settings in
  let e := OSError (lit "[Errno 28] No space left on device") in
  Main.load_result env = inr ([SampleRun.ada] ++ SampleRun.ben :: [SampleRun.ada])
  /\ Main.raised (Main.main env settings) = Some (Main.RenderFailed e)
  /\ Main.manifest_rows (Main.main env settings)
     = [Main.generated_row env settings SampleRun.ada;
        Main.error_row env SampleRun.ben e].
Proof.
  cbv zeta. split; [reflexivity |].
  assert (Hok : Forall
    (fun emp => exists r,
       Main.render_employee env_three SampleRun.fail_fast_settings emp = Ok r)
    [SampleRun.ada]).
  { constructor; [| constructor]. eexists. vm_compute. reflexivity. }
  destruct (fail_fast_stops_at_first_failure env_three
              SampleRun.fail_fast_settings [SampleRun.ada] [SampleRun.ada]
              SampleRun.ben
              (OSError (lit "[Errno 28] No space left on device"))
              eq_refl eq_refl eq_refl Hok
              ltac:(vm_compute; reflexivity)) as (H1 & _ & H3 & _).
  split; [exact H1 | exact H3].
Defined.

(** X21. When no render fails, the employee loop does the same with
    fail-fast and without: it adds one row for each employee, in order, all
    [generated], one output path and one file for each, and no exception
    leaves it. *)
Theorem run_without_failures (env : Main.Env) (settings : Main.Settings)
    (employees : list Main.EmployeeRow) (acc : Main.Outcome) :
  Forall (fun emp => exists r, Main.render_employee env settings emp = Ok r)
    employees ->
  let out :=
    Main.employees_loop env settings default_exporter
      (Main.logo_path_of env settings) (Main.signature_path_of env settings)
      (Main.with_default_labels (Main.totals_labels_cfg settings))
      employees acc in
  Main.raised out = Main.raised acc
  /\ Main.manifest_rows out
     = Main.manifest_rows acc ++ map (Main.generated_row env settings) employees
  /\ Main.pdf_paths out
     = Main.pdf_paths acc ++ map (Main.out_pdf_of env) employees
  /\ Main.files out
     = Main.files acc ++ flat_map (file_of env settings) employees.
Proof.
  intros Hok out. unfold out.
  pose proof (employees_loop_ok env settings employees [] Hok acc) as E.
  rewrite app_nil_r in E. cbn [Main.employees_loop] in E. rewrite E.
  cbn [Main.raised Main.manifest_rows Main.pdf_paths Main.files].
  repeat split; reflexivity.
Qed.

Lemma run_without_failures_witness :
  let out :=
    Main.employees_loop env_all_saved SampleRun.fail_fast_settings
      default_exporter
      (Main.logo_path_of env_all_saved SampleRun.fail_fast_settings)
      (Main.signature_path_of env_all_saved SampleRun.fail_fast_settings)
      (Main.with_default_labels
         (Main.totals_labels_cfg SampleRun.fail_fast_settings))
      [SampleRun.ada; SampleRun.ben] Main.nothing_done in
  Main.fail_fast SampleRun.fail_fast_settings = true
  /\ Main.raised out = None
  /\ Main.manifest_rows out
     = [Main.generated_row env_all_saved SampleRun.fail_fast_settings SampleRun.ada;
        Main.generated_row env_all_saved SampleRun.fail_fast_settings SampleRun.ben].
Proof.
  cbv zeta. split; [reflexivity |].
  assert (Hok : Forall
    (fun emp => exists r,
       Main.render_employee env_all_saved SampleRun.fail_fast_settings emp = Ok r)
    [SampleRun.ada; SampleRun.ben]).
  { constructor; [| constructor; [| constructor]];
      eexists; vm_compute; reflexivity. }
  destruct (run_without_failures env_all_saved SampleRun.fail_fast_settings
              [SampleRun.ada; SampleRun.ben] Main.nothing_done Hok)
    as (H1 & H2 & _).
  split; [exact H1 | exact H2].
Defined.

(** X5. Whatever the run does, the files it has written are exactly those
    the manifest rows with status [generated] name, in the same order, and
    one output path was recorded for each: a row with an error has no
    file, and a run that stops early leaves no file without its row. *)
Theorem written_files_match_manifest (env : Main.Env) (settings : Main.Settings) :
  let out := Main.main env settings in
  map fst (Main.files out)
  = map Main.row_pdf_path (filter is_generated (Main.manifest_rows out))
  /\ List.length (Main.pdf_paths out) = List.length (Main.files out).
Proof.
  cbv zeta. unfold Main.main.
  destruct (Main.validate env settings); [split; reflexivity |].
  destruct (Main.load_result env) as [msg | employees]; [split; reflexivity |].
  cbv zeta.
  pose proof (employees_loop_consistent env settings employees
                Main.nothing_done (conj eq_refl eq_refl)) as H.
  destruct (Main.raised _); exact H.
Qed.

(* ================================================================== *)
(** * Amounts, names and line items as [main] prepares them *)
(* ================================================================== *)

Section TextFacts.

Import Main.

Lemma without_commas_app (a b : pystr) :
  without_commas (a ++ b) = without_commas a ++ without_commas b.
Proof. apply filter_app. Qed.

Lemma without_commas_id (s : pystr) :
  Forall (fun c => c <> comma) s -> without_commas s = s.
Proof.
  induction 1 as [|c s Hc _ IH]; [reflexivity |].
  unfold without_commas in *. cbn [filter].
  destruct (N.eqb_spec c comma) as [-> | _]; [contradiction |].
  cbn [negb]. now rewrite IH.
Qed.

Lemma digit_not_comma (d : Z) : digit d <> comma.
Proof. unfold digit, comma. lia. Qed.

Lemma lead_digits_no_comma (h : Z) : Forall (fun c => c <> comma) (lead_digits h).
Proof.
  unfold lead_digits.
  destruct (h <? 10); [| destruct (h <? 100)];
    repeat constructor; apply digit_not_comma.
Qed.

Lemma pad3_no_comma (l : Z) : Forall (fun c => c <> comma) (pad3 l).
Proof. unfold pad3. repeat constructor; apply digit_not_comma. Qed.

Lemma int_text_without_commas (n : Z) :
  without_commas (int_text true n) = int_text false n.
Proof.
  unfold int_text. destruct (limbs_of n) as [|h t]; [reflexivity |].
  rewrite without_commas_app, (without_commas_id _ (lead_digits_no_comma h)).
  f_equal. induction t as [|l t IH]; [reflexivity |].
  cbn [flat_map]. rewrite !without_commas_app, IH.
  rewrite (without_commas_id _ (pad3_no_comma l)). reflexivity.
Qed.

Lemma format_fixed2_without_commas (x : float) :
  without_commas (format_fixed2 true x) = format_fixed2 false x.
Proof.
  destruct x as [s | s | | s m e]; try (destruct s; reflexivity); try reflexivity.
  unfold format_fixed2. cbv zeta.
  rewrite !without_commas_app, int_text_without_commas.
  f_equal; [destruct s; reflexivity |]. f_equal.
  rewrite <- without_commas_app.
  apply without_commas_id. repeat constructor;
    try apply digit_not_comma. discriminate.
Qed.

Lemma lstrip_idem (s : pystr) : lstrip (lstrip s) = lstrip s.
Proof.
  induction s as [|c s IH]; [reflexivity |].
  cbn [lstrip]. destruct (is_space c) eqn:Hc; [exact IH |].
  cbn [lstrip]. now rewrite Hc.
Qed.

Lemma lstrip_snoc (l : pystr) (c : codepoint) :
  is_space c = false -> lstrip (l ++ [c]) = lstrip l ++ [c].
Proof.
  intros Hc. induction l as [|a l IH]; cbn [app lstrip]; [now rewrite Hc |].
  destruct (is_space a); [exact IH | reflexivity].
Qed.

Lemma rstrip_cons (c : codepoint) (r : pystr) :
  is_space c = false -> rstrip (c :: r) = c :: rstrip r.
Proof.
  intros Hc. unfold rstrip. cbn [rev].
  now rewrite (lstrip_snoc _ _ Hc), rev_unit.
Qed.

Lemma rstrip_idem (s : pystr) : rstrip (rstrip s) = rstrip s.
Proof. unfold rstrip. now rewrite rev_involutive, lstrip_idem. Qed.

Lemma lstrip_head (s : pystr) :
  lstrip s = [] \/ exists c r, lstrip s = c :: r /\ is_space c = false.
Proof.
  induction s as [|c s IH]; [now left |].
  cbn [lstrip]. destruct (is_space c) eqn:Hc; [exact IH |].
  right. now exists c, s.
Qed.

Lemma strip_idem (s : pystr) : strip (strip s) = strip s.
Proof.
  unfold strip. destruct (lstrip_head s) as [-> | (c & r & -> & Hc)];
    [reflexivity |].
  rewrite (rstrip_cons _ _ Hc). cbn [lstrip]. rewrite Hc.
  now rewrite (rstrip_cons _ _ Hc), rstrip_idem.
Qed.

Lemma build_line_items_map parse emp (fields : list (list (pystr * pystr))) :
  _build_line_items parse emp fields
  = map (item_of parse emp) (filter is_kept fields).
Proof.
  induction fields as [|f rest IH]; [reflexivity |].
  cbn [_build_line_items filter]. unfold is_kept at 1.
  destruct (strip (get_or f (lit "label") [])) as [|a l] eqn:Hl;
    [exact IH |].
  destruct (strip (get_or f (lit "column") [])) as [|b c] eqn:Hc;
    [exact IH |].
  cbn [is_empty negb andb map]. rewrite IH. f_equal.
  unfold item_of. rewrite Hl, Hc. reflexivity.
Qed.

End TextFacts.

Lemma generated_row_amounts (env : Main.Env)
    (settings : Main.Settings) (emp : Main.EmployeeRow) p y st :
  Main.render_employee env settings emp = Ok (p, y, st) ->
  let sym := Main.currency_symbol settings in
  let row := Main.generated_row env settings emp in
  let earnings :=
    Main._build_line_items (Main.parse_float env) emp (Main.earnings_cfg settings) in
  let deductions :=
    Main._build_line_items (Main.parse_float env) emp (Main.deductions_cfg settings) in
  exists paid g taken d n stamp,
    right_strings (canvas st)
    = paid ++ [sym ++ g] ++ taken ++ [sym ++ d; sym ++ n; stamp]
    /\ List.length paid = List.length earnings
    /\ List.length taken = List.length deductions
    /\ Main.row_gross_income row = without_commas g
    /\ Main.row_total_deductions row = without_commas d
    /\ Main.row_net_pay row = without_commas n.
Proof.
  intros Hok sym row earnings deductions.
  pose proof (render_employee_cases env settings emp) as Hc.
  destruct (render_failure (Main.world env) (Main.out_pdf_of env emp)
              (Main.with_default_labels (Main.totals_labels_cfg settings)))
    as [e |] eqn:Hf; [congruence |].
  clear Hc. apply render_failure_none in Hf. destruct Hf as (Hm & Hk & Hs).
  destruct (first_missing_label_none _ Hk) as (gl & dl & nl & Hl).
  unfold Main.render_employee, Main.render_for in Hok.
  fold earnings in Hok. fold deductions in Hok. fold sym in Hok.
  match type of Hok with
  | render_pdf ?self ?w ?out ?l1 ?l2 ?pd ?em _ _ ?lb ?lg ?sg _ ?cf ?gn = _ =>
      destruct (render_pdf_ok self w out l1 l2 pd em earnings deductions lb lg
                  sg (Some sym) cf gn gl dl nl Hl Hm Hs) as (cs & H & Hr & _)
  end.
  cbv zeta in H, Hr. rewrite H in Hok.
  assert (Hcs : canvas st = cs ++ [ShowPage; Save]).
  { apply (f_equal (fun r : result (pystr * float * rstate) =>
                      match r with Ok (_, s) => canvas s | Raise _ => [] end))
      in Hok.
    symmetry. exact Hok. }
  rewrite Hcs, right_strings_app, Hr. cbn [right_strings].
  rewrite app_nil_r. unfold fmt_currency. cbv zeta.
  eexists (map _ earnings), _, (map _ deductions), _, _, _.
  split; [reflexivity |].
  split; [apply length_map |]. split; [apply length_map |].
  unfold row, Main.generated_row. cbv zeta.
  cbn [Main.row_gross_income Main.row_total_deductions Main.row_net_pay].
  rewrite !format_fixed2_without_commas.
  repeat split; reflexivity.
Qed.


(** X6. The three totals of a manifest row are the totals printed on the
    payslip it describes: the same texts without the currency symbol and
    without the commas between thousands. [paid] and [taken] are the
    amounts of the earnings and of the deductions, [g], [d] and [n] the
    gross, the total deduction and the net pay as the payslip shows them. *)
Theorem manifest_amounts_match_payslip (env : Main.Env)
    (settings : Main.Settings) (emp : Main.EmployeeRow) p y st :
  Main.render_employee env settings emp = Ok (p, y, st) ->
  let sym := Main.currency_symbol settings in
  let row := Main.generated_row env settings emp in
  let earnings :=
    Main._build_line_items (Main.parse_float env) emp (Main.earnings_cfg settings) in
  let deductions :=
    Main._build_line_items (Main.parse_float env) emp (Main.deductions_cfg settings) in
  exists paid g taken d n stamp,
    right_strings (canvas st)
    = paid ++ [sym ++ g] ++ taken ++ [sym ++ d; sym ++ n; stamp]
    /\ List.length paid = List.length earnings
    /\ List.length taken = List.length deductions
    /\ Main.row_gross_income row = without_commas g
    /\ Main.row_total_deductions row = without_commas d
    /\ Main.row_net_pay row = without_commas n.
Proof.
  exact (generated_row_amounts env settings emp p y st).
Qed.

Lemma manifest_amounts_match_payslip_witness :
  let env := SampleRun.env in
  let settings := SampleRun.settings in
  let row := Main.generated_row env settings SampleRun.ada in
  exists p y st,
    Main.render_employee env settings SampleRun.ada = Ok (p, y, st)
    /\ Main.row_gross_income row = lit "60000.00"
    /\ exists paid g taken d n stamp,
         right_strings (canvas st)
         = paid ++ [Sample.pound ++ g] ++ taken
             ++ [Sample.pound ++ d; Sample.pound ++ n; stamp]
         /\ List.length paid = 2%nat
         /\ List.length taken = 1%nat
         /\ Main.row_gross_income row = without_commas g
         /\ Main.row_total_deductions row = without_commas d
         /\ Main.row_net_pay row = without_commas n.
Proof.
  cbv zeta.
  destruct (Main.render_employee SampleRun.env SampleRun.settings SampleRun.ada)
    as [[[p y] st] | e] eqn:H.
  - exists p, y, st. split; [reflexivity |].
    split; [vm_compute; reflexivity |].
    exact (manifest_amounts_match_payslip SampleRun.env SampleRun.settings
             SampleRun.ada p y st H).
  - exfalso. vm_compute in H. discriminate H.
Defined.

(** X7. The part of the output file name that [main] makes from the
    employee's name holds no white space of any kind and none of the
    characters [_sanitise_filename_part] replaces, whatever the name. *)
Theorem safe_name_is_clean (emp : Main.EmployeeRow) :
  Forall (fun c => is_space c = false /\ ~ In c Main.unsafe_chars)
    (safe_name emp).
Proof.
  apply Forall_forall. intros c Hin. unfold safe_name, replace in Hin.
  apply in_flat_map in Hin. destruct Hin as (c0 & Hc0 & Hc).
  assert (H95 : is_space 95%N = false /\ ~ In 95%N Main.unsafe_chars).
  { split; [reflexivity |]. cbn. intros H.
    repeat (destruct H as [H | H]; [discriminate H |]). exact H. }
  destruct (N.eqb_spec c0 32) as [-> | Hne].
  { destruct Hc as [<- | []]. exact H95. }
  destruct Hc as [<- | []].
  unfold Main._sanitise_filename_part in Hc0. cbv zeta in Hc0.
  apply join_chars in Hc0. destruct Hc0 as [-> | (wd & Hwd & Hcw)];
    [contradiction |].
  pose proof (split_from_words
                (fold_left (fun s ch => replace ch (lit "-") s) Main.unsafe_chars
                   (strip (Main.name emp))) [] (Forall_nil _)) as Hws.
  pose proof (split_from_incl
                (fold_left (fun s ch => replace ch (lit "-") s) Main.unsafe_chars
                   (strip (Main.name emp))) []) as Hinc.
  rewrite Forall_forall in Hws, Hinc.
  destruct (Hws wd Hwd) as [_ Hsp]. rewrite Forall_forall in Hsp.
  split; [apply Hsp, Hcw |].
  destruct (N.eq_dec c0 45) as [-> | H45].
  { cbn. intros H.
    repeat (destruct H as [H | H]; [discriminate H |]). exact H. }
  apply (replace_all_chars Main.unsafe_chars c0 (strip (Main.name emp)) H45).
  apply (Hinc wd Hwd). exact Hcw.
Qed.

(** X8. [_build_line_items] keeps, in the order of the configuration, the
    fields whose label and column are both there once stripped, and makes
    one item of each: its label is the stripped label, so it is not empty
    and has no white space at either end, and its amount is [_safe_float]
    of the cell under the stripped column name, a column the row does not
    have counting as an empty cell. *)
Theorem build_line_items_kept_fields (parse : pystr -> option float)
    (emp : Main.EmployeeRow) (fields : list (list (pystr * pystr))) :
  let items := Main._build_line_items parse emp fields in
  items = map (item_of parse emp) (filter is_kept fields)
  /\ Forall (fun it => Exporter.label it <> []
                       /\ strip (Exporter.label it) = Exporter.label it) items.
Proof.
  cbv zeta. rewrite build_line_items_map. split; [reflexivity |].
  apply Forall_forall. intros it Hit. apply in_map_iff in Hit.
  destruct Hit as (f & <- & Hf). apply filter_In in Hf. destruct Hf as [_ Hk].
  unfold item_of. cbn [Exporter.label]. split; [| apply strip_idem].
  unfold is_kept in Hk. intros He. rewrite He in Hk. discriminate Hk.
Qed.

(* ================================================================== *)
(** * The validation of the branding assets *)
(* ================================================================== *)

(** X9. [validate_asset] lets an asset pass exactly when the resolved file
    exists, its extension in lower case is one of the allowed ones in
    lower case, or none is listed, and, when the resolution is enforced,
    the required size is set and is the size of the image. *)
Theorem validate_asset_passes_iff (fs : AssetValidation.FileSystem)
    (spec : AssetValidation.AssetSpec) :
  let p := AssetValidation.fs_resolve fs (AssetValidation.path spec) in
  let lower := AssetValidation.str_lower fs in
  AssetValidation.validate_asset fs spec = None
  <-> AssetValidation.fs_exists fs p = true
      /\ (AssetValidation.allowed_extensions spec = []
          \/ AssetValidation.mem (lower (AssetValidation.fs_suffix fs p))
               (map lower (AssetValidation.allowed_extensions spec)) = true)
      /\ (AssetValidation.enforce_resolution spec = true ->
          exists w h,
            AssetValidation.required_px spec = Some (w, h)
            /\ AssetValidation.image_size fs p = Some (w, h)).
Proof.
  intros p lower. unfold AssetValidation.validate_asset. cbv zeta.
  fold p. fold lower.
  destruct (AssetValidation.fs_exists fs p); cbn [negb].
  2:{ split; [discriminate | intros [H _]; discriminate H]. }
  destruct (AssetValidation.allowed_extensions spec) as [|x l] eqn:Hal.
  - cbn [andb map].
    destruct (AssetValidation.enforce_resolution spec).
    + destruct (AssetValidation.required_px spec) as [[wr hr] |].
      * destruct (AssetValidation.image_size fs p) as [[w h] |].
        -- destruct (Z.eqb_spec w wr) as [-> | Hw];
             [destruct (Z.eqb_spec h hr) as [-> | Hh] |]; cbn [andb negb].
           ++ split; [| reflexivity]. intros _.
              split; [reflexivity |]. split; [now left |].
              intros _. now exists wr, hr.
           ++ split; [discriminate |].
              intros (_ & _ & H). destruct (H eq_refl) as (w' & h' & [= <- <-] & [= ->]).
              contradiction.
           ++ split; [discriminate |].
              intros (_ & _ & H). destruct (H eq_refl) as (w' & h' & [= <- <-] & [= -> _]).
              contradiction.
        -- split; [discriminate |].
           intros (_ & _ & H). destruct (H eq_refl) as (w' & h' & _ & [=]).
      * split; [discriminate |].
        intros (_ & _ & H). destruct (H eq_refl) as (w' & h' & [=] & _).
    + split; [| reflexivity]. intros _.
      split; [reflexivity |]. split; [now left | discriminate].
  - set (ok := AssetValidation.mem (lower (AssetValidation.fs_suffix fs p))
                 (map lower (x :: l))).
    cbn [andb]. destruct ok; cbn [negb].
    2:{ split; [discriminate |]. intros (_ & [[=] | [=]] & _). }
    destruct (AssetValidation.enforce_resolution spec).
    + destruct (AssetValidation.required_px spec) as [[wr hr] |].
      * destruct (AssetValidation.image_size fs p) as [[w h] |].
        -- destruct (Z.eqb_spec w wr) as [-> | Hw];
             [destruct (Z.eqb_spec h hr) as [-> | Hh] |]; cbn [andb negb].
           ++ split; [| reflexivity]. intros _.
              split; [reflexivity |]. split; [now right |].
              intros _. now exists wr, hr.
           ++ split; [discriminate |].
              intros (_ & _ & H). destruct (H eq_refl) as (w' & h' & [= <- <-] & [= ->]).
              contradiction.
           ++ split; [discriminate |].
              intros (_ & _ & H). destruct (H eq_refl) as (w' & h' & [= <- <-] & [= -> _]).
              contradiction.
        -- split; [discriminate |].
           intros (_ & _ & H). destruct (H eq_refl) as (w' & h' & _ & [=]).
      * split; [discriminate |].
        intros (_ & _ & H). destruct (H eq_refl) as (w' & h' & [=] & _).
    + split; [| reflexivity]. intros _.
      split; [reflexivity |]. split; [now right | discriminate].
Qed.

(** X10. [validate_branding_assets] checks the logo first and the
    signature only when the logo passes: it ends with the error of the
    logo whenever there is one, whatever the state of the signature, with
    the error of the signature when the logo passes, and without an error
    exactly when both pass. *)
Theorem validate_branding_logo_first (fs : AssetValidation.FileSystem)
    (logo_path signature_path : pystr) (allowed : list pystr)
    (enforce : bool) (logo_px signature_px : option (Z * Z)) :
  let logo :=
    {| AssetValidation.path := logo_path;
       AssetValidation.allowed_extensions := allowed;
       AssetValidation.enforce_resolution := enforce;
       AssetValidation.required_px := logo_px;
       AssetValidation.label := lit "logo" |} in
  let signature :=
    {| AssetValidation.path := signature_path;
       AssetValidation.allowed_extensions := allowed;
       AssetValidation.enforce_resolution := enforce;
       AssetValidation.required_px := signature_px;
       AssetValidation.label := lit "signature" |} in
  let result :=
    AssetValidation.validate_branding_assets fs logo_path signature_path
      allowed enforce logo_px signature_px in
  (forall e, AssetValidation.validate_asset fs logo = Some e -> result = Some e)
  /\ (AssetValidation.validate_asset fs logo = None ->
      result = AssetValidation.validate_asset fs signature)
  /\ (result = None
      <-> AssetValidation.validate_asset fs logo = None
          /\ AssetValidation.validate_asset fs signature = None).
Proof.
  cbv zeta. unfold AssetValidation.validate_branding_assets.
  destruct (AssetValidation.validate_asset fs
              {| AssetValidation.path := logo_path;
                 AssetValidation.allowed_extensions := allowed;
                 AssetValidation.enforce_resolution := enforce;
                 AssetValidation.required_px := logo_px;
                 AssetValidation.label := lit "logo" |}) as [e |].
  - split; [intros e' [= ->]; reflexivity |].
    split; [discriminate |]. split; [discriminate | intros [[=] _]].
  - split; [discriminate |]. split; [reflexivity |].
    split; [intros H; now split | intros [_ H]; exact H].
Qed.

(* ================================================================== *)
(** * One page for each payslip *)
(* ================================================================== *)

Section PageFacts.

Local Open Scope render_scope.
Local Opaque sub mul add div of_int mm fmt_currency lit.

Variable P : cmd -> bool.

Lemma draws_ret {A} (a : A) : draws_only P (ret a).
Proof.
  intros st a' st' [= _ <-]. exists []. now rewrite app_nil_r.
Qed.

Lemma draws_raise {A} (e : exn) : draws_only P (@raise A e).
Proof. intros st a st' [=]. Qed.

Lemma draws_emit (c : cmd) : P c = true -> draws_only P (emit c).
Proof.
  intros Hc st a st' [= _ <-]. exists [c]. cbn [canvas forallb].
  now rewrite Hc.
Qed.

Lemma draws_set_y (y : float) : draws_only P (set_y y).
Proof.
  intros st a st' [= _ <-]. exists []. cbn [canvas]. now rewrite app_nil_r.
Qed.

Lemma draws_bind {A B} (m : R A) (k : A -> R B) :
  draws_only P m -> (forall a, draws_only P (k a)) -> draws_only P (bind m k).
Proof.
  intros Hm Hk st b st'. unfold bind.
  destruct (m st) as [[a st1] | e] eqn:E; [| discriminate].
  intros H. destruct (Hm st a st1 E) as (cs1 & E1 & F1).
  destruct (Hk a st1 b st' H) as (cs2 & E2 & F2).
  exists (cs1 ++ cs2). rewrite E2, E1, app_assoc, forallb_app, F1, F2.
  now split.
Qed.

Lemma draws_try {A} (m h : R A) :
  draws_only P m -> draws_only P h -> draws_only P (try_except m h).
Proof.
  intros Hm Hh st a st'. unfold try_except.
  destruct (m st) as [[a1 st1] | e] eqn:E.
  - intros [= <- <-]. exact (Hm st a1 st1 E).
  - apply Hh.
Qed.

Lemma draws_dict_index (d : list (pystr * pystr)) (key : pystr) :
  draws_only P (dict_index d key).
Proof.
  unfold dict_index. destruct (dict_get d key); [apply draws_ret | apply draws_raise].
Qed.

Lemma draws_io_step (err : option pystr) : draws_only P (io_step err).
Proof. destruct err; [apply draws_raise | apply draws_ret]. Qed.

Lemma draws_drawImage (w : World) p x y wd ht pr an mk :
  P (DrawImage p x y wd ht pr an mk) = true ->
  draws_only P (drawImage w p x y wd ht pr an mk).
Proof.
  intros H. unfold drawImage.
  destruct (image_loads w p); [apply draws_emit, H | apply draws_raise].
Qed.

End PageFacts.

Section OnePage.

Local Open Scope render_scope.
Local Opaque sub mul add div of_int mm fmt_currency lit.

Ltac dstep :=
  lazymatch goal with
  | |- draws_only _ (bind _ _) => apply draws_bind; [| intros ?]
  | |- draws_only _ (ret _) => apply draws_ret
  | |- draws_only _ (emit _) => apply draws_emit; reflexivity
  | |- draws_only _ (set_y _) => apply draws_set_y
  | |- draws_only _ (down _ _) => apply draws_set_y
  | |- draws_only _ (dict_index _ _) => apply draws_dict_index
  | |- draws_only _ (try_except _ _) => apply draws_try
  | |- draws_only _ (drawImage _ _ _ _ _ _ _ _ _) =>
      apply draws_drawImage; reflexivity
  | |- draws_only _ (match ?x with _ => _ end) => destruct x
  | |- draws_only _ _ => assumption
  end.

Variable self : Exporter.
Variable w : World.

Lemma on_page_sep x0 x1 y : draws_only on_page (_sep x0 x1 y).
Proof. unfold _sep. repeat dstep. Qed.

Lemma on_page_section_title x0 y title :
  draws_only on_page (_section_title x0 y title).
Proof. unfold _section_title. repeat dstep. Qed.

Lemma on_page_line_items_loop x0 x1 (items : list LineItem) sym :
  forall y, draws_only on_page (line_items_loop self x0 x1 y items sym).
Proof.
  induction items as [|it rest IH]; intros y; cbn [line_items_loop];
    repeat dstep. apply IH.
Qed.

Lemma on_page_line_items x0 x1 y (items : list LineItem) sym :
  draws_only on_page (_line_items self x0 x1 y items sym).
Proof.
  unfold _line_items. repeat dstep. apply on_page_line_items_loop.
Qed.

Lemma on_page_header x0 x1 y width height l1 l2 pd logo :
  draws_only on_page (header_block w x0 x1 y width height l1 l2 pd logo).
Proof.
  unfold header_block. cbv zeta. repeat dstep; apply on_page_sep.
Qed.

Lemma on_page_info_rows label_x value_x (rows : list (pystr * pystr)) :
  forall y, draws_only on_page (info_rows_loop self label_x value_x y rows).
Proof.
  induction rows as [|[k v] rest IH]; intros y; cbn [info_rows_loop];
    repeat dstep. apply IH.
Qed.

Lemma on_page_employee_info x0 x1 y employee pd :
  draws_only on_page (employee_info_block self x0 x1 y employee pd).
Proof.
  unfold employee_info_block. cbv zeta.
  apply draws_bind; [dstep | intros ?].
  apply draws_bind; [apply on_page_info_rows | intros ?].
  repeat dstep. apply on_page_sep.
Qed.

Lemma on_page_items_section x0 x1 y title items sym labels key total :
  draws_only on_page
    (items_section self x0 x1 y title items sym labels key total).
Proof.
  unfold items_section.
  apply draws_bind; [apply on_page_section_title | intros ?].
  apply draws_bind; [apply on_page_line_items | intros ?].
  repeat dstep.
Qed.

Lemma on_page_after_earnings x0 x1 y :
  draws_only on_page (after_earnings x0 x1 y).
Proof.
  unfold after_earnings.
  apply draws_bind; [dstep | intros ?].
  apply draws_bind; [apply on_page_sep | intros ?]. dstep.
Qed.

Lemma on_page_net_pay x0 x1 y sym labels net :
  draws_only on_page (net_pay_block x0 x1 y sym labels net).
Proof.
  unfold net_pay_block. cbv zeta.
  apply draws_bind; [apply on_page_sep | intros ?].
  do 6 (apply draws_bind; [dstep | intros ?]).
  apply draws_bind; [apply on_page_sep | intros ?]. dstep.
Qed.

Lemma on_page_footer x0 y footer_cfg signature_path :
  draws_only on_page (footer_block w x0 y footer_cfg signature_path).
Proof.
  unfold footer_block. cbv zeta.
  do 3 (apply draws_bind; [dstep | intros ?]).
  apply draws_bind.
  { destruct signature_path; repeat dstep. }
  intros drawn_sig.
  apply draws_bind; [destruct drawn_sig; dstep | intros ?].
  destruct (strip _); repeat dstep.
Qed.

Lemma on_page_page l1 l2 pd employee earnings deductions labels logo sig sym
    cfg gen :
  draws_only on_page
    (page self w l1 l2 pd employee earnings deductions labels logo sig sym
       cfg gen).
Proof.
  unfold page. destruct (page_size self) as [width height]. cbv zeta.
  apply draws_bind; [dstep | intros ?].
  apply draws_bind; [apply on_page_header | intros ?].
  apply draws_bind; [apply on_page_employee_info | intros ?].
  apply draws_bind; [apply on_page_items_section | intros ?].
  apply draws_bind; [apply on_page_after_earnings | intros ?].
  apply draws_bind; [apply on_page_items_section | intros ?].
  apply draws_bind; [apply on_page_net_pay | intros ?].
  apply draws_bind; [apply on_page_footer | intros ?].
  repeat dstep.
Qed.

End OnePage.

(** X11. A payslip is one page, whatever it holds: when [render_pdf]
    returns, the canvas has been given the calls of the page, none of
    which ends a page, then [showPage] once and [save] once, in that
    order; however many earnings and deductions there are, no second page
    is started. *)
Theorem render_pdf_single_page (self : Exporter) (w : World) out l1 l2 pd
    employee earnings deductions labels logo sig sym cfg gen p y st :
  render_pdf self w out l1 l2 pd employee earnings deductions labels logo sig
    sym cfg gen = Ok (p, y, st) ->
  exists cs,
    canvas st = cs ++ [ShowPage; Save]
    /\ forallb on_page cs = true
    /\ List.length (filter ends_page (canvas st)) = 2%nat.
Proof.
  unfold render_pdf, render_pdf_R. cbv zeta. unfold bind at 1.
  destruct (io_step (mkdir_error w (resolve w out)) empty_state)
    as [[u st0] | e] eqn:H0; [| discriminate].
  assert (Hst0 : st0 = empty_state).
  { unfold io_step in H0. destruct (mkdir_error w (resolve w out));
      [discriminate H0 | now injection H0 as _ <-]. }
  subst st0. unfold bind at 1.
  match goal with
  | |- match ?pg empty_state with _ => _ end = _ -> _ =>
      destruct (pg empty_state) as [[y1 st1] | e] eqn:Hp; [| discriminate];
      pose proof (on_page_page self w l1 l2 pd employee earnings deductions
                    labels logo sig sym cfg _ empty_state y1 st1 Hp) as Hd
  end.
  destruct Hd as (cs & Hcs & Hall). cbn [canvas empty_state app] in Hcs.
  unfold bind, emit. destruct (save_error w (resolve w out)); cbn [io_step];
    [discriminate |].
  unfold ret. intros H.
  assert (Hc : canvas st = (canvas st1 ++ [ShowPage]) ++ [Save]).
  { apply (f_equal (fun r : result (pystr * float * rstate) =>
                      match r with Ok (_, s) => canvas s | Raise _ => [] end))
      in H.
    symmetry. exact H. }
  exists cs. rewrite Hc, Hcs, <- app_assoc. cbn [app].
  split; [reflexivity |]. split; [exact Hall |].
  rewrite filter_app. cbn [filter ends_page List.length].
  assert (Hnone : filter ends_page cs = []).
  { clear - Hall. induction cs as [|c cs IH]; [reflexivity |].
    cbn [forallb] in Hall. apply andb_prop in Hall. destruct Hall as [Hc Hr].
    cbn [filter]. unfold on_page in Hc. destruct (ends_page c);
      [discriminate Hc | apply IH, Hr]. }
  rewrite Hnone. reflexivity.
Qed.

Lemma render_pdf_single_page_witness :
  exists p y st,
    render_pdf default_exporter Sample.world (lit "out/E001.pdf")
      (lit "ACME") (lit "Payslip") (lit "January 2026") Sample.employee
      Sample.earnings Sample.deductions Sample.labels None None
      (Some Sample.pound) (Some Sample.footer) None = Ok (p, y, st)
    /\ List.length (filter ends_page (canvas st)) = 2%nat.
Proof.
  destruct (render_pdf default_exporter Sample.world (lit "out/E001.pdf")
      (lit "ACME") (lit "Payslip") (lit "January 2026") Sample.employee
      Sample.earnings Sample.deductions Sample.labels None None
      (Some Sample.pound) (Some Sample.footer) None)
    as [[[p y] st] | e] eqn:H.
  - exists p, y, st. split; [reflexivity |].
    destruct (render_pdf_single_page default_exporter Sample.world
                (lit "out/E001.pdf") (lit "ACME") (lit "Payslip")
                (lit "January 2026") Sample.employee Sample.earnings
                Sample.deductions Sample.labels None None (Some Sample.pound)
                (Some Sample.footer) None p y st H) as (cs & _ & _ & Hn).
    exact Hn.
  - exfalso. vm_compute in H. discriminate H.
Defined.

(* ================================================================== *)
(** * The payroll period *)
(* ================================================================== *)

Section PeriodFacts.

Import Period.

Lemma mem_In (x : pystr) (l : list pystr) :
  AssetValidation.mem x l = true <-> In x l.
Proof.
  unfold AssetValidation.mem. rewrite existsb_exists. split.
  - intros (y & Hy & He). apply eqb_eq in He. now subst.
  - intros H. exists x. split; [exact H | apply eqb_refl].
Qed.

Lemma limbs_small (fuel : nat) (n : Z) : n < 1000 -> limbs fuel n = [n].
Proof.
  intros H. destruct fuel; [reflexivity |]. cbn [limbs].
  destruct (Z.ltb_spec n 1000); [reflexivity | lia].
Qed.

Lemma limbs_of_small (n : Z) : n < 1000 -> limbs_of n = [n].
Proof. apply limbs_small. Qed.

Lemma limbs_of_four (n : Z) :
  1000 <= n < 1000000 -> limbs_of n = [n / 1000; n mod 1000].
Proof.
  intros H. unfold limbs_of.
  assert (Hl : 9 <= Z.log2 n).
  { change 9 with (Z.log2 1000). apply Z.log2_le_mono. lia. }
  destruct (Z.to_nat (Z.log2 n)) as [|k] eqn:Hk; [lia |].
  cbn [limbs]. destruct (Z.ltb_spec n 1000); [lia |].
  rewrite limbs_small; [reflexivity |].
  apply Z.div_lt_upper_bound; lia.
Qed.

Lemma zero_padded_year (y : Z) :
  0 <= y <= 9999 ->
  zero_padded 4 y
  = [digit (y / 1000); digit (y / 100 mod 10); digit (y / 10 mod 10);
     digit (y mod 10)].
Proof.
  intros H. unfold zero_padded. cbv zeta.
  destruct (Z.ltb_spec y 0); [lia |]. rewrite Z.abs_eq by lia.
  cbn [sign_text app List.length]. unfold int_text.
  destruct (Z_lt_le_dec y 1000) as [Hs | Hb].
  - rewrite (limbs_of_small y Hs). cbn [flat_map]. rewrite app_nil_r.
    assert (E0 : y / 1000 = 0) by (apply Z.div_small; lia).
    rewrite E0. unfold lead_digits.
    destruct (Z.ltb_spec y 10).
    + cbn [List.length Nat.sub repeat app].
      assert (E1 : y / 100 = 0) by (apply Z.div_small; lia).
      assert (E2 : y / 10 = 0) by (apply Z.div_small; lia).
      rewrite E1, E2, (Z.mod_small y 10) by lia. reflexivity.
    + destruct (Z.ltb_spec y 100).
      * cbn [List.length Nat.sub repeat app].
        assert (E1 : y / 100 = 0) by (apply Z.div_small; lia).
        rewrite E1, (Z.mod_small (y / 10) 10); [reflexivity |].
        split; [apply Z.div_pos; lia | apply Z.div_lt_upper_bound; lia].
      * cbn [List.length Nat.sub repeat app].
        rewrite (Z.mod_small (y / 100) 10); [reflexivity |].
        split; [apply Z.div_pos; lia | apply Z.div_lt_upper_bound; lia].
  - rewrite (limbs_of_four y) by lia. cbn [flat_map app].
    unfold lead_digits, pad3.
    assert (Hq : 1 <= y / 1000 < 10).
    { split; [apply Z.div_le_lower_bound; lia | apply Z.div_lt_upper_bound; lia]. }
    destruct (Z.ltb_spec (y / 1000) 10); [| lia].
    cbn [List.length Nat.sub repeat app].
    assert (A1 : y mod 1000 / 100 = y / 100 mod 10)
      by (Z.div_mod_to_equations; lia).
    assert (A2 : y mod 1000 / 10 mod 10 = y / 10 mod 10)
      by (Z.div_mod_to_equations; lia).
    assert (A3 : y mod 1000 mod 10 = y mod 10)
      by (Z.div_mod_to_equations; lia).
    rewrite A1, A2, A3. reflexivity.
Qed.

Lemma zero_padded_month (m : Z) :
  0 <= m <= 99 -> zero_padded 2 m = [digit (m / 10); digit (m mod 10)].
Proof.
  intros H. unfold zero_padded. cbv zeta.
  destruct (Z.ltb_spec m 0); [lia |]. rewrite Z.abs_eq by lia.
  cbn [sign_text app List.length]. unfold int_text.
  rewrite (limbs_of_small m) by lia. cbn [flat_map]. rewrite app_nil_r.
  unfold lead_digits. destruct (Z.ltb_spec m 10).
  - cbn [List.length Nat.sub repeat app].
    rewrite (Z.div_small m 10), (Z.mod_small m 10) by lia. reflexivity.
  - destruct (Z.ltb_spec m 100); [reflexivity | lia].
Qed.

Lemma digit_inj (a b : Z) : 0 <= a -> 0 <= b -> digit a = digit b -> a = b.
Proof. unfold digit. lia. Qed.

Lemma period_id_digits (p : PayrollPeriod) :
  0 <= year p <= 9999 -> 0 <= month p <= 99 ->
  period_id p
  = [digit (year p / 1000); digit (year p / 100 mod 10);
     digit (year p / 10 mod 10); digit (year p mod 10); 45%N;
     digit (month p / 10); digit (month p mod 10)].
Proof.
  intros Hy Hm. unfold period_id.
  rewrite (zero_padded_year _ Hy), (zero_padded_month _ Hm). reflexivity.
Qed.

End PeriodFacts.

(** X12. The identifier of a period, which names the output directory of a
    run, is four digits of the year, a hyphen and two digits of the month
    for every year from 0 to 9999 and every month up to 99, and it tells
    periods apart: two such periods with the same identifier are the same
    period. *)
Theorem period_id_injective (p q : Period.PayrollPeriod) :
  0 <= Period.year p <= 9999 -> 0 <= Period.month p <= 99 ->
  0 <= Period.year q <= 9999 -> 0 <= Period.month q <= 99 ->
  List.length (Period.period_id p) = 7%nat
  /\ (Period.period_id p = Period.period_id q -> p = q).
Proof.
  intros Hy Hm Hy' Hm'.
  rewrite (period_id_digits p Hy Hm), (period_id_digits q Hy' Hm').
  split; [reflexivity |].
  intros H. injection H as H1 H2 H3 H4 H5 H6.
  apply digit_inj in H1, H2, H3, H4, H5, H6;
    try (Z.div_mod_to_equations; lia).
  destruct p as [y m], q as [y' m']. cbn [Period.year Period.month] in *.
  f_equal; Z.div_mod_to_equations; lia.
Qed.

Lemma period_id_injective_witness :
  Period.period_id {| Period.year := 2026; Period.month := 1 |} = lit "2026-01"
  /\ List.length
       (Period.period_id {| Period.year := 2026; Period.month := 1 |}) = 7%nat.
Proof.
  split; [reflexivity |].
  exact (proj1
    (period_id_injective {| Period.year := 2026; Period.month := 1 |}
       {| Period.year := 2025; Period.month := 12 |}
       ltac:(cbn; lia) ltac:(cbn; lia) ltac:(cbn; lia) ltac:(cbn; lia))).
Defined.

(** X13. In the modes [auto_previous_month], [previous] and
    [auto_previous], written in any case and with white space around,
    [resolve_period] returns the month before the reference date's: a
    month from 1 to 12, exactly one month earlier, December of the year
    before when the reference date is in January. *)
Theorem resolve_period_previous_month (c : Period.Clock)
    (period_mode : option pystr) (manual_year manual_month : Z)
    (reference_date : pystr) (ref : Period.date) :
  In (Period.normal_mode c period_mode) Period.previous_modes ->
  Period.reference c reference_date = Some ref ->
  1 <= Period.d_month ref <= 12 ->
  exists p,
    Period.resolve_period c period_mode manual_year manual_month reference_date
    = inr p
    /\ 1 <= Period.month p <= 12
    /\ 12 * Period.year p + Period.month p
       = 12 * Period.d_year ref + Period.d_month ref - 1.
Proof.
  intros Hmode Href Hmonth. unfold Period.resolve_period.
  rewrite Href. cbv zeta.
  assert (Hpick :
    PyStr.eqb (Period.normal_mode c period_mode) (lit "manual") = false
    /\ AssetValidation.mem (Period.normal_mode c period_mode)
         Period.current_modes = false
    /\ AssetValidation.mem (Period.normal_mode c period_mode)
         Period.previous_modes = true).
  { destruct Hmode as [<- | [<- | [<- | []]]]; repeat split; reflexivity. }
  destruct Hpick as (-> & -> & ->).
  destruct (Z.eqb_spec (Period.d_month ref - 1) 0); eexists;
    (split; [reflexivity | cbn [Period.year Period.month]; lia]).
Qed.

Lemma resolve_period_previous_month_witness :
  Period.normal_mode Period.sample_clock (Some (lit " Previous "))
  = lit "previous"
  /\ exists p,
       Period.resolve_period Period.sample_clock (Some (lit " Previous "))
         1999 7 (lit "2026-01-15") = inr p
       /\ 1 <= Period.month p <= 12
       /\ 12 * Period.year p + Period.month p = 12 * 2026 + 1 - 1.
Proof.
  split; [reflexivity |].
  apply (resolve_period_previous_month Period.sample_clock
           (Some (lit " Previous ")) 1999 7 (lit "2026-01-15")
           {| Period.d_year := 2026; Period.d_month := 1; Period.d_day := 15 |});
    [right; left; reflexivity | reflexivity | cbn; lia].
Defined.

(** X14. [resolve_period] raises in two cases only. A reference date that
    is given and does not parse is refused first, in every mode, the
    manual one included although it does not use the date. Otherwise the
    mode, stripped and in lower case, must be [manual] or one of the three
    names of the current month or of the previous month; any other mode is
    refused. The manual year and month are never checked. *)
Theorem resolve_period_raises_iff (c : Period.Clock)
    (period_mode : option pystr) (manual_year manual_month : Z)
    (reference_date : pystr) (e : Period.error) :
  Period.resolve_period c period_mode manual_year manual_month reference_date
  = inl e
  <-> (Period.reference c reference_date = None
       /\ e = Period.InvalidReferenceDate reference_date)
      \/ (Period.reference c reference_date <> None
          /\ ~ In (Period.normal_mode c period_mode)
                 (lit "manual" :: Period.current_modes ++ Period.previous_modes)
          /\ e = Period.UnknownMode period_mode).
Proof.
  unfold Period.resolve_period.
  destruct (Period.reference c reference_date) as [ref |].
  2:{ split.
      - intros [= <-]. now left.
      - intros [[_ ->] | [H _]]; [reflexivity | now contradiction H]. }
  cbv zeta.
  set (mode := Period.normal_mode c period_mode).
  destruct (PyStr.eqb mode (lit "manual")) eqn:Hman.
  { apply eqb_eq in Hman. split; [discriminate |].
    intros [[[=] _] | (_ & H & _)]. contradiction H. now left. }
  destruct (AssetValidation.mem mode Period.current_modes) eqn:Hcur.
  { apply mem_In in Hcur. split; [discriminate |].
    intros [[[=] _] | (_ & H & _)]. contradiction H.
    right. apply in_or_app. now left. }
  destruct (AssetValidation.mem mode Period.previous_modes) eqn:Hprev.
  { apply mem_In in Hprev. split.
    - destruct (Period.d_month ref - 1 =? 0); discriminate.
    - intros [[[=] _] | (_ & H & _)]. contradiction H.
      right. apply in_or_app. now right. }
  split.
  - intros [= <-]. right. split; [discriminate |]. split; [| reflexivity].
    intros [H | H].
    + symmetry in H. apply eqb_eq in H. congruence.
    + apply in_app_or in H. destruct H as [H | H]; apply mem_In in H; congruence.
  - intros [[[=] _] | (_ & _ & ->)]. reflexivity.
Qed.

(* ================================================================== *)
(** * The stream that turns writes into log records *)
(* ================================================================== *)

Section StreamFacts.

Import StreamToLogger.

Lemma split_line_some (s l r : pystr) :
  split_line s = Some (l, r) -> s = l ++ newline :: r /\ ~ In newline l.
Proof.
  revert l r. induction s as [|c s IH]; intros l r; [discriminate |].
  cbn [split_line]. destruct (N.eqb_spec c newline) as [-> | Hne].
  - intros [= <- <-]. split; [reflexivity | intros []].
  - destruct (split_line s) as [[l' r'] |]; [| discriminate].
    intros [= <- <-]. destruct (IH l' r' eq_refl) as [-> Hl].
    split; [reflexivity |]. intros [H | H]; [congruence | contradiction].
Qed.

Lemma split_line_none (s : pystr) : split_line s = None -> ~ In newline s.
Proof.
  induction s as [|c s IH]; [intros _ [] |].
  cbn [split_line]. destruct (N.eqb_spec c newline) as [-> | Hne];
    [discriminate |].
  destruct (split_line s) as [[l r] |]; [discriminate |].
  intros _ [H | H]; [congruence | now apply IH].
Qed.

Lemma split_line_absent (s : pystr) : ~ In newline s -> split_line s = None.
Proof.
  intros H. destruct (split_line s) as [[l r] |] eqn:E; [| reflexivity].
  apply split_line_some in E. destruct E as [-> _].
  contradiction H. apply in_or_app. right. now left.
Qed.

Lemma split_line_app (s t : pystr) :
  split_line (s ++ t) =
  match split_line s with
  | Some (l, r) => Some (l, r ++ t)
  | None =>
      match split_line t with
      | Some (l, r) => Some (s ++ l, r)
      | None => None
      end
  end.
Proof.
  induction s as [|c s IH].
  - cbn [app split_line]. destruct (split_line t) as [[l r] |]; reflexivity.
  - cbn [app split_line]. destruct (c =? newline)%N; [reflexivity |].
    rewrite IH. destruct (split_line s) as [[l r] |]; [reflexivity |].
    destruct (split_line t) as [[l r] |]; reflexivity.
Qed.

Lemma split_line_shorter (s l r : pystr) :
  split_line s = Some (l, r) -> (List.length r < List.length s)%nat.
Proof.
  intros H. apply split_line_some in H. destruct H as [-> _].
  rewrite length_app. cbn [List.length]. lia.
Qed.

Lemma drain_level (fuel : nat) :
  forall st, level (drain fuel st) = level st.
Proof.
  induction fuel as [|k IH]; intros st; [reflexivity |].
  cbn [drain]. destruct (split_line (buffer st)) as [[l r] |]; [| reflexivity].
  now rewrite IH.
Qed.

Lemma drain_idle (n : nat) (st : stream) :
  split_line (buffer st) = None -> drain n st = st.
Proof. intros H. destruct n; [reflexivity |]. cbn [drain]. now rewrite H. Qed.

Lemma drain_fuel (n : nat) :
  forall m st,
    (List.length (buffer st) <= n)%nat -> (List.length (buffer st) <= m)%nat ->
    drain n st = drain m st.
Proof.
  induction n as [|k IH]; intros m st Hn Hm.
  - assert (E : buffer st = []) by (destruct (buffer st); [reflexivity | cbn in Hn; lia]).
    rewrite (drain_idle m); [reflexivity | now rewrite E].
  - destruct (split_line (buffer st)) as [[l r] |] eqn:E.
    2:{ now rewrite !drain_idle. }
    pose proof (split_line_shorter _ _ _ E) as Hr.
    destruct m as [|j]; [lia |].
    cbn [drain]. rewrite E. apply IH; cbn [buffer]; lia.
Qed.

Lemma lstrip_In (c : codepoint) (s : pystr) : In c (lstrip s) -> In c s.
Proof.
  induction s as [|a s IH]; [intros [] |].
  cbn [lstrip]. destruct (is_space a); [| exact (fun H => H)].
  intros H. right. now apply IH.
Qed.

Lemma rstrip_In (c : codepoint) (s : pystr) : In c (rstrip s) -> In c s.
Proof.
  unfold rstrip. intros H. apply in_rev in H. apply lstrip_In in H.
  now apply in_rev in H.
Qed.

Lemma log_line_spec (st : stream) (l : pystr) :
  ~ In newline l ->
  exists new,
    log_line st (rstrip l) = records st ++ new
    /\ Forall (logged_line (level st)) new.
Proof.
  intros Hl. unfold log_line. destruct (rstrip l) as [|c t] eqn:E.
  - exists []. now rewrite app_nil_r.
  - exists [(level st, c :: t)]. split; [reflexivity |].
    constructor; [| constructor]. unfold logged_line. cbn [fst snd].
    split; [reflexivity |]. split; [discriminate |]. split.
    + intros H. apply Hl. apply rstrip_In. now rewrite E.
    + rewrite <- E. apply rstrip_idem.
Qed.

Lemma drain_spec (fuel : nat) :
  forall st,
    (List.length (buffer st) <= fuel)%nat ->
    ~ In newline (buffer (drain fuel st))
    /\ exists new,
         records (drain fuel st) = records st ++ new
         /\ Forall (logged_line (level st)) new.
Proof.
  induction fuel as [|k IH]; intros st Hn.
  - assert (E : buffer st = []) by (destruct (buffer st); [reflexivity | cbn in Hn; lia]).
    cbn [drain]. rewrite E. split; [intros [] |].
    exists []. now rewrite app_nil_r.
  - cbn [drain]. destruct (split_line (buffer st)) as [[l r] |] eqn:E.
    2:{ split; [now apply split_line_none |].
        exists []. now rewrite app_nil_r. }
    pose proof (split_line_shorter _ _ _ E) as Hr.
    destruct (split_line_some _ _ _ E) as [_ Hl].
    destruct (log_line_spec st l Hl) as (new0 & E0 & F0).
    destruct (IH {| level := level st; buffer := r;
                    records := log_line st (rstrip l) |}) as (Hb & new1 & E1 & F1).
    { cbn [buffer]. lia. }
    split; [exact Hb |].
    exists (new0 ++ new1). cbn [records level] in E1, F1.
    rewrite E1, E0, app_assoc. split; [reflexivity |].
    apply Forall_app. now split.
Qed.

Lemma drain_app (n : nat) :
  forall st t n1 n2,
    (List.length (buffer st) <= n)%nat ->
    (List.length (buffer st ++ t) <= n1)%nat ->
    (List.length (buffer (drain n st) ++ t) <= n2)%nat ->
    drain n1 {| level := level st; buffer := buffer st ++ t;
                records := records st |}
    = drain n2 {| level := level (drain n st);
                  buffer := buffer (drain n st) ++ t;
                  records := records (drain n st) |}.
Proof.
  induction n as [|k IH]; intros st t n1 n2 Hn H1 H2.
  - cbn [drain] in *. apply drain_fuel; cbn [buffer]; assumption.
  - destruct (split_line (buffer st)) as [[l r] |] eqn:E.
    2:{ rewrite (drain_idle (S k) st E) in *.
        apply drain_fuel; cbn [buffer]; assumption. }
    pose proof (split_line_shorter _ _ _ E) as Hr.
    cbn [drain] in H2 |- *. rewrite E in H2 |- *.
    destruct n1 as [|j1].
    { rewrite length_app in H1. lia. }
    cbn [drain buffer]. rewrite split_line_app, E.
    apply (IH {| level := level st; buffer := r;
                 records := log_line st (rstrip l) |} t j1 n2).
    + cbn [buffer]. lia.
    + cbn [buffer]. rewrite length_app in *. lia.
    + exact H2.
Qed.

End StreamFacts.

(** X15. A [write] leaves no newline in the buffer of the stream: every
    complete line of the buffered text has been taken out. What it logs
    are records at the level of the stream, none of them empty, none with
    a newline, none with white space at its end; the records logged before
    are kept, and the level does not change. *)
Theorem write_logs_complete_lines (message : pystr)
    (st : StreamToLogger.stream) :
  message <> [] ->
  let st' := StreamToLogger.write message st in
  StreamToLogger.level st' = StreamToLogger.level st
  /\ ~ In StreamToLogger.newline (StreamToLogger.buffer st')
  /\ exists new,
       StreamToLogger.records st' = StreamToLogger.records st ++ new
       /\ Forall (StreamToLogger.logged_line (StreamToLogger.level st)) new.
Proof.
  intros Hm. destruct message as [|c m]; [contradiction |]. clear Hm.
  cbv zeta. unfold StreamToLogger.write. cbv zeta.
  cbn [StreamToLogger.buffer].
  split; [rewrite drain_level; reflexivity |].
  exact (drain_spec _
           {| StreamToLogger.level := StreamToLogger.level st;
              StreamToLogger.buffer := StreamToLogger.buffer st ++ c :: m;
              StreamToLogger.records := StreamToLogger.records st |}
           (Nat.le_refl _)).
Qed.

Lemma write_logs_complete_lines_witness :
  let st :=
    StreamToLogger.write (lit "saved  " ++ [10%N] ++ lit "next")
      (StreamToLogger.new 20) in
  StreamToLogger.records st = [(20, lit "saved")]
  /\ StreamToLogger.buffer st = lit "next"
  /\ ~ In StreamToLogger.newline (StreamToLogger.buffer st).
Proof.
  cbv zeta. split; [reflexivity |]. split; [reflexivity |].
  exact (proj1 (proj2
    (write_logs_complete_lines (lit "saved  " ++ [10%N] ++ lit "next")
       (StreamToLogger.new 20) ltac:(discriminate)))).
Defined.

(** X16. Writing a text in two pieces is writing it at once: the stream
    ends with the same buffer and the same records, wherever the text is
    cut, in the middle of a line or not. *)
Theorem write_in_pieces (a b : pystr) (st : StreamToLogger.stream) :
  StreamToLogger.write b (StreamToLogger.write a st)
  = StreamToLogger.write (a ++ b) st.
Proof.
  destruct a as [|c a]; [reflexivity |].
  destruct b as [|d b].
  { rewrite app_nil_r. reflexivity. }
  unfold StreamToLogger.write. cbv zeta. cbn [app StreamToLogger.buffer].
  symmetry.
  replace (StreamToLogger.buffer st ++ c :: a ++ d :: b)
    with ((StreamToLogger.buffer st ++ c :: a) ++ d :: b)
    by (now rewrite <- app_assoc).
  apply (drain_app _
           {| StreamToLogger.level := StreamToLogger.level st;
              StreamToLogger.buffer := StreamToLogger.buffer st ++ c :: a;
              StreamToLogger.records := StreamToLogger.records st |}
           (d :: b)); cbn [StreamToLogger.buffer]; apply Nat.le_refl.
Qed.

(** X17. A text without a newline is held back: as long as the buffer and
    the message hold no newline, [write] logs nothing and keeps the text
    in the buffer. [flush] then logs what is left, stripped at both ends,
    when that is not empty, and empties the buffer; a second [flush]
    changes nothing. *)
Theorem partial_line_waits_for_flush (message : pystr)
    (st : StreamToLogger.stream) :
  ~ In StreamToLogger.newline (StreamToLogger.buffer st ++ message) ->
  let st' := StreamToLogger.write message st in
  StreamToLogger.records st' = StreamToLogger.records st
  /\ StreamToLogger.buffer st' = StreamToLogger.buffer st ++ message
  /\ StreamToLogger.buffer (StreamToLogger.flush st') = []
  /\ StreamToLogger.records (StreamToLogger.flush st')
     = StreamToLogger.log_line st
         (strip (StreamToLogger.buffer st ++ message))
  /\ StreamToLogger.flush (StreamToLogger.flush st') = StreamToLogger.flush st'.
Proof.
  intros Hn. cbv zeta.
  assert (E : StreamToLogger.write message st
              = {| StreamToLogger.level := StreamToLogger.level st;
                   StreamToLogger.buffer := StreamToLogger.buffer st ++ message;
                   StreamToLogger.records := StreamToLogger.records st |}).
  { destruct message as [|c m].
    - rewrite app_nil_r. now destruct st.
    - unfold StreamToLogger.write. cbv zeta.
      apply drain_idle. cbn [StreamToLogger.buffer].
      now apply split_line_absent. }
  rewrite E. repeat split; reflexivity.
Qed.

Lemma partial_line_waits_for_flush_witness :
  let st := StreamToLogger.write (lit "  half a line ") (StreamToLogger.new 40) in
  StreamToLogger.records st = []
  /\ StreamToLogger.records (StreamToLogger.flush st)
     = [(40, lit "half a line")].
Proof.
  cbv zeta. split; [reflexivity |].
  rewrite (proj1 (proj2 (proj2 (proj2
    (partial_line_waits_for_flush (lit "  half a line ")
       (StreamToLogger.new 40)
       ltac:(vm_compute; intros H;
             repeat (destruct H as [H | H]; [discriminate H |]); exact H)))))).
  reflexivity.
Defined.

(* ================================================================== *)
(** * The email step *)
(* ================================================================== *)

Section EmailFacts.

Import Email.

Variable cfg : EmailCfg.
Variable d : Desk.
Variable o : Outlook.
Variable period : Main.Period.

Lemma send_envelope (req : EmailRequest) (mode : option pystr) (m : Mail) :
  send_or_display_via_outlook o req mode = inr m ->
  envelope m = (to req, resolve o (attachment_path req)).
Proof.
  unfold send_or_display_via_outlook.
  destruct (win32com_available o); cbn [negb]; [| discriminate].
  destruct (to req) as [|c t]; [discriminate |]. cbv zeta.
  destruct (path_exists o (resolve o (attachment_path req))); cbn [negb];
    [| discriminate].
  intros [= <-]. reflexivity.
Qed.

Lemma request_for_fields emp row req :
  request_for cfg d period emp row = Some req ->
  to req = Main.email emp /\ attachment_path req = Main.row_pdf_path row.
Proof.
  unfold request_for.
  destruct (format_template d (subject_template cfg) _ _ _); [| discriminate].
  destruct (format_template d (body_template cfg) _ _ _); [| discriminate].
  intros [= <-]. split; reflexivity.
Qed.

Lemma email_loop_prefix (pairs : list (Main.EmployeeRow * Main.ManifestRow)) :
  forall acc mails err,
    email_loop cfg d o period pairs acc = (mails, err) ->
    exists done rest,
      mails = acc ++ done
      /\ map (fun pair : Main.EmployeeRow * Main.ManifestRow =>
                (Main.email (fst pair), resolve o (Main.row_pdf_path (snd pair))))
           (filter (fun pair : Main.EmployeeRow * Main.ManifestRow =>
                      negb (is_empty (Main.row_pdf_path (snd pair)))) pairs)
         = map envelope done ++ rest
      /\ (err = None -> rest = []).
Proof.
  induction pairs as [|[emp row] pairs IH]; intros acc mails err H.
  - injection H as <- <-. exists [], []. rewrite app_nil_r. now repeat split.
  - cbn [email_loop] in H. cbn [filter snd].
    destruct (Main.row_pdf_path row) as [|c p] eqn:Hp.
    { cbn [is_empty negb]. apply (IH acc mails err H). }
    cbn [is_empty negb map fst snd].
    destruct (request_for cfg d period emp row) as [req |] eqn:Hreq.
    2:{ injection H as <- <-. exists []. eexists.
        rewrite app_nil_r. split; [reflexivity |].
        split; [reflexivity | discriminate]. }
    destruct (send_or_display_via_outlook o req (Some (mode cfg)))
      as [e | mail] eqn:Hsend.
    { injection H as <- <-. exists []. eexists.
      rewrite app_nil_r. split; [reflexivity |].
      split; [reflexivity | discriminate]. }
    destruct (IH _ _ _ H) as (done & rest & -> & Hd & Hr).
    exists (mail :: done), rest. rewrite <- app_assoc. split; [reflexivity |].
    split; [| exact Hr]. cbn [map app]. rewrite <- Hd. f_equal.
    rewrite (send_envelope _ _ _ Hsend).
    destruct (request_for_fields _ _ _ Hreq) as [-> ->].
    now rewrite Hp.
Qed.

End EmailFacts.

Section EmailRun.

Import Main Email.

Variable env : Env.
Variable settings : Settings.

Lemma main_rows (employees : list EmployeeRow) :
  fail_fast settings = false ->
  validate env settings = None ->
  load_result env = inr employees ->
  manifest_rows (main env settings) = map (row_of env settings) employees.
Proof.
  intros Hff Hv Hl.
  destruct (employees_loop_rows env settings employees Hff nothing_done)
    as (H1 & H2 & _). cbv zeta in H1, H2.
  unfold main. rewrite Hv, Hl. cbv zeta. rewrite H2.
  cbn [raised nothing_done manifest_rows]. exact H1.
Qed.

Lemma combine_map {A B} (f : A -> B) (l : list A) :
  combine l (map f l) = map (fun a => (a, f a)) l.
Proof. induction l as [|a l IH]; [reflexivity |]. cbn. now rewrite IH. Qed.

Lemma due_of_rows (o : Outlook) (employees : list EmployeeRow) :
  Forall (fun emp => Exporter.resolve (world env) (out_pdf_of env emp) <> [])
    employees ->
  map (fun pair : EmployeeRow * ManifestRow =>
         (email (fst pair), Email.resolve o (row_pdf_path (snd pair))))
    (filter (fun pair : EmployeeRow * ManifestRow =>
               negb (is_empty (row_pdf_path (snd pair))))
       (map (fun emp => (emp, row_of env settings emp)) employees))
  = map (fun emp =>
           (email emp,
            Email.resolve o (Exporter.resolve (world env) (out_pdf_of env emp))))
      (filter (rendered env settings) employees).
Proof.
  induction 1 as [|emp rest Hne _ IH]; [reflexivity |].
  cbn [map filter fst snd]. unfold rendered at 1, row_of at 1 2.
  destruct (render_employee env settings emp) as [r | e].
  - unfold generated_row at 1. cbv zeta. cbn [row_pdf_path].
    destruct (Exporter.resolve (world env) (out_pdf_of env emp)) as [|c p] eqn:E;
      [contradiction |].
    cbn [is_empty negb map fst snd]. rewrite IH.
    unfold generated_row. cbv zeta. cbn [row_pdf_path]. now rewrite E.
  - cbn [error_row row_pdf_path is_empty negb]. exact IH.
Qed.

End EmailRun.

(** X18. [send_or_display_via_outlook] hands a mail to Outlook only with a
    recipient and with an attachment that exists: the mail goes to the
    recipient of the request and carries the resolved attachment of the
    request. The mail is sent, rather than shown as a draft, exactly when
    the mode, stripped and in lower case, is [send]. *)
Theorem outlook_mail_is_complete (o : Email.Outlook) (req : Email.EmailRequest)
    (mode : option pystr) (m : Email.Mail) :
  Email.send_or_display_via_outlook o req mode = inr m ->
  Email.win32com_available o = true
  /\ Email.mail_to m = Email.to req
  /\ Email.mail_to m <> []
  /\ Email.mail_attachment m = Email.resolve o (Email.attachment_path req)
  /\ Email.path_exists o (Email.mail_attachment m) = true
  /\ (Email.was_sent m = true <-> Email.normal_mode o mode = lit "send").
Proof.
  unfold Email.send_or_display_via_outlook.
  destruct (Email.win32com_available o); cbn [negb]; [| discriminate].
  destruct (Email.to req) as [|c t] eqn:Hto; [discriminate |]. cbv zeta.
  destruct (Email.path_exists o (Email.resolve o (Email.attachment_path req)))
    eqn:Hex; cbn [negb]; [| discriminate].
  intros [= <-].
  cbn [Email.mail_to Email.mail_attachment Email.was_sent].
  repeat split; try assumption; try discriminate; apply eqb_eq.
Qed.

Lemma outlook_mail_is_complete_witness :
  let req :=
    {| Email.to := lit "ada@example.com"; Email.subject := lit "Your Payslip";
       Email.body := []; Email.attachment_path := lit "out/E001.pdf" |} in
  exists m,
    Email.send_or_display_via_outlook Email.sample_outlook req
      (Some (lit " SEND ")) = inr m
    /\ Email.mail_to m = lit "ada@example.com"
    /\ Email.was_sent m = true.
Proof.
  cbv zeta.
  destruct (Email.send_or_display_via_outlook Email.sample_outlook
              {| Email.to := lit "ada@example.com";
                 Email.subject := lit "Your Payslip";
                 Email.body := []; Email.attachment_path := lit "out/E001.pdf" |}
              (Some (lit " SEND "))) as [e | m] eqn:H.
  - exfalso. vm_compute in H. discriminate H.
  - exists m. split; [reflexivity |].
    destruct (outlook_mail_is_complete _ _ _ _ H) as (_ & Hto & _ & _ & _ & Hs).
    split; [rewrite Hto; reflexivity | apply Hs; reflexivity].
Defined.



(* ================================================================== *)
(** * Amounts that are not numbers *)
(* ================================================================== *)

Section NanFacts.

Lemma add_nan_r (x : float) : add x S754_nan = S754_nan.
Proof. destruct x; reflexivity. Qed.

Lemma sub_nan_r (x : float) : sub x S754_nan = S754_nan.
Proof. destruct x; reflexivity. Qed.

Lemma fold_add_nan (l : list float) : fold_left add l S754_nan = S754_nan.
Proof. induction l as [|x l IH]; [reflexivity | exact IH]. Qed.

Lemma is_nan_eq (x : float) : is_nan x = true -> x = S754_nan.
Proof. destruct x; try discriminate. reflexivity. Qed.

Lemma py_sum_nan (l : list LineItem) :
  Exists (fun it => is_nan (amount it) = true) l ->
  py_sum (map amount l) = S754_nan.
Proof.
  intros H. unfold py_sum. generalize zero.
  induction H as [it l Hn | it l _ IH]; intros acc; cbn [map fold_left].
  - rewrite (is_nan_eq _ Hn), add_nan_r. apply fold_add_nan.
  - apply IH.
Qed.

End NanFacts.

(** X20. An amount that is not a number is not taken for zero: it goes
    through the sums. When any earning or deduction is NaN, which
    [_safe_float] lets through for a cell holding the text [nan], the net
    pay is NaN, the payslip prints it as the currency symbol followed by
    [nan], and the manifest records [nan]. *)
Theorem nan_amount_reaches_net_pay (earnings deductions : list LineItem)
    (sym : option pystr) :
  Exists (fun it => is_nan (amount it) = true) (earnings ++ deductions) ->
  let t := compute_totals earnings deductions in
  net_pay t = S754_nan
  /\ fmt_currency (net_pay t) sym = or_default sym [] ++ lit "nan"
  /\ format_fixed2 false (net_pay t) = lit "nan".
Proof.
  intros H. cbv zeta.
  assert (E : net_pay (compute_totals earnings deductions) = S754_nan).
  { unfold compute_totals. cbv zeta. cbn [net_pay].
    apply Exists_app in H. destruct H as [H | H].
    - rewrite (py_sum_nan _ H). reflexivity.
    - rewrite (py_sum_nan _ H). apply sub_nan_r. }
  rewrite E. split; [reflexivity |].
  split; [destruct sym; reflexivity | reflexivity].
Qed.

Lemma nan_amount_reaches_net_pay_witness :
  let earnings :=
    [ {| label := lit "Basic"; amount := of_int 50000 |};
      {| label := lit "Bonus";
         amount :=
           Main._safe_float
             (fun s => if PyStr.eqb s (lit "nan") then Some S754_nan else None)
             (Main.CStr (lit "nan")) |} ] in
  fmt_currency (net_pay (compute_totals earnings Sample.deductions))
    (Some Sample.pound)
  = Sample.pound ++ lit "nan".
Proof.
  cbv zeta.
  refine (proj1 (proj2 (nan_amount_reaches_net_pay _ Sample.deductions
                          (Some Sample.pound) _))).
  apply Exists_app. left. apply Exists_cons_tl, Exists_cons_hd. reflexivity.
Defined.

(* ================================================================== *)
(** * The manifest rows of a batch *)
(* ================================================================== *)


